(** * The recording scheduler of rr (src/recorder/rec_sched.c)

    A shallow embedding of the task list, the tid index, the cursor
    [current_entry] and the four entry points of rec_sched.c, followed by
    the properties of the scheduler that the specification relies on.

    C objects are modelled as follows.
    - [int] and [pid_t] values are integers [Z]; signed overflow is
      undefined behaviour and is reported as such.
    - A [struct tasklist_entry*] is an [eptr].  [ctx] is the first member of
      [struct tasklist_entry], so [&entry->ctx] has the address of [entry]
      and a [struct context*] is an [eptr] as well.
    - The [CIRCLEQ] is the list of its entries in queue order; the records
      themselves live in a heap indexed by address.
    - [tid_to_entry] is a finite map whose absent keys are the NULL slots.
    - Calls that leave the file (waitpid, ptrace, performance counters, ...)
      append to a trace; the answers of the wait backend are read from
      scripts carried by the state. *)

From stdpp Require Import gmap list.

Local Open Scope Z_scope.

(** ** Constants of the C environment *)

Definition INT_MIN : Z := -2147483648.
Definition INT_MAX : Z := 2147483647.
Definition SIGINT : Z := 2.
Definition EINTR : Z := 4.

(** ** Task records *)

Abbreviation addr := positive.

(** Pointers to task list entries.  [HeadPtr] is [(void* )&head], the value
    the CIRCLEQ macros use as end marker and that [CIRCLEQ_FIRST] yields on
    an empty queue. *)
Inductive eptr : Type :=
| Null
| HeadPtr
| Entry (a : addr).

Global Instance eptr_eq_dec : EqDecision eptr.
Proof. solve_decision. Defined.

(** Modelled from the spec: the enumeration behind [exec_state] is declared
    in share/task.h; the specification lists Runnable, ProcessingSyscall and
    other blocked states. *)
Inductive exec_state_t : Type :=
| RUNNABLE
| PROCESSING_SYSCALL
| OTHER_BLOCKED (n : Z).

Global Instance exec_state_eq_dec : EqDecision exec_state_t.
Proof. solve_decision. Defined.

(** Modelled from the spec: [struct context] is declared in share/task.h;
    these are the members rec_sched.c reads or writes ([switch_counter] is
    the event budget, [status] the last wait status). *)
Record context : Type := mkContext {
  exec_state : exec_state_t;
  status : Z;
  rec_tid : Z;
  tid : Z;
  child_mem_fd : Z;
  syscallbuf_lib_start : Z;
  syscallbuf_lib_end : Z;
  desched_fd : Z;
  desched_fd_child : Z;
  switchable : Z;
  switch_counter : Z
}.

(** The record [sys_malloc_zero] hands out.  Which enumerator is zero does
    not matter: registration overwrites [exec_state] before it is read. *)
Definition zero_context : context :=
  mkContext RUNNABLE 0 0 0 0 0 0 0 0 0 0.

Definition set_exec_state (v : exec_state_t) (c : context) : context :=
  mkContext v (status c) (rec_tid c) (tid c) (child_mem_fd c)
    (syscallbuf_lib_start c) (syscallbuf_lib_end c) (desched_fd c)
    (desched_fd_child c) (switchable c) (switch_counter c).

Definition set_status (v : Z) (c : context) : context :=
  mkContext (exec_state c) v (rec_tid c) (tid c) (child_mem_fd c)
    (syscallbuf_lib_start c) (syscallbuf_lib_end c) (desched_fd c)
    (desched_fd_child c) (switchable c) (switch_counter c).

Definition set_rec_tid (v : Z) (c : context) : context :=
  mkContext (exec_state c) (status c) v (tid c) (child_mem_fd c)
    (syscallbuf_lib_start c) (syscallbuf_lib_end c) (desched_fd c)
    (desched_fd_child c) (switchable c) (switch_counter c).

Definition set_tid (v : Z) (c : context) : context :=
  mkContext (exec_state c) (status c) (rec_tid c) v (child_mem_fd c)
    (syscallbuf_lib_start c) (syscallbuf_lib_end c) (desched_fd c)
    (desched_fd_child c) (switchable c) (switch_counter c).

Definition set_child_mem_fd (v : Z) (c : context) : context :=
  mkContext (exec_state c) (status c) (rec_tid c) (tid c) v
    (syscallbuf_lib_start c) (syscallbuf_lib_end c) (desched_fd c)
    (desched_fd_child c) (switchable c) (switch_counter c).

Definition set_syscallbuf_lib_start (v : Z) (c : context) : context :=
  mkContext (exec_state c) (status c) (rec_tid c) (tid c) (child_mem_fd c)
    v (syscallbuf_lib_end c) (desched_fd c)
    (desched_fd_child c) (switchable c) (switch_counter c).

Definition set_syscallbuf_lib_end (v : Z) (c : context) : context :=
  mkContext (exec_state c) (status c) (rec_tid c) (tid c) (child_mem_fd c)
    (syscallbuf_lib_start c) v (desched_fd c)
    (desched_fd_child c) (switchable c) (switch_counter c).

Definition set_desched_fd (v : Z) (c : context) : context :=
  mkContext (exec_state c) (status c) (rec_tid c) (tid c) (child_mem_fd c)
    (syscallbuf_lib_start c) (syscallbuf_lib_end c) v
    (desched_fd_child c) (switchable c) (switch_counter c).

Definition set_desched_fd_child (v : Z) (c : context) : context :=
  mkContext (exec_state c) (status c) (rec_tid c) (tid c) (child_mem_fd c)
    (syscallbuf_lib_start c) (syscallbuf_lib_end c) (desched_fd c)
    v (switchable c) (switch_counter c).

Definition set_switchable (v : Z) (c : context) : context :=
  mkContext (exec_state c) (status c) (rec_tid c) (tid c) (child_mem_fd c)
    (syscallbuf_lib_start c) (syscallbuf_lib_end c) (desched_fd c)
    (desched_fd_child c) v (switch_counter c).

Definition set_switch_counter (v : Z) (c : context) : context :=
  mkContext (exec_state c) (status c) (rec_tid c) (tid c) (child_mem_fd c)
    (syscallbuf_lib_start c) (syscallbuf_lib_end c) (desched_fd c)
    (desched_fd_child c) (switchable c) v.

(** [struct flags] (share/config.h): the two members the scheduler reads. *)
Record flags : Type := mkFlags {
  max_events : Z;
  max_rbc : Z
}.

(** ** The world outside the file *)

(** One answer of [waitpid(-1, &status, ...)]: the returned pid, the status
    it stored and [errno]. *)
Record wait_answer : Type := mkWait {
  wait_ret : Z;
  wait_status : Z;
  wait_errno : Z
}.

Inductive event : Type :=
| EvWaitpidNonblock (t : Z) (answer : option Z)
| EvWaitpid (answer : wait_answer)
| EvKill (t sig : Z)
| EvOpenChildMem (t fd : Z)
| EvPtraceSetup (t : Z)
| EvInitHpc (a : eptr)
| EvStartHpc (a : eptr) (threshold : Z)
| EvCleanupHpc (a : eptr)
| EvSysClose (fd : Z)
| EvClose (fd : Z)
| EvPtraceDetach (t : Z).

(** ** Scheduler state *)

Record world : Type := mkWorld {
  tasklist : list addr;
  heap : gmap addr context;
  tid_to_entry : gmap Z addr;
  current_entry : eptr;
  num_active_threads : Z;
  nonblock_script : list (option Z);
  waitpid_script : list wait_answer;
  trace : list event
}.

Definition initial_world (polls : list (option Z)) (waits : list wait_answer)
  : world :=
  mkWorld [] ∅ ∅ Null 0 polls waits [].

Definition with_tasklist (l : list addr) (w : world) : world :=
  mkWorld l (heap w) (tid_to_entry w) (current_entry w)
    (num_active_threads w) (nonblock_script w) (waitpid_script w) (trace w).

Definition with_heap (h : gmap addr context) (w : world) : world :=
  mkWorld (tasklist w) h (tid_to_entry w) (current_entry w)
    (num_active_threads w) (nonblock_script w) (waitpid_script w) (trace w).

Definition with_tid_to_entry (m : gmap Z addr) (w : world) : world :=
  mkWorld (tasklist w) (heap w) m (current_entry w)
    (num_active_threads w) (nonblock_script w) (waitpid_script w) (trace w).

Definition with_current_entry (p : eptr) (w : world) : world :=
  mkWorld (tasklist w) (heap w) (tid_to_entry w) p
    (num_active_threads w) (nonblock_script w) (waitpid_script w) (trace w).

Definition with_num_active_threads (n : Z) (w : world) : world :=
  mkWorld (tasklist w) (heap w) (tid_to_entry w) (current_entry w)
    n (nonblock_script w) (waitpid_script w) (trace w).

Definition with_nonblock_script (s : list (option Z)) (w : world) : world :=
  mkWorld (tasklist w) (heap w) (tid_to_entry w) (current_entry w)
    (num_active_threads w) s (waitpid_script w) (trace w).

Definition with_waitpid_script (s : list wait_answer) (w : world) : world :=
  mkWorld (tasklist w) (heap w) (tid_to_entry w) (current_entry w)
    (num_active_threads w) (nonblock_script w) s (trace w).

Definition with_trace (t : list event) (w : world) : world :=
  mkWorld (tasklist w) (heap w) (tid_to_entry w) (current_entry w)
    (num_active_threads w) (nonblock_script w) (waitpid_script w) t.

(** ** Outcomes of a call *)

Inductive fault : Type :=
| NullAccess        (* access through a null pointer *)
| WildAccess        (* access through [&head] or a freed or unlinked entry *)
| OutOfBounds       (* [tid_to_entry] indexed outside [0, MAX_TID) *)
| SignedOverflow.

Inductive abort_reason : Type :=
| AssertionFailed
| FatalWaitpid.     (* fatal("Failed to waitpid()") *)

Inductive outcome (A : Type) : Type :=
| Ret (a : A)
| Abort (r : abort_reason)
| Undef (f : fault)
| Blocked           (* the wait backend never answers *)
| OutOfFuel.

Arguments Ret {A} a.
Arguments Abort {A} r.
Arguments Undef {A} f.
Arguments Blocked {A}.
Arguments OutOfFuel {A}.

Definition M (A : Type) : Type := world -> outcome (A * world).

Definition ret {A} (a : A) : M A := fun w => Ret (a, w).

Definition bind {A B} (m : M A) (k : A -> M B) : M B :=
  fun w =>
    match m w with
    | Ret (a, w') => k a w'
    | Abort r => Abort r
    | Undef f => Undef f
    | Blocked => Blocked
    | OutOfFuel => OutOfFuel
    end.

Declare Scope sched_scope.
Delimit Scope sched_scope with sched.
Notation "x <- c1 ;; c2" := (bind c1 (fun x => c2))
  (at level 20, c1 at level 99, c2 at level 200, right associativity)
  : sched_scope.
Notation "' pat <- c1 ;; c2" := (bind c1 (fun x => match x with pat => c2 end))
  (at level 20, pat pattern, c1 at level 99, c2 at level 200,
   right associativity) : sched_scope.
Notation "c1 ;; c2" := (bind c1 (fun _ => c2))
  (at level 100, c2 at level 200, right associativity) : sched_scope.
Local Open Scope sched_scope.

Definition undef {A} (f : fault) : M A := fun _ => Undef f.
Definition abort {A} (r : abort_reason) : M A := fun _ => Abort r.
Definition out_of_fuel {A} : M A := fun _ => OutOfFuel.
Definition gets {A} (f : world -> A) : M A := fun w => Ret (f w, w).
Definition modify (f : world -> world) : M unit := fun w => Ret (tt, f w).
Definition emit (e : event) : M unit :=
  modify (fun w => with_trace (trace w ++ [e]) w).

Definition assert (b : bool) : M unit :=
  if b then ret tt else abort AssertionFailed.

(** [x--] and [x++] on an [int]. *)
Definition int_pred (x : Z) : M Z :=
  if decide (x = INT_MIN) then undef SignedOverflow else ret (x - 1).
Definition int_succ (x : Z) : M Z :=
  if decide (x = INT_MAX) then undef SignedOverflow else ret (x + 1).

(** ** Memory *)

(** [&entry->ctx]. *)
Definition ctx_of (entry : eptr) : eptr := entry.

(** Reading [*ctx]. *)
Definition load (p : eptr) : M context :=
  fun w =>
    match p with
    | Null => Undef NullAccess
    | HeadPtr => Undef WildAccess
    | Entry a =>
        match heap w !! a with
        | Some c => Ret (c, w)
        | None => Undef WildAccess
        end
    end.

(** Writing one member of [*ctx]. *)
Definition store (p : eptr) (f : context -> context) : M unit :=
  c <- load p ;;
  match p with
  | Entry a => modify (fun w => with_heap (<[a := f c]> (heap w)) w)
  | _ => undef WildAccess
  end.

(** [sys_malloc_zero] returns the address of a new zero-filled entry. *)
Definition sys_malloc_zero : M addr :=
  fun w =>
    let a := fresh (dom (heap w)) in
    Ret (a, with_heap (<[a := zero_context]> (heap w)) w).

Definition sys_free (p : eptr) : M unit :=
  _ <- load p ;;
  match p with
  | Entry a => modify (fun w => with_heap (delete a (heap w)) w)
  | _ => undef WildAccess
  end.

(** ** The circular queue (sys/queue.h) *)

Definition CIRCLEQ_EMPTY : M bool :=
  gets (fun w => match tasklist w with [] => true | _ => false end).

Definition CIRCLEQ_FIRST : M eptr :=
  gets (fun w => match tasklist w with [] => HeadPtr | a :: _ => Entry a end).

Definition CIRCLEQ_INSERT_TAIL (entry : eptr) : M unit :=
  match entry with
  | Entry a => modify (fun w => with_tasklist (tasklist w ++ [a]) w)
  | Null => undef NullAccess
  | HeadPtr => undef WildAccess
  end.

(** The entry linked after [a], the first entry when [a] is the last one. *)
Fixpoint succ_in (first : addr) (l : list addr) (a : addr) : option addr :=
  match l with
  | [] => None
  | x :: l' =>
      if decide (x = a)
      then Some (match l' with [] => first | y :: _ => y end)
      else succ_in first l' a
  end.

Definition loop_next (l : list addr) (a : addr) : option addr :=
  match l with
  | [] => None
  | first :: _ => succ_in first l a
  end.

Fixpoint unlink (a : addr) (l : list addr) : option (list addr) :=
  match l with
  | [] => None
  | x :: l' =>
      if decide (x = a) then Some l'
      else match unlink a l' with
           | Some r => Some (x :: r)
           | None => None
           end
  end.

Definition CIRCLEQ_REMOVE (entry : eptr) : M unit :=
  fun w =>
    match entry with
    | Null => Undef NullAccess
    | HeadPtr => Undef WildAccess
    | Entry a =>
        match unlink a (tasklist w) with
        | Some l => Ret (tt, with_tasklist l w)
        | None => Undef WildAccess
        end
    end.

(** ** The wait backend and the other collaborators *)

(** The next answer of the backend to a non-blocking poll of task [t]. *)
Definition poll_answer (t : Z) : M (option Z) :=
  fun w =>
    match nonblock_script w with
    | [] => Blocked
    | answer :: rest =>
        Ret (answer, with_trace (trace w ++ [EvWaitpidNonblock t answer])
                       (with_nonblock_script rest w))
    end.

(** Modelled from the spec: [sys_waitpid_nonblock] is defined in share/sys.c;
    by the specification it is [poll_nonblocking(task_id) -> status option].
    A reported change is a non-zero return with the status stored through
    the pointer; otherwise it returns 0 and stores nothing. *)
Definition sys_waitpid_nonblock (t : Z) (status_of : eptr) : M Z :=
  answer <- poll_answer t ;;
  match answer with
  | Some st => store status_of (set_status st) ;; ret 1
  | None => ret 0
  end.

Definition sys_kill (t sig : Z) : M unit := emit (EvKill t sig).
Definition sys_ptrace_setup (t : Z) : M unit := emit (EvPtraceSetup t).
Definition sys_ptrace_detach (t : Z) : M unit := emit (EvPtraceDetach t).
Definition init_hpc (ctx : eptr) : M unit := emit (EvInitHpc ctx).
Definition start_hpc (ctx : eptr) (threshold : Z) : M unit :=
  emit (EvStartHpc ctx threshold).
Definition cleanup_hpc (ctx : eptr) : M unit := emit (EvCleanupHpc ctx).
Definition sys_close (fd : Z) : M unit := emit (EvSysClose fd).
Definition close (fd : Z) : M unit := emit (EvClose fd).

Definition is_null (p : eptr) : bool :=
  match p with Null => true | _ => false end.

Section Scheduler.

(** [MAX_TID] comes from a header outside the file; [child_mem_fd_of] stands
    for the descriptor [sys_open_child_mem] obtains for a task. *)
Variable MAX_TID : Z.
Variable child_mem_fd_of : Z -> Z.

(** [MAX_TID] is compared with a [pid_t], so it is an [int]. *)
Hypothesis MAX_TID_is_int : MAX_TID <= INT_MAX.

Definition sys_open_child_mem (t : Z) : M Z :=
  emit (EvOpenChildMem t (child_mem_fd_of t)) ;; ret (child_mem_fd_of t).

(** ** rec_sched.c *)

Definition get_entry (t : Z) : M eptr :=
  fun w =>
    if bool_decide (0 <= t < MAX_TID)
    then Ret (match tid_to_entry w !! t with
              | Some a => Entry a
              | None => Null
              end, w)
    else Undef OutOfBounds.

(** [tid_to_entry[t] = entry] for the entry at [a]. *)
Definition set_tid_to_entry (t : Z) (a : addr) : M unit :=
  fun w =>
    if bool_decide (0 <= t < MAX_TID)
    then Ret (tt, with_tid_to_entry (<[t := a]> (tid_to_entry w)) w)
    else Undef OutOfBounds.

(** [tid_to_entry[t] = NULL]. *)
Definition clear_tid_to_entry (t : Z) : M unit :=
  fun w =>
    if bool_decide (0 <= t < MAX_TID)
    then Ret (tt, with_tid_to_entry (delete t (tid_to_entry w)) w)
    else Undef OutOfBounds.

Definition get_task (t : Z) : M eptr :=
  entry <- get_entry t ;;
  ret (if is_null entry then Null else ctx_of entry).

Definition next_entry (elt : eptr) : M eptr :=
  fun w =>
    match elt with
    | Null => Undef NullAccess
    | HeadPtr => Undef WildAccess
    | Entry a =>
        match loop_next (tasklist w) a with
        | Some b => Ret (Entry b, w)
        | None => Undef WildAccess
        end
    end.

Definition note_switch (prev_ctx ctx : eptr) (max_ev : Z) : M unit :=
  if decide (prev_ctx = ctx) then
    c <- load ctx ;;
    v <- int_pred (switch_counter c) ;;
    store ctx (set_switch_counter v)
  else
    store ctx (set_switch_counter max_ev).

(** *** rec_sched_get_active_thread, block by block *)

(** [if (!entry) entry = current_entry = CIRCLEQ_FIRST(&head);] *)
Definition bootstrap_cursor : M eptr :=
  entry <- gets current_entry ;;
  if is_null entry then
    first <- CIRCLEQ_FIRST ;;
    modify (with_current_entry first) ;;
    ret first
  else ret entry.

(** [ctx && !ctx->switchable] *)
Definition unswitchable (ctx : eptr) : M bool :=
  if is_null ctx then ret false
  else c <- load ctx ;; ret (bool_decide (switchable c = 0)).

(** [if (ctx && ctx->switch_counter < 0) { ... }] *)
Definition prefer_next (ctx entry : eptr) (max_ev : Z) : M eptr :=
  exceeded <- (if is_null ctx then ret false
               else c <- load ctx ;; ret (bool_decide (switch_counter c < 0))) ;;
  if exceeded then
    entry' <- next_entry entry ;;
    modify (with_current_entry entry') ;;
    store ctx (set_switch_counter max_ev) ;;
    ret entry'
  else ret entry.

(** The [do ... while (entry != current_entry)] loop.  The result is
    [(next_ctx, entry, *by_waitpid)] on leaving the loop. *)
Fixpoint scan_ring (fuel : nat) (entry : eptr) : M (eptr * eptr * Z) :=
  match fuel with
  | O => out_of_fuel
  | S fuel' =>
      let next_ctx := ctx_of entry in
      c <- load next_ctx ;;
      let t := tid c in
      if negb (bool_decide (exec_state c = PROCESSING_SYSCALL)) then
        ret (next_ctx, entry, 0)
      else
        r <- sys_waitpid_nonblock t next_ctx ;;
        if negb (bool_decide (r = 0)) then
          ret (next_ctx, entry, 1)
        else
          entry' <- next_entry entry ;;
          cur <- gets current_entry ;;
          if decide (entry' = cur) then ret (Null, entry', 0)
          else scan_ring fuel' entry'
  end.

(** [while (-1 == (tid = waitpid(-1, &status, ...))) { ... }]: the loop
    consumes the script of answers, so it needs no fuel. *)
Fixpoint waitpid_retry (script : list wait_answer) (tr : list event)
  : outcome (Z * Z * list wait_answer * list event) :=
  match script with
  | [] => Blocked
  | answer :: rest =>
      let tr' := tr ++ [EvWaitpid answer] in
      if decide (wait_ret answer = -1) then
        if decide (wait_errno answer = EINTR) then waitpid_retry rest tr'
        else Abort FatalWaitpid
      else Ret (wait_ret answer, wait_status answer, rest, tr')
  end.

Definition wait_for_any : M (Z * Z) :=
  fun w =>
    match waitpid_retry (waitpid_script w) (trace w) with
    | Ret (t, st, rest, tr) =>
        Ret ((t, st), with_trace tr (with_waitpid_script rest w))
    | Abort r => Abort r
    | Undef f => Undef f
    | Blocked => Blocked
    | OutOfFuel => OutOfFuel
    end.

(** [if (!next_ctx) { ... }] *)
Definition wait_fallback (found : eptr * eptr * Z) : M (eptr * eptr * Z) :=
  let '(next_ctx, entry, by_waitpid) := found in
  if is_null next_ctx then
    '(t, st) <- wait_for_any ;;
    entry <- get_entry t ;;
    let next_ctx := ctx_of entry in
    store next_ctx (set_status st) ;;
    ret (next_ctx, entry, 1)
  else ret found.

(** The scan as the function runs it.  One revolution visits each entry
    once, so the loop gets one unit of fuel per entry (and one to spare). *)
Definition scan_once (entry : eptr) : M (eptr * eptr * Z) :=
  len <- gets (fun w => length (tasklist w)) ;;
  scan_ring (S len) entry.

(** The scan and the fallback. *)
Definition find_runnable (entry : eptr) : M (eptr * eptr * Z) :=
  found <- scan_once entry ;;
  wait_fallback found.

(** Everything between the short-circuit and the two statements that commit
    the choice. *)
Definition choose_next (ctx entry : eptr) (max_ev : Z)
  : M (eptr * eptr * Z) :=
  entry' <- prefer_next ctx entry max_ev ;;
  find_runnable entry'.

(** [current_entry = entry; note_switch(ctx, next_ctx, max_events);] *)
Definition commit (ctx : eptr) (max_ev : Z) (found : eptr * eptr * Z)
  : M (eptr * Z) :=
  let '(next_ctx, entry, by_waitpid) := found in
  modify (with_current_entry entry) ;;
  note_switch ctx next_ctx max_ev ;;
  ret (next_ctx, by_waitpid).

(** The result is the returned context together with [*by_waitpid]. *)
Definition rec_sched_get_active_thread (fl : flags) (ctx : eptr)
  : M (eptr * Z) :=
  let max_ev := max_events fl in
  entry <- bootstrap_cursor ;;
  stay <- unswitchable ctx ;;
  if stay then ret (ctx, 0)
  else
    found <- choose_next ctx entry max_ev ;;
    commit ctx max_ev found.

Definition rec_sched_get_num_threads : M Z := gets num_active_threads.

Definition rec_sched_register_thread (fl : flags) (parent child : Z)
  : M unit :=
  a <- sys_malloc_zero ;;
  let entry := Entry a in
  let ctx := ctx_of entry in
  assert (bool_decide (child > 0 /\ child < MAX_TID)) ;;
  store ctx (set_exec_state RUNNABLE) ;;
  store ctx (set_status 0) ;;
  store ctx (set_tid child) ;;
  store ctx (set_rec_tid child) ;;
  fd <- sys_open_child_mem child ;;
  store ctx (set_child_mem_fd fd) ;;
  (if decide (parent = 0) then ret tt
   else
     parent_ctx <- get_task parent ;;
     pc <- load parent_ctx ;;
     store ctx (set_syscallbuf_lib_start (syscallbuf_lib_start pc)) ;;
     pc <- load parent_ctx ;;
     store ctx (set_syscallbuf_lib_end (syscallbuf_lib_end pc))) ;;
  store ctx (set_desched_fd_child (-1)) ;;
  store ctx (set_desched_fd (-1)) ;;
  sys_ptrace_setup child ;;
  init_hpc ctx ;;
  start_hpc ctx (max_rbc fl) ;;
  CIRCLEQ_INSERT_TAIL entry ;;
  n <- gets num_active_threads ;;
  n' <- int_succ n ;;
  modify (with_num_active_threads n') ;;
  set_tid_to_entry child a.

(** [*ctx_ptr] is passed as [ctx]; the result is the value the function
    leaves in [*ctx_ptr]. *)
Definition rec_sched_deregister_thread (ctx : eptr) : M eptr :=
  c <- load ctx ;;
  let t := tid c in
  entry <- get_entry t ;;
  cur <- gets current_entry ;;
  (if decide (entry = cur) then
     nxt <- next_entry entry ;;
     modify (with_current_entry nxt) ;;
     if decide (entry = nxt) then
       n <- gets num_active_threads ;;
       assert (bool_decide (n = 1)) ;;
       modify (with_current_entry Null)
     else ret tt
   else ret tt) ;;
  CIRCLEQ_REMOVE entry ;;
  clear_tid_to_entry t ;;
  n <- gets num_active_threads ;;
  n' <- int_pred n ;;
  modify (with_num_active_threads n') ;;
  assert (bool_decide (n' >= 0)) ;;
  cleanup_hpc ctx ;;
  c1 <- load ctx ;;
  sys_close (child_mem_fd c1) ;;
  c2 <- load ctx ;;
  close (desched_fd c2) ;;
  sys_ptrace_detach t ;;
  sys_free entry ;;
  ret Null.

(** [while (!CIRCLEQ_EMPTY(&head)) { ... }] *)
Fixpoint exit_all_loop (fuel : nat) : M unit :=
  empty <- CIRCLEQ_EMPTY ;;
  if (empty : bool) then ret tt
  else
    match fuel with
    | O => out_of_fuel
    | S fuel' =>
        entry <- CIRCLEQ_FIRST ;;
        let ctx := ctx_of entry in
        c <- load ctx ;;
        sys_kill (tid c) SIGINT ;;
        _ <- rec_sched_deregister_thread ctx ;;
        exit_all_loop fuel'
    end.

Definition rec_sched_exit_all : M unit :=
  len <- gets (fun w => length (tasklist w)) ;;
  exit_all_loop len.

(** ** Well-formed scheduler states *)

(** What registration and deregistration maintain: the queue has no
    repetition, holds exactly the allocated entries, the index maps exactly
    the ids of the allocated entries to them, ids are within bounds, the
    counter is the queue length and the cursor is null or in the queue. *)
Record consistent (w : world) : Prop := mkConsistent {
  cons_nodup : NoDup (tasklist w);
  cons_heap : forall a, a ∈ tasklist w <-> is_Some (heap w !! a);
  cons_index : forall t a,
    tid_to_entry w !! t = Some a <->
    exists c, heap w !! a = Some c /\ tid c = t;
  cons_range : forall a c, heap w !! a = Some c -> 0 < tid c < MAX_TID;
  cons_size : size (tid_to_entry w) = length (tasklist w);
  cons_count : num_active_threads w = Z.of_nat (length (tasklist w));
  cons_cursor : current_entry w = Null \/
                exists a, current_entry w = Entry a /\ a ∈ tasklist w
}.

(** No two allocated records carry the same task id. *)
Definition unique_tids (w : world) : Prop :=
  forall a1 a2 c1 c2,
    heap w !! a1 = Some c1 -> heap w !! a2 = Some c2 ->
    tid c1 = tid c2 -> a1 = a2.

(** Queue length, number of filled index slots and the reported count
    coincide. *)
Definition counts_agree (w : world) : Prop :=
  exists n, rec_sched_get_num_threads w = Ret (n, w) /\
            Z.of_nat (length (tasklist w)) = n /\
            Z.of_nat (size (tid_to_entry w)) = n.

(** ** Sequences of lifecycle calls *)

(** The recorder deregisters a task through the context pointer it holds for
    it; [CallDeregister t] names the task by its id. *)
Inductive call : Type :=
| CallRegister (fl : flags) (parent child : Z)
| CallDeregister (t : Z).

Definition do_call (c : call) : M unit :=
  match c with
  | CallRegister fl parent child => rec_sched_register_thread fl parent child
  | CallDeregister t =>
      ctx <- get_task t ;;
      _ <- rec_sched_deregister_thread ctx ;;
      ret tt
  end.

Fixpoint do_calls (cs : list call) : M unit :=
  match cs with
  | [] => ret tt
  | c :: cs' => do_call c ;; do_calls cs'
  end.

(** Calls as the recorder issues them: a registered child id is within
    bounds and not in use, a parent is absent (0) or registered, and only
    registered tasks are deregistered.  [live] is the set of ids in use. *)
Fixpoint orderly (live : gset Z) (cs : list call) : bool :=
  match cs with
  | [] => true
  | CallRegister _ parent child :: cs' =>
      bool_decide (0 < child < MAX_TID) &&
      bool_decide (child ∉ live) &&
      bool_decide (parent = 0 \/ parent ∈ live) &&
      orderly (live ∪ {[child]}) cs'
  | CallDeregister t :: cs' =>
      bool_decide (t ∈ live) && orderly (live ∖ {[t]}) cs'
  end.

(** ** Repeated selection *)

(** [n] consecutive calls of [rec_sched_get_active_thread], each passing the
    context the previous call returned; the result lists the contexts
    returned. *)
Fixpoint repeat_select (fl : flags) (n : nat) (ctx : eptr) : M (list eptr) :=
  match n with
  | O => ret []
  | S n' =>
      '(chosen, _) <- rec_sched_get_active_thread fl ctx ;;
      rest <- repeat_select fl n' chosen ;;
      ret (chosen :: rest)
  end.

(** Every queued task is allocated, not inside a system call and
    switchable. *)
Definition all_ready (w : world) : Prop :=
  forall a, a ∈ tasklist w ->
    exists c, heap w !! a = Some c /\
              exec_state c <> PROCESSING_SYSCALL /\ switchable c <> 0.

(** Number of consecutive calls that return the same task before the
    scheduler moves on. *)
Definition turn_length (max_ev : Z) : nat := Z.to_nat (Z.max 1 (max_ev + 2)).

(** What [rec_sched_exit_all] asks of the outside world for the entry at
    [a]. *)
Definition teardown_events (w : world) (a : addr) : list event :=
  match heap w !! a with
  | Some c =>
      [EvKill (tid c) SIGINT; EvCleanupHpc (Entry a);
       EvSysClose (child_mem_fd c); EvClose (desched_fd c);
       EvPtraceDetach (tid c)]
  | None => []
  end.

(** Two states with the same queue, records, index, cursor and count. *)
Definition same_scheduler_state (w1 w2 : world) : Prop :=
  tasklist w1 = tasklist w2 /\ heap w1 = heap w2 /\
  tid_to_entry w1 = tid_to_entry w2 /\
  current_entry w1 = current_entry w2 /\
  num_active_threads w1 = num_active_threads w2.

(** ** The states the lifecycle calls lead to *)

(** The record of a freshly registered task whose syscallbuf bounds are
    [lib_start] and [lib_end]. *)
Definition new_context (child lib_start lib_end : Z) : context :=
  mkContext RUNNABLE 0 child child (child_mem_fd_of child)
    lib_start lib_end (-1) (-1) 0 0.

Definition registered (fl : flags) (child lib_start lib_end : Z) (w : world)
  : world :=
  let a := fresh (dom (heap w)) in
  mkWorld (tasklist w ++ [a])
    (<[a := new_context child lib_start lib_end]> (heap w))
    (<[child := a]> (tid_to_entry w))
    (current_entry w)
    (num_active_threads w + 1)
    (nonblock_script w) (waitpid_script w)
    (trace w ++ [EvOpenChildMem child (child_mem_fd_of child);
                 EvPtraceSetup child; EvInitHpc (Entry a);
                 EvStartHpc (Entry a) (max_rbc fl)]).

(** The state after deregistering the record [c] at [a], when [rest] is the
    queue without [a] and [nxt] the entry linked after [a]. *)
Definition deregistered (a : addr) (c : context) (rest : list addr)
    (nxt : addr) (w : world) : world :=
  mkWorld rest (delete a (heap w)) (delete (tid c) (tid_to_entry w))
    (if decide (current_entry w = Entry a)
     then (if decide (nxt = a) then Null else Entry nxt)
     else current_entry w)
    (num_active_threads w - 1)
    (nonblock_script w) (waitpid_script w)
    (trace w ++ [EvCleanupHpc (Entry a); EvSysClose (child_mem_fd c);
                 EvClose (desched_fd c); EvPtraceDetach (tid c)]).

(** ** Runs that only differ in the addresses of the entries *)

(** The pointer [p] with the address it holds renamed by [ren]. *)
Definition rename (ren : addr -> addr) (p : eptr) : eptr :=
  match p with
  | Entry a => Entry (ren a)
  | Null => Null
  | HeadPtr => HeadPtr
  end.

(** [w2] holds the scheduler state of [w1] at other addresses: the same
    records queued in the same order, the same index, the cursor on the
    same task and the same count, with the entry that [w1] has at [a]
    placed at [ren a].  Answers of the wait backend and the trace are no
    part of it. *)
Definition same_up_to_addresses (ren : addr -> addr) (w1 w2 : world) : Prop :=
  tasklist w2 = ren <$> tasklist w1 /\
  (forall a, heap w2 !! ren a = heap w1 !! a) /\
  (forall t, tid_to_entry w2 !! t = ren <$> tid_to_entry w1 !! t) /\
  current_entry w2 = rename ren (current_entry w1) /\
  num_active_threads w2 = num_active_threads w1.

(** [m2] reproduces [m1] at the renamed addresses.  A run of [m1] that
    returns [a1] after consuming the answers [p] of the polls and [q] of the
    blocking waits, and after asking [asked] of the outside world, is matched
    by [m2] from any state that holds the same scheduler state at the
    renamed addresses and to which the backend gives the answers [p] and
    [q]: [m2] returns [rho a1], asks the same, consumes the same and leaves
    the same scheduler state at the renamed addresses. *)
Definition reproduces {A} (ren : addr -> addr) (rho : A -> A) (m1 m2 : M A)
  : Prop :=
  forall w1 a1 w1', m1 w1 = Ret (a1, w1') ->
  exists p q asked,
    nonblock_script w1 = p ++ nonblock_script w1' /\
    waitpid_script w1 = q ++ waitpid_script w1' /\
    trace w1' = trace w1 ++ asked /\
    forall w2 r s,
      same_up_to_addresses ren w1 w2 ->
      nonblock_script w2 = p ++ r -> waitpid_script w2 = q ++ s ->
      exists w2',
        m2 w2 = Ret (rho a1, w2') /\
        same_up_to_addresses ren w1' w2' /\
        nonblock_script w2' = r /\ waitpid_script w2' = s /\
        trace w2' = trace w2 ++ asked.

(** The budget of every allocated record. *)
Definition budgets (w : world) : gmap addr Z := switch_counter <$> heap w.

(** The records with their budgets blanked: what a call may not change
    when it only does budget accounting. *)
Definition budgets_erased (h : gmap addr context) : gmap addr context :=
  set_switch_counter 0 <$> h.

(** The cursor once [bootstrap_cursor] has run. *)
Definition bootstrapped (w : world) : eptr :=
  if is_null (current_entry w)
  then match tasklist w with [] => HeadPtr | x :: _ => Entry x end
  else current_entry w.

(** ** Observations on registration, deregistration and selection *)

(** The calls that register the pairs (parent, child) of [regs] in order. *)
Definition register_calls (fl : flags) (regs : list (Z * Z)) : list call :=
  (fun pc => CallRegister fl pc.1 pc.2) <$> regs.

(** What [rec_sched_deregister_thread] asks of the outside world when it is
    passed the record [c] at [a]. *)
Definition release_events (a : addr) (c : context) : list event :=
  [EvCleanupHpc (Entry a); EvSysClose (child_mem_fd c);
   EvClose (desched_fd c); EvPtraceDetach (tid c)].

(** The entry at [a] is allocated and inside a system call. *)
Definition in_syscall (w : world) (a : addr) : Prop :=
  exists c, heap w !! a = Some c /\ exec_state c = PROCESSING_SYSCALL.

(** The poll of the entry at [a] that reports no change. *)
Definition idle_poll (w : world) (a : addr) : list event :=
  match heap w !! a with
  | Some c => [EvWaitpidNonblock (tid c) None]
  | None => []
  end.

(** The state once the entries [blocked] have been polled in vain and the
    answers [s] are left. *)
Definition polled_idle (blocked : list addr) (s : list (option Z)) (w : world)
  : world :=
  with_trace (trace w ++ flat_map (idle_poll w) blocked)
    (with_nonblock_script s w).

(** A supplied context that lets the scan start at the cursor: none, or a
    switchable one whose budget is not used up. *)
Definition within_budget (ctx : eptr) (w : world) : Prop :=
  ctx = Null \/
  exists a c, ctx = Entry a /\ heap w !! a = Some c /\
              switchable c <> 0 /\ 0 <= switch_counter c.


(** The budget [note_switch] leaves in the record [c] of the chosen task. *)
Definition noted_budget (fl : flags) (ctx chosen : eptr) (c : context) : Z :=
  if decide (ctx = chosen) then switch_counter c - 1 else max_events fl.

(** A record with the two members a selection may write blanked. *)
Definition selection_frame (c : context) : context :=
  set_status 0 (set_switch_counter 0 c).

(** The status of every allocated record. *)
Definition statuses (w : world) : gmap addr Z := status <$> heap w.

(** The computation [m] run in [w] has no undefined behaviour. *)
Definition defined {A} (m : M A) (w : world) : Prop :=
  forall f, m w <> Undef f.

(** Every answer the blocking wait can give is a failure or names a task
    that is registered. *)
Definition waits_name_registered (w : world) : Prop :=
  Forall (fun answer => wait_ret answer = -1 \/
                        is_Some (tid_to_entry w !! wait_ret answer))
    (waitpid_script w).

(** ** Sample states *)

Definition SAMPLE_MAX_TID : Z := 32768.
Definition sample_fd (t : Z) : Z := 100 + t.
Definition sample_flags : flags := mkFlags 10 1000.

(** The record registration leaves for task [t]. *)
Definition sample_task (t : Z) : context :=
  mkContext RUNNABLE 0 t t (sample_fd t) 0 0 (-1) (-1) 0 0.

Definition sample_setup (t : Z) (a : addr) : list event :=
  [EvOpenChildMem t (sample_fd t); EvPtraceSetup t; EvInitHpc (Entry a);
   EvStartHpc (Entry a) 1000].

(** A write of the recorder to the record at [a] between two calls. *)
Definition poke (a : addr) (f : context -> context) (w : world) : world :=
  with_heap (alter f a (heap w)) w.

(** Task 5 registered. *)
Definition one_task : world :=
  mkWorld [1%positive] {[1%positive := sample_task 5]} {[5 := 1%positive]}
    Null 1 [] [] (sample_setup 5 1).

(** Tasks 5 and 6 registered in this order. *)
Definition two_tasks : world :=
  mkWorld [1%positive; 2%positive]
    {[1%positive := sample_task 5; 2%positive := sample_task 6]}
    {[5 := 1%positive; 6 := 2%positive]}
    Null 2 [] [] (sample_setup 5 1 ++ sample_setup 6 2).

(** Tasks 5, 6 and 7 (A, B and C) registered in this order. *)
Definition three_tasks : world :=
  mkWorld [1%positive; 2%positive; 3%positive]
    {[1%positive := sample_task 5; 2%positive := sample_task 6;
      3%positive := sample_task 7]}
    {[5 := 1%positive; 6 := 2%positive; 7 := 3%positive]}
    Null 3 [] [] (sample_setup 5 1 ++ sample_setup 6 2 ++ sample_setup 7 3).

(** Task 5 registered a second time while it is still registered. *)
Definition twice_registered : world :=
  mkWorld [1%positive; 2%positive]
    {[1%positive := sample_task 5; 2%positive := sample_task 5]}
    {[5 := 2%positive]}
    Null 2 [] [] (sample_setup 5 1 ++ sample_setup 5 2).

(** A, B and C with A current, A's budget used up and A not switchable. *)
Definition a_exceeded_unswitchable : world :=
  poke 1 (set_switch_counter (-1)) (with_current_entry (Entry 1) three_tasks).

(** The same with A switchable. *)
Definition a_exceeded : world :=
  poke 1 (set_switchable 1) a_exceeded_unswitchable.

(** Tasks 5 and 6, both switchable and not inside a system call. *)
Definition two_ready : world :=
  poke 1 (set_switchable 1) (poke 2 (set_switchable 1) two_tasks).

(** A, B and C all inside a system call; the non-blocking polls report no
    change and the blocking wait then reports [t] with status [st]. *)
Definition all_blocked (t st : Z) : world :=
  with_nonblock_script [None; None; None]
    (with_waitpid_script [mkWait t st 0]
       (poke 1 (set_exec_state PROCESSING_SYSCALL)
          (poke 2 (set_exec_state PROCESSING_SYSCALL)
             (poke 3 (set_exec_state PROCESSING_SYSCALL) three_tasks)))).

(** A, B and C with the cursor on C; C and A are inside a system call, B is
    not; two polls report no change. *)
Definition blocked_then_ready : world :=
  with_nonblock_script [None; None]
    (with_current_entry (Entry 3)
       (poke 3 (set_exec_state PROCESSING_SYSCALL)
          (poke 1 (set_exec_state PROCESSING_SYSCALL) three_tasks))).

(** A, B and C inside a system call; the poll of A reports no change, the
    poll of B the status 1407. *)
Definition blocked_then_change : world :=
  with_nonblock_script [None; Some 1407; None] (all_blocked 6 0).

(** A, B and C inside a system call and no poll reporting a change; the
    blocking wait is interrupted once and then reports task 6 with the
    status 1407. *)
Definition interrupted_wait : world :=
  with_waitpid_script [mkWait (-1) 0 EINTR; mkWait 6 1407 0]
    (all_blocked 6 1407).


(** Task 5 alone, switchable, with its budget used up. *)
Definition lone_exceeded : world :=
  poke 1 (set_switchable 1) (poke 1 (set_switch_counter (-1)) one_task).

(** A, B and C, where the record of A carries syscallbuf bounds. *)
Definition parent_with_syscallbuf : world :=
  poke 1 (set_syscallbuf_lib_end 8192)
    (poke 1 (set_syscallbuf_lib_start 4096) three_tasks).

(** Task 5 registered twice and then deregistered through its first record:
    that record is still allocated and queued, the index is empty. *)
Definition orphaned_record : world :=
  mkWorld [1%positive] {[1%positive := sample_task 5]} ∅ Null 1 [] []
    (sample_setup 5 1 ++ sample_setup 5 2 ++
     release_events 1 (sample_task 5)).

(** The scheduler state of [all_blocked 6 1407] with its entries at the
    addresses 11, 12 and 13, another past, and more answers of the wait
    backend to come. *)
Definition all_blocked_elsewhere : world :=
  mkWorld [11%positive; 12%positive; 13%positive]
    {[11%positive := set_exec_state PROCESSING_SYSCALL (sample_task 5);
      12%positive := set_exec_state PROCESSING_SYSCALL (sample_task 6);
      13%positive := set_exec_state PROCESSING_SYSCALL (sample_task 7)]}
    {[5 := 11%positive; 6 := 12%positive; 7 := 13%positive]}
    Null 3 [None; None; None; Some 1] [mkWait 6 1407 0; mkWait 7 0 0] [].

(** ** Properties *)

Lemma bind_Ret {A B} (m : M A) (k : A -> M B) w a w1 :
  m w = Ret (a, w1) -> bind m k w = k a w1.
Proof. intros H. unfold bind. by rewrite H. Qed.

Lemma bind_Ret_inv {A B} (m : M A) (k : A -> M B) w r :
  bind m k w = Ret r -> exists a w1, m w = Ret (a, w1) /\ k a w1 = Ret r.
Proof.
  unfold bind. destruct (m w) as [[a w1]| | | |]; try discriminate.
  intros H. by exists a, w1.
Qed.

Lemma load_Entry w a c : heap w !! a = Some c -> load (Entry a) w = Ret (c, w).
Proof. intros H. unfold load. by rewrite H. Qed.

Lemma load_Ret_inv p w c w' :
  load p w = Ret (c, w') -> exists a, p = Entry a /\ heap w !! a = Some c /\ w' = w.
Proof.
  destruct p as [| |a]; simpl; try discriminate.
  destruct (heap w !! a) as [c0|] eqn:E; try discriminate.
  intros [= -> ->]. by exists a.
Qed.

Lemma store_Entry w a c f :
  heap w !! a = Some c ->
  store (Entry a) f w = Ret (tt, with_heap (<[a := f c]> (heap w)) w).
Proof. intros H. unfold store. by rewrite (bind_Ret _ _ _ _ _ (load_Entry _ _ _ H)). Qed.

Lemma bind_load {B} (k : context -> M B) w a c :
  heap w !! a = Some c -> bind (load (Entry a)) k w = k c w.
Proof. intros H. by rewrite (bind_Ret _ _ _ _ _ (load_Entry _ _ _ H)). Qed.

Lemma bind_store {B} (k : unit -> M B) w a c f :
  heap w !! a = Some c ->
  bind (store (Entry a) f) k w =
  k tt (with_heap (<[a := f c]> (heap w)) w).
Proof. intros H. by rewrite (bind_Ret _ _ _ _ _ (store_Entry _ _ _ f H)). Qed.

Lemma bind_assoc {A B C} (m : M A) (k1 : A -> M B) (k2 : B -> M C) w :
  bind (bind m k1) k2 w = bind m (fun a => bind (k1 a) k2) w.
Proof. unfold bind. by destruct (m w) as [[a w1]| | | |]. Qed.

Lemma get_entry_in_range t w :
  0 <= t < MAX_TID ->
  get_entry t w =
  Ret (match tid_to_entry w !! t with Some a => Entry a | None => Null end, w).
Proof. intros H. unfold get_entry. by rewrite bool_decide_eq_true_2. Qed.

Lemma bind_ret_l {A B} (a : A) (k : A -> M B) w : bind (ret a) k w = k a w.
Proof. done. Qed.

Lemma bind_gets {A B} (f : world -> A) (k : A -> M B) w :
  bind (gets f) k w = k (f w) w.
Proof. done. Qed.

Lemma bind_modify {B} (f : world -> world) (k : unit -> M B) w :
  bind (modify f) k w = k tt (f w).
Proof. done. Qed.

Lemma bind_emit {B} (e : event) (k : unit -> M B) w :
  bind (emit e) k w = k tt (with_trace (trace w ++ [e]) w).
Proof. done. Qed.

Lemma bind_int_succ {B} (x : Z) (k : Z -> M B) w :
  x <> INT_MAX -> bind (int_succ x) k w = k (x + 1) w.
Proof. intros H. unfold int_succ. by destruct (decide (x = INT_MAX)). Qed.

Lemma bind_int_pred {B} (x : Z) (k : Z -> M B) w :
  x <> INT_MIN -> bind (int_pred x) k w = k (x - 1) w.
Proof. intros H. unfold int_pred. by destruct (decide (x = INT_MIN)). Qed.

Lemma bind_assert {B} (P : Prop) `{Decision P} (k : unit -> M B) w :
  P -> bind (assert (bool_decide P)) k w = k tt w.
Proof. intros H0. unfold assert. by rewrite bool_decide_eq_true_2. Qed.

Lemma bind_get_entry {B} (t : Z) (k : eptr -> M B) w :
  0 <= t < MAX_TID ->
  bind (get_entry t) k w =
  k (match tid_to_entry w !! t with Some a => Entry a | None => Null end) w.
Proof. intros H. by rewrite (bind_Ret _ _ _ _ _ (get_entry_in_range _ _ H)). Qed.

Lemma bind_set_tid_to_entry {B} (t : Z) (a : addr) (k : unit -> M B) w :
  0 <= t < MAX_TID ->
  bind (set_tid_to_entry t a) k w =
  k tt (with_tid_to_entry (<[t := a]> (tid_to_entry w)) w).
Proof. intros H. unfold bind, set_tid_to_entry. by rewrite bool_decide_eq_true_2. Qed.

Lemma bind_clear_tid_to_entry {B} (t : Z) (k : unit -> M B) w :
  0 <= t < MAX_TID ->
  bind (clear_tid_to_entry t) k w =
  k tt (with_tid_to_entry (delete t (tid_to_entry w)) w).
Proof. intros H. unfold bind, clear_tid_to_entry. by rewrite bool_decide_eq_true_2. Qed.

Lemma bind_next_entry {B} (a b : addr) (k : eptr -> M B) w :
  loop_next (tasklist w) a = Some b ->
  bind (next_entry (Entry a)) k w = k (Entry b) w.
Proof. intros H. unfold bind, next_entry. by rewrite H. Qed.

Lemma bind_ret_r {A} (m : M A) w : bind m ret w = m w.
Proof. unfold bind, ret. by destruct (m w) as [[a w1]| | | |]. Qed.

Lemma world_eq w1 w2 :
  tasklist w1 = tasklist w2 -> heap w1 = heap w2 ->
  tid_to_entry w1 = tid_to_entry w2 -> current_entry w1 = current_entry w2 ->
  num_active_threads w1 = num_active_threads w2 ->
  nonblock_script w1 = nonblock_script w2 ->
  waitpid_script w1 = waitpid_script w2 -> trace w1 = trace w2 ->
  w1 = w2.
Proof. destruct w1, w2; simpl; by intros -> -> -> -> -> -> -> ->. Qed.

(** Reduction of the projections of an updated state. *)
Ltac wsimpl :=
  cbv beta; unfold ctx_of;
  cbn [tasklist heap tid_to_entry current_entry num_active_threads
       nonblock_script waitpid_script trace
       with_tasklist with_heap with_tid_to_entry with_current_entry
       with_num_active_threads with_nonblock_script with_waitpid_script
       with_trace is_null fst snd].

Ltac int_lia := unfold INT_MIN, INT_MAX in *; lia.

(** One step of a call: the next action is a return, a state access, an
    event, or a read or a write of a record known to be allocated. *)
Ltac mstep :=
  first
    [ rewrite bind_assoc
    | rewrite bind_ret_l
    | rewrite bind_gets
    | rewrite bind_modify
    | rewrite bind_emit
    | rewrite bind_int_succ by (wsimpl; first [assumption | int_lia])
    | rewrite bind_int_pred by (wsimpl; first [assumption | int_lia])
    | rewrite bind_assert by (wsimpl; first [assumption | int_lia])
    | rewrite bind_get_entry by (wsimpl; first [assumption | lia])
    | rewrite bind_set_tid_to_entry by (wsimpl; first [assumption | lia])
    | rewrite bind_clear_tid_to_entry by (wsimpl; first [assumption | lia])
    | erewrite bind_next_entry by (wsimpl; eassumption)
    | erewrite bind_store
        by (wsimpl; first [eassumption | apply lookup_insert_eq
                          | rewrite lookup_insert_ne by done; eassumption])
    | erewrite bind_load
        by (wsimpl; first [eassumption | apply lookup_insert_eq
                          | rewrite lookup_insert_ne by done; eassumption]) ];
  wsimpl; rewrite ?insert_insert_eq.

Ltac msteps := wsimpl; repeat mstep.

(** Projections of an updated record. *)
Ltac ctx_simpl :=
  cbn [set_exec_state set_status set_rec_tid set_tid set_child_mem_fd
       set_syscallbuf_lib_start set_syscallbuf_lib_end set_desched_fd
       set_desched_fd_child set_switchable set_switch_counter
       exec_state status rec_tid tid child_mem_fd syscallbuf_lib_start
       syscallbuf_lib_end desched_fd desched_fd_child switchable
       switch_counter].

(** Closes a goal stating which state a completed call returns. *)
Ltac finish_world :=
  unfold ret;
  first [ reflexivity
        | do 2 f_equal; apply world_eq; wsimpl; rewrite <- ?app_assoc; done ].

Ltac cnorm :=
  cbv beta iota delta
    [set_exec_state set_status set_rec_tid set_tid set_child_mem_fd
     set_syscallbuf_lib_start set_syscallbuf_lib_end set_desched_fd
     set_desched_fd_child set_switchable set_switch_counter zero_context
     exec_state status rec_tid tid child_mem_fd syscallbuf_lib_start
     syscallbuf_lib_end desched_fd desched_fd_child switchable
     switch_counter].

Lemma register_steps fl parent child w k :
  0 < child < MAX_TID ->
  num_active_threads w <> INT_MAX ->
  (parent = 0 /\ k = (0, 0) \/
   parent <> 0 /\ 0 <= parent < MAX_TID /\
   exists pa pc, tid_to_entry w !! parent = Some pa /\
                 heap w !! pa = Some pc /\
                 k = (syscallbuf_lib_start pc, syscallbuf_lib_end pc)) ->
  rec_sched_register_thread fl parent child w =
  Ret (tt, registered fl child k.1 k.2 w).
Proof.
  intros Hchild Hcount Hparent.
  assert (Hfresh : heap w !! fresh (dom (heap w)) = None).
  { apply not_elem_of_dom, is_fresh. }
  unfold rec_sched_register_thread.
  unfold sys_malloc_zero at 1. unfold bind at 1. wsimpl.
  unfold sys_open_child_mem, sys_ptrace_setup, init_hpc, start_hpc,
    CIRCLEQ_INSERT_TAIL.
  msteps.
  destruct Hparent as [[-> ->] | (Hp & Hr & pa & pc & Hi & Hpc & ->)].
  - destruct (decide (0 = 0)); [|done]. msteps.
    rewrite <- (bind_ret_r (set_tid_to_entry _ _)). mstep.
    unfold registered, new_context, ret. do 2 f_equal.
    apply world_eq; wsimpl; cnorm; rewrite <- ?app_assoc; done.
  - destruct (decide (parent = 0)); [done|].
    assert (Hne : fresh (dom (heap w)) <> pa).
    { intros <-. by rewrite Hfresh in Hpc. }
    unfold get_task. msteps. rewrite Hi. msteps.
    rewrite <- (bind_ret_r (set_tid_to_entry _ _)). mstep.
    unfold registered, new_context, ret. do 2 f_equal.
    apply world_eq; wsimpl; cnorm; rewrite <- ?app_assoc; done.
Qed.

Lemma deregister_steps a c rest nxt w :
  heap w !! a = Some c ->
  0 <= tid c < MAX_TID ->
  tid_to_entry w !! tid c = Some a ->
  unlink a (tasklist w) = Some rest ->
  loop_next (tasklist w) a = Some nxt ->
  1 <= num_active_threads w ->
  (current_entry w = Entry a -> nxt = a -> num_active_threads w = 1) ->
  rec_sched_deregister_thread (Entry a) w =
  Ret (Null, deregistered a c rest nxt w).
Proof.
  intros Hc Hr Hi Hun Hnx Hcnt Hone.
  unfold rec_sched_deregister_thread.
  msteps. rewrite Hi.
  assert (Hrest : forall (k : unit -> M eptr) w0,
    tasklist w0 = tasklist w ->
    bind (CIRCLEQ_REMOVE (Entry a)) k w0 = k tt (with_tasklist rest w0)).
  { intros k w0 Hw0. unfold bind, CIRCLEQ_REMOVE. by rewrite Hw0, Hun. }
  assert (Hfree : forall w0, heap w0 = heap w ->
    bind (sys_free (Entry a)) (fun _ => ret Null) w0 =
    Ret (Null, with_heap (delete a (heap w0)) w0)).
  { intros w0 Hw0. unfold sys_free. msteps.
    erewrite bind_load by (rewrite Hw0; eassumption). by msteps. }
  unfold cleanup_hpc, sys_close, close, sys_ptrace_detach.
  destruct (decide (Entry a = current_entry w)) as [Hcur|Hcur].
  - msteps.
    destruct (decide (Entry a = Entry nxt)) as [Hsame|Hdiff].
    + assert (nxt = a) as -> by congruence.
      msteps. rewrite bind_assert by auto. msteps.
      rewrite Hrest by done. msteps.
      rewrite Hfree by done.
      unfold deregistered. do 2 f_equal.
      apply world_eq; wsimpl; rewrite <- ?app_assoc; try done.
      rewrite decide_True by done. by rewrite decide_True.
    + msteps. rewrite Hrest by done. msteps.
      rewrite Hfree by done.
      unfold deregistered. do 2 f_equal.
      apply world_eq; wsimpl; rewrite <- ?app_assoc; try done.
      rewrite decide_True by done. rewrite decide_False; [done|congruence].
  - msteps. rewrite Hrest by done. msteps.
    rewrite Hfree by done.
    unfold deregistered. do 2 f_equal.
    apply world_eq; wsimpl; rewrite <- ?app_assoc; try done.
    by rewrite decide_False.
Qed.

(** *** The queue as a list *)

Lemma unlink_Permutation a l r : unlink a l = Some r -> l ≡ₚ a :: r.
Proof.
  revert r. induction l as [|x l IH]; intros r; simpl; [done|].
  destruct (decide (x = a)) as [->|Hne].
  - by intros [= ->].
  - destruct (unlink a l) as [r'|]; [|done]. intros [= <-].
    rewrite (IH r' eq_refl). apply Permutation_swap.
Qed.

Lemma unlink_elem a l : a ∈ l -> is_Some (unlink a l).
Proof.
  induction l as [|x l IH]; simpl.
  - by intros ?%elem_of_nil.
  - intros Hin. destruct (decide (x = a)); [by eexists|].
    apply elem_of_cons in Hin as [->|Hin]; [done|].
    destruct (IH Hin) as [r ->]. by eexists.
Qed.

Lemma unlink_NoDup a l r :
  NoDup l -> unlink a l = Some r ->
  NoDup r /\ (a ∉ r) /\ (forall x, x ∈ l <-> x = a \/ x ∈ r) /\
  length l = S (length r).
Proof.
  intros Hnd Hun. pose proof (unlink_Permutation _ _ _ Hun) as Hp.
  rewrite Hp in Hnd. apply NoDup_cons in Hnd as [Hnot Hnd].
  repeat split; try done.
  - rewrite Hp. by intros ?%elem_of_cons.
  - rewrite Hp. intros H. by apply elem_of_cons.
  - by rewrite Hp.
Qed.

Lemma succ_in_elem first l a :
  a ∈ l ->
  exists n, succ_in first l a = Some n /\ (n = first \/ n ∈ l).
Proof.
  intros Hin. induction l as [|x l IH]; simpl.
  - by apply elem_of_nil in Hin.
  - destruct (decide (x = a)) as [->|Hne].
    + destruct l as [|y l]; eexists; split; try done.
      * by left.
      * right. apply elem_of_cons. right. apply elem_of_cons. by left.
    + apply elem_of_cons in Hin as [->|Hin]; [done|].
      destruct (IH Hin) as (n & -> & Hn). exists n. split; [done|].
      destruct Hn as [->|Hn]; [by left|]. right. by apply elem_of_cons; right.
Qed.

Lemma loop_next_elem l a :
  a ∈ l -> exists n, loop_next l a = Some n /\ n ∈ l.
Proof.
  intros Hin. destruct l as [|f l]; [by apply elem_of_nil in Hin|].
  unfold loop_next.
  destruct (succ_in_elem f (f :: l) a Hin) as (n & Hn & Hmem).
  exists n. split; [done|]. destruct Hmem as [->|?]; [|done].
  apply elem_of_cons. by left.
Qed.

Lemma succ_in_app first pre a post :
  a ∉ pre ->
  succ_in first (pre ++ a :: post) a =
  Some (match post with [] => first | y :: _ => y end).
Proof.
  intros Hnot. induction pre as [|x pre IH]; simpl.
  - by rewrite decide_True.
  - rewrite decide_False.
    + apply IH. intros H. apply Hnot. by apply elem_of_cons; right.
    + intros ->. apply Hnot. by apply elem_of_cons; left.
Qed.

Lemma loop_next_middle pre a b post :
  a ∉ pre -> loop_next (pre ++ a :: b :: post) a = Some b.
Proof.
  intros Hnot. unfold loop_next.
  destruct (pre ++ a :: b :: post) as [|f l] eqn:E.
  - by destruct pre.
  - rewrite <- E. by rewrite succ_in_app.
Qed.

Lemma loop_next_last f pre a :
  a ∉ f :: pre -> loop_next (f :: pre ++ [a]) a = Some f.
Proof.
  intros Hnot. unfold loop_next.
  change (f :: pre ++ [a]) with ((f :: pre) ++ [a]).
  by rewrite succ_in_app.
Qed.

Lemma loop_next_single a : loop_next [a] a = Some a.
Proof. simpl. by rewrite decide_True. Qed.

Lemma loop_next_self l a :
  NoDup l -> loop_next l a = Some a -> l = [a].
Proof.
  intros Hnd Hnx.
  assert (Hin : a ∈ l).
  { destruct l as [|f l]; [done|]. unfold loop_next in Hnx.
    clear Hnd. revert Hnx. generalize f at 1. intros g.
    induction (f :: l) as [|x l' IH]; simpl; [done|].
    destruct (decide (x = a)) as [->|]; [intros _; by apply elem_of_cons; left|].
    intros H. apply elem_of_cons; right. by apply IH. }
  apply list_elem_of_split in Hin as (pre & post & ->).
  apply NoDup_app in Hnd as (Hpre & Hdisj & Hpost).
  apply NoDup_cons in Hpost as [Hnotpost Hpost].
  assert (Hnotpre : a ∉ pre).
  { intros H. apply (Hdisj a H). by apply elem_of_cons; left. }
  destruct post as [|b post].
  - destruct pre as [|f pre]; [done|].
    simpl in Hnx. rewrite decide_False in Hnx.
    + change (succ_in f (pre ++ [a]) a = Some a) in Hnx.
      rewrite succ_in_app in Hnx.
      * injection Hnx as ->. exfalso. apply Hnotpre. by apply elem_of_cons; left.
      * intros H. apply Hnotpre. by apply elem_of_cons; right.
    + intros ->. apply Hnotpre. by apply elem_of_cons; left.
  - rewrite loop_next_middle in Hnx by done. injection Hnx as ->.
    exfalso. apply Hnotpost. by apply elem_of_cons; left.
Qed.

(** *** Registration and deregistration keep the state well formed *)

Lemma consistent_index_range w t a :
  consistent w -> tid_to_entry w !! t = Some a -> 0 < t < MAX_TID.
Proof.
  intros Hc Hi. apply (cons_index _ Hc) in Hi as (c & Hh & <-).
  by apply (cons_range _ Hc) in Hh.
Qed.

Lemma consistent_index_bound w child :
  consistent w -> 0 < child < MAX_TID ->
  tid_to_entry w !! child = None ->
  Z.of_nat (size (tid_to_entry w)) < MAX_TID - 1.
Proof.
  intros Hc Hchild Hnone.
  set (ids := list_to_set (seqZ 1 (MAX_TID - 1)) : gset Z).
  assert (Hsub : dom (tid_to_entry w) ⊂ ids).
  { apply (strict_spec_alt _ _). split.
    - intros t [a Ha]%elem_of_dom.
      apply (consistent_index_range _ _ _ Hc) in Ha.
      apply elem_of_list_to_set, elem_of_seqZ. lia.
    - intros Heq. apply not_elem_of_dom in Hnone. apply Hnone. rewrite Heq.
      apply elem_of_list_to_set, elem_of_seqZ. lia. }
  apply subset_size in Hsub. rewrite size_dom in Hsub.
  unfold ids in Hsub. rewrite size_list_to_set in Hsub by apply NoDup_seqZ.
  rewrite length_seqZ in Hsub. lia.
Qed.

Lemma registered_consistent fl child ls le w :
  consistent w -> 0 < child < MAX_TID ->
  tid_to_entry w !! child = None ->
  consistent (registered fl child ls le w).
Proof.
  intros Hc Hchild Hnone.
  assert (Hfresh : heap w !! fresh (dom (heap w)) = None).
  { apply not_elem_of_dom, is_fresh. }
  set (a := fresh (dom (heap w))) in *.
  assert (Hnotin : a ∉ tasklist w).
  { intros H. apply (cons_heap _ Hc) in H as [c H]. congruence. }
  unfold registered. fold a.
  constructor; cbn [tasklist heap tid_to_entry current_entry num_active_threads].
  - apply NoDup_app. repeat split.
    + apply Hc.
    + intros x Hx ->%list_elem_of_singleton. done.
    + apply NoDup_singleton.
  - intros x. rewrite elem_of_app, list_elem_of_singleton, lookup_insert_is_Some.
    rewrite (cons_heap _ Hc). split.
    + intros [H| ->]; [|by left]. right. split; [|done].
      intros <-. destruct H as [c H]. congruence.
    + intros [->|[_ H]]; [by right|by left].
  - intros t b. split.
    + destruct (decide (t = child)) as [->|Hne].
      * rewrite lookup_insert_eq. intros [= <-].
        eexists. by rewrite lookup_insert_eq.
      * rewrite lookup_insert_ne by done. intros Hi.
        apply (cons_index _ Hc) in Hi as (c & Hh & Ht).
        exists c. split; [|done]. rewrite lookup_insert_ne; [done|].
        intros <-. congruence.
    + intros (c & Hh & Ht).
      destruct (decide (b = a)) as [->|Hne].
      * rewrite lookup_insert_eq in Hh. injection Hh as <-. simpl in Ht.
        subst t. by rewrite lookup_insert_eq.
      * rewrite lookup_insert_ne in Hh by done.
        assert (Hi : tid_to_entry w !! t = Some b).
        { apply (cons_index _ Hc). by exists c. }
        rewrite lookup_insert_ne; [done|]. intros <-. congruence.
  - intros b c. destruct (decide (b = a)) as [->|Hne].
    + rewrite lookup_insert_eq. by intros [= <-].
    + rewrite lookup_insert_ne by done. apply Hc.
  - rewrite map_size_insert_None by done. rewrite length_app. simpl.
    rewrite (cons_size _ Hc). lia.
  - rewrite length_app. simpl. rewrite (cons_count _ Hc). lia.
  - destruct (cons_cursor _ Hc) as [H|(b & H & Hb)]; [by left|].
    right. exists b. split; [done|]. apply elem_of_app. by left.
Qed.

Lemma deregistered_consistent a c rest nxt w :
  consistent w -> heap w !! a = Some c ->
  unlink a (tasklist w) = Some rest ->
  loop_next (tasklist w) a = Some nxt ->
  consistent (deregistered a c rest nxt w).
Proof.
  intros Hc Hh Hun Hnx.
  destruct (unlink_NoDup _ _ _ (cons_nodup _ Hc) Hun)
    as (Hnd & Hnot & Hmem & Hlen).
  assert (Hi : tid_to_entry w !! tid c = Some a).
  { apply (cons_index _ Hc). by exists c. }
  unfold deregistered.
  constructor; cbn [tasklist heap tid_to_entry current_entry num_active_threads].
  - done.
  - intros x. rewrite lookup_delete_is_Some, <- (cons_heap _ Hc), Hmem.
    split.
    + intros H. split; [by intros <-|by right].
    + intros [Hne [->|H]]; done.
  - intros t b. split.
    + intros Hd. apply lookup_delete_Some in Hd as [Hne Hd].
      apply (cons_index _ Hc) in Hd as (c' & Hc' & Ht).
      exists c'. split; [|done]. rewrite lookup_delete_ne; [done|].
      intros <-. congruence.
    + intros (c' & Hc' & Ht). apply lookup_delete_Some in Hc' as [Hne Hc'].
      apply lookup_delete_Some. split.
      * intros Heq. apply Hne.
        assert (tid_to_entry w !! t = Some b) as Hb.
        { apply (cons_index _ Hc). by exists c'. }
        congruence.
      * apply (cons_index _ Hc). by exists c'.
  - intros b c' Hd. apply lookup_delete_Some in Hd as [_ Hd].
    by apply (cons_range _ Hc) in Hd.
  - rewrite map_size_delete_Some by done. rewrite (cons_size _ Hc). lia.
  - rewrite (cons_count _ Hc). lia.
  - destruct (decide (current_entry w = Entry a)) as [Hcur|Hcur].
    + destruct (decide (nxt = a)) as [->|Hne]; [by left|].
      right. exists nxt. split; [done|].
      assert (Hin : a ∈ tasklist w) by (apply Hmem; by left).
      destruct (loop_next_elem _ _ Hin) as (n & Hn & Hnin).
      assert (n = nxt) as -> by congruence.
      apply Hmem in Hnin as [->|?]; done.
    + destruct (cons_cursor _ Hc) as [H|(b & H & Hb)]; [by left|].
      right. exists b. split; [done|].
      apply Hmem in Hb as [->|?]; [|done]. congruence.
Qed.

Lemma register_consistent_run fl parent child w :
  consistent w -> 0 < child < MAX_TID ->
  tid_to_entry w !! child = None ->
  parent = 0 \/ is_Some (tid_to_entry w !! parent) ->
  exists ls le,
    rec_sched_register_thread fl parent child w =
      Ret (tt, registered fl child ls le w) /\
    consistent (registered fl child ls le w).
Proof.
  intros Hc Hchild Hnone Hparent.
  assert (Hcount : num_active_threads w <> INT_MAX).
  { pose proof (consistent_index_bound _ _ Hc Hchild Hnone) as Hb.
    rewrite (cons_count _ Hc), <- (cons_size _ Hc). lia. }
  destruct Hparent as [->|[pa Hpa]].
  - exists 0, 0. split; [|by apply registered_consistent].
    by apply (register_steps fl 0 child w (0, 0)); [..|left].
  - destruct (decide (parent = 0)) as [->|Hp0].
    { apply (consistent_index_range _ _ _ Hc) in Hpa. lia. }
    pose proof (consistent_index_range _ _ _ Hc Hpa) as Hr.
    pose proof Hpa as Hpa'.
    apply (cons_index _ Hc) in Hpa' as (pc & Hpc & _).
    exists (syscallbuf_lib_start pc), (syscallbuf_lib_end pc).
    split; [|by apply registered_consistent].
    apply (register_steps fl parent child w
             (syscallbuf_lib_start pc, syscallbuf_lib_end pc)); [done..|].
    right. repeat split; [done|lia|lia|]. by exists pa, pc.
Qed.

Lemma deregister_consistent_run a c w :
  consistent w -> heap w !! a = Some c ->
  exists rest nxt,
    unlink a (tasklist w) = Some rest /\
    loop_next (tasklist w) a = Some nxt /\
    rec_sched_deregister_thread (Entry a) w =
      Ret (Null, deregistered a c rest nxt w) /\
    consistent (deregistered a c rest nxt w).
Proof.
  intros Hc Hh.
  assert (Hin : a ∈ tasklist w) by (apply (cons_heap _ Hc); by eexists).
  destruct (unlink_elem _ _ Hin) as [rest Hun].
  destruct (loop_next_elem _ _ Hin) as (nxt & Hnx & _).
  exists rest, nxt.
  split; [done|]. split; [done|].
  split; [|by apply deregistered_consistent].
  pose proof (cons_range _ Hc _ _ Hh) as Hr.
  destruct (unlink_NoDup _ _ _ (cons_nodup _ Hc) Hun) as (_ & _ & _ & Hlen).
  apply deregister_steps; try done.
  - lia.
  - apply (cons_index _ Hc). by exists c.
  - rewrite (cons_count _ Hc). lia.
  - intros _ ->. rewrite (cons_count _ Hc).
    by rewrite (loop_next_self _ _ (cons_nodup _ Hc) Hnx).
Qed.

Lemma consistent_unique_tids w : consistent w -> unique_tids w.
Proof.
  intros Hc a1 a2 c1 c2 H1 H2 Ht.
  assert (tid_to_entry w !! tid c1 = Some a1) as E1
    by (apply (cons_index _ Hc); by exists c1).
  assert (tid_to_entry w !! tid c1 = Some a2) as E2
    by (apply (cons_index _ Hc); by exists c2).
  congruence.
Qed.

Lemma consistent_counts_agree w : consistent w -> counts_agree w.
Proof.
  intros Hc. exists (num_active_threads w). repeat split.
  - by rewrite (cons_count _ Hc).
  - by rewrite (cons_size _ Hc), (cons_count _ Hc).
Qed.

Lemma initial_world_consistent polls waits :
  consistent (initial_world polls waits).
Proof.
  constructor; cbn [initial_world tasklist heap tid_to_entry current_entry
                    num_active_threads].
  - apply NoDup_nil_2.
  - intros a. rewrite lookup_empty. split; [by intros ?%elem_of_nil|].
    by intros [? ?].
  - intros t a. rewrite lookup_empty. split; [done|].
    intros (c & H & _). by rewrite lookup_empty in H.
  - intros a c. by rewrite lookup_empty.
  - done.
  - done.
  - by left.
Qed.

Lemma orderly_app live cs1 cs2 :
  orderly live (cs1 ++ cs2) = true -> orderly live cs1 = true.
Proof.
  revert live. induction cs1 as [|[fl p ch|t] cs1 IH]; intros live; simpl;
    [done|..].
  - rewrite !andb_true_iff. intros [H1 H2]. split; [done|]. by eapply IH.
  - rewrite !andb_true_iff. intros [H1 H2]. split; [done|]. by eapply IH.
Qed.

Lemma do_calls_consistent cs w :
  consistent w -> orderly (dom (tid_to_entry w)) cs = true ->
  exists w', do_calls cs w = Ret (tt, w') /\ consistent w'.
Proof.
  revert w. induction cs as [|[fl p ch|t] cs IH]; intros w Hc; simpl.
  - intros _. by exists w.
  - rewrite !andb_true_iff, !bool_decide_eq_true.
    intros [[[Hch Hnew] Hpar] Hrest].
    apply not_elem_of_dom in Hnew.
    assert (Hpar' : p = 0 \/ is_Some (tid_to_entry w !! p)).
    { destruct Hpar as [->|Hp]; [by left|right]. by apply elem_of_dom. }
    destruct (register_consistent_run fl p ch w Hc Hch Hnew Hpar')
      as (ls & le & Hrun & Hc').
    destruct (IH (registered fl ch ls le w) Hc') as (w' & Hw' & Hcw').
    { unfold registered at 1. cbn [tid_to_entry].
      rewrite dom_insert_L. by rewrite (union_comm_L {[ch]}). }
    exists w'. split; [|done]. by rewrite (bind_Ret _ _ _ _ _ Hrun).
  - rewrite !andb_true_iff, !bool_decide_eq_true. intros [Hlive Hrest].
    apply elem_of_dom in Hlive as [a Ha].
    pose proof (consistent_index_range _ _ _ Hc Ha) as Hr.
    pose proof Ha as Ha'. apply (cons_index _ Hc) in Ha' as (c & Hh & Ht).
    destruct (deregister_consistent_run a c w Hc Hh)
      as (rest & nxt & Hun & Hnx & Hrun & Hc').
    destruct (IH (deregistered a c rest nxt w) Hc') as (w' & Hw' & Hcw').
    { unfold deregistered at 1. cbn [tid_to_entry].
      rewrite dom_delete_L. by rewrite Ht. }
    exists w'. split; [|done].
    unfold get_task. msteps. rewrite Ha. msteps.
    by rewrite (bind_Ret _ _ _ _ _ Hrun).
Qed.

Lemma calls_consistent cs polls waits w :
  orderly ∅ cs = true ->
  do_calls cs (initial_world polls waits) = Ret (tt, w) ->
  consistent w.
Proof.
  intros Hord Hrun.
  destruct (do_calls_consistent cs (initial_world polls waits))
    as (w' & Hrun' & Hc).
  - apply initial_world_consistent.
  - simpl. by rewrite dom_empty_L.
  - congruence.
Qed.

Lemma consistent_with_cursor a w :
  consistent w -> a ∈ tasklist w -> consistent (with_current_entry (Entry a) w).
Proof.
  intros [? ? ? ? ? ? ?] Hin. constructor; try done.
  right. by exists a.
Qed.

(** C7 (amended): for every sequence of register and deregister calls in
    which each registered child id is within bounds and not in use, each
    parent is 0 or registered, and each deregistered task is registered,
    every call returns, and after each of them no two allocated records
    share a task id and the queue length, the number of filled index slots
    and the value of [rec_sched_get_num_threads] are equal. *)
Theorem orderly_calls_keep_ids_unique_and_counts_equal polls waits cs pre :
  orderly ∅ cs = true ->
  pre `prefix_of` cs ->
  exists w',
    do_calls pre (initial_world polls waits) = Ret (tt, w') /\
    unique_tids w' /\ counts_agree w'.
Proof.
  intros Hord [rest ->].
  apply orderly_app in Hord.
  destruct (do_calls_consistent pre (initial_world polls waits))
    as (w' & Hrun & Hc).
  - apply initial_world_consistent.
  - simpl. by rewrite dom_empty_L.
  - exists w'. split; [done|]. split.
    + by apply consistent_unique_tids.
    + by apply consistent_counts_agree.
Qed.

Lemma consistent_with_trace t w : consistent w -> consistent (with_trace t w).
Proof. intros [? ? ? ? ? ? ?]. by constructor. Qed.

Lemma consistent_empty w :
  consistent w -> tasklist w = [] ->
  heap w = ∅ /\ tid_to_entry w = ∅ /\ current_entry w = Null /\
  num_active_threads w = 0.
Proof.
  intros Hc Hnil.
  assert (Hheap : heap w = ∅).
  { apply map_empty. intros a. apply eq_None_not_Some.
    rewrite <- (cons_heap _ Hc), Hnil. by intros ?%elem_of_nil. }
  split; [done|]. split; [|split].
  - apply map_empty. intros t. apply eq_None_not_Some. intros [a Ha].
    apply (cons_index _ Hc) in Ha as (c & Hh & _).
    by rewrite Hheap, lookup_empty in Hh.
  - destruct (cons_cursor _ Hc) as [H|(b & _ & Hb)]; [done|].
    rewrite Hnil in Hb. by apply elem_of_nil in Hb.
  - by rewrite (cons_count _ Hc), Hnil.
Qed.

Lemma flat_map_agree {A B} (f g : A -> list B) (l : list A) :
  (forall x, x ∈ l -> f x = g x) -> flat_map f l = flat_map g l.
Proof.
  induction l as [|x l IH]; intros H; simpl; [done|].
  rewrite (H x) by (by apply elem_of_cons; left).
  rewrite IH; [done|]. intros y Hy. apply H. by apply elem_of_cons; right.
Qed.

Lemma exit_all_loop_run fuel w :
  consistent w -> (length (tasklist w) <= fuel)%nat ->
  exists w',
    exit_all_loop fuel w = Ret (tt, w') /\ consistent w' /\
    tasklist w' = [] /\
    trace w' = trace w ++ flat_map (teardown_events w) (tasklist w) /\
    nonblock_script w' = nonblock_script w /\
    waitpid_script w' = waitpid_script w.
Proof.
  revert w. induction fuel as [|fuel IH]; intros w Hc Hlen.
  - destruct (tasklist w) as [|a l] eqn:El; [|simpl in Hlen; lia].
    exists w. rewrite app_nil_r. split; [|done].
    simpl. unfold CIRCLEQ_EMPTY. rewrite bind_gets, El. done.
  - destruct (tasklist w) as [|a l] eqn:El.
    + exists w. rewrite app_nil_r. split; [|done].
      simpl. unfold CIRCLEQ_EMPTY. rewrite bind_gets, El. done.
    + assert (Hin : a ∈ tasklist w) by (rewrite El; by apply elem_of_cons; left).
      pose proof Hin as Hin'.
      apply (cons_heap _ Hc) in Hin' as [c Hh].
      set (w1 := with_trace (trace w ++ [EvKill (tid c) SIGINT]) w).
      assert (Hc1 : consistent w1) by by apply consistent_with_trace.
      destruct (deregister_consistent_run a c w1 Hc1 Hh)
        as (rest & nxt & Hun & Hnx & Hrun & Hc2).
      assert (rest = l) as ->.
      { unfold w1 in Hun. cbn [tasklist with_trace] in Hun.
        rewrite El in Hun. simpl in Hun. rewrite decide_True in Hun by done.
        congruence. }
      destruct (IH (deregistered a c l nxt w1) Hc2) as (w' & Hw' & Hcw' & He & Ht & Hp & Hq).
      { unfold deregistered. cbn [tasklist]. simpl in Hlen. lia. }
      exists w'. split; [|split; [done|split; [done|split; [|done]]]].
      * simpl. unfold CIRCLEQ_EMPTY, CIRCLEQ_FIRST, sys_kill.
        msteps. rewrite El. msteps. rewrite El. msteps. fold w1.
        rewrite (bind_Ret _ _ _ _ _ Hrun). done.
      * rewrite Ht. unfold deregistered at 1 2. cbn [trace tasklist].
        unfold w1 at 1. cbn [trace with_trace]. simpl.
        rewrite <- !app_assoc. f_equal.
        unfold teardown_events at 2. rewrite Hh. simpl. do 5 f_equal.
        apply flat_map_agree. intros x Hx.
        unfold teardown_events. cbn [heap].
        rewrite lookup_delete_ne; [done|].
        intros <-. pose proof (cons_nodup _ Hc) as Hnd. rewrite El in Hnd.
        by apply NoDup_cons in Hnd as [? _].
Qed.

(** C8: on a well-formed state [rec_sched_exit_all] returns; it has sent
    SIGINT to, and torn down, every queued task in queue order, each time
    taking the head of the queue, and it leaves the queue and the index
    empty, no record allocated, the cursor null and the count at 0. *)
Theorem exit_all_leaves_initial_state w :
  consistent w ->
  exists w',
    rec_sched_exit_all w = Ret (tt, w') /\
    tasklist w' = [] /\ heap w' = ∅ /\ tid_to_entry w' = ∅ /\
    current_entry w' = Null /\ num_active_threads w' = 0 /\
    rec_sched_get_num_threads w' = Ret (0, w') /\
    trace w' = trace w ++ flat_map (teardown_events w) (tasklist w) /\
    nonblock_script w' = nonblock_script w /\
    waitpid_script w' = waitpid_script w.
Proof.
  intros Hc.
  destruct (exit_all_loop_run (length (tasklist w)) w Hc)
    as (w' & Hrun & Hc' & Hnil & Htr & Hp & Hq); [done|].
  destruct (consistent_empty _ Hc' Hnil) as (Hh & Hi & Hcur & Hn).
  exists w'. unfold rec_sched_exit_all. rewrite bind_gets.
  repeat split; try done.
  unfold rec_sched_get_num_threads, gets. by rewrite Hn.
Qed.

(** *** Selection *)

Lemma with_current_entry_id w : with_current_entry (current_entry w) w = w.
Proof. by destruct w. Qed.

Lemma bootstrap_run w :
  bootstrap_cursor w =
  Ret (bootstrapped w, with_current_entry (bootstrapped w) w).
Proof.
  unfold bootstrap_cursor, bootstrapped, CIRCLEQ_FIRST. rewrite bind_gets.
  destruct (is_null (current_entry w)); [by msteps|].
  unfold ret. by rewrite with_current_entry_id.
Qed.

Lemma unswitchable_Null w : unswitchable Null w = Ret (false, w).
Proof. done. Qed.

Lemma unswitchable_Entry a c w :
  heap w !! a = Some c ->
  unswitchable (Entry a) w = Ret (bool_decide (switchable c = 0), w).
Proof. intros H. unfold unswitchable. wsimpl. by erewrite bind_load. Qed.

Lemma note_switch_same b cb m w :
  heap w !! b = Some cb -> switch_counter cb <> INT_MIN ->
  note_switch (Entry b) (Entry b) m w =
  Ret (tt, with_heap
             (<[b := set_switch_counter (switch_counter cb - 1) cb]> (heap w))
             w).
Proof.
  intros Hb Hmin. unfold note_switch. rewrite decide_True by done.
  msteps. by apply store_Entry.
Qed.

Lemma note_switch_other prev b cb m w :
  prev <> Entry b -> heap w !! b = Some cb ->
  note_switch prev (Entry b) m w =
  Ret (tt, with_heap (<[b := set_switch_counter m cb]> (heap w)) w).
Proof.
  intros Hne Hb. unfold note_switch. rewrite decide_False by done.
  by apply store_Entry.
Qed.

Lemma scan_ring_ready fuel e c w :
  heap w !! e = Some c -> exec_state c <> PROCESSING_SYSCALL ->
  scan_ring (S fuel) (Entry e) w = Ret ((Entry e, Entry e, 0), w).
Proof.
  intros He Hst. simpl. msteps.
  by rewrite bool_decide_eq_false_2.
Qed.

Lemma find_runnable_ready e c w :
  heap w !! e = Some c -> exec_state c <> PROCESSING_SYSCALL ->
  find_runnable (Entry e) w = Ret ((Entry e, Entry e, 0), w).
Proof.
  intros He Hst. unfold find_runnable, scan_once. msteps.
  by rewrite (bind_Ret _ _ _ _ _ (scan_ring_ready _ _ _ _ He Hst)).
Qed.

Lemma bind_find_runnable_ready {B} e c (k : eptr * eptr * Z -> M B) w :
  heap w !! e = Some c -> exec_state c <> PROCESSING_SYSCALL ->
  bind (find_runnable (Entry e)) k w = k (Entry e, Entry e, 0) w.
Proof.
  intros He Hst. by rewrite (bind_Ret _ _ _ _ _ (find_runnable_ready e c w He Hst)).
Qed.

Lemma bind_note_switch_same {B} b cb m (k : unit -> M B) w :
  heap w !! b = Some cb -> switch_counter cb <> INT_MIN ->
  bind (note_switch (Entry b) (Entry b) m) k w =
  k tt (with_heap
          (<[b := set_switch_counter (switch_counter cb - 1) cb]> (heap w)) w).
Proof.
  intros Hb Hmin.
  by rewrite (bind_Ret _ _ _ _ _ (note_switch_same b cb m w Hb Hmin)).
Qed.

Lemma bind_note_switch_other {B} prev b cb m (k : unit -> M B) w :
  prev <> Entry b -> heap w !! b = Some cb ->
  bind (note_switch prev (Entry b) m) k w =
  k tt (with_heap (<[b := set_switch_counter m cb]> (heap w)) w).
Proof.
  intros Hne Hb.
  by rewrite (bind_Ret _ _ _ _ _ (note_switch_other prev b cb m w Hne Hb)).
Qed.

Lemma bind_unswitchable_Entry {B} a c (k : bool -> M B) w :
  heap w !! a = Some c ->
  bind (unswitchable (Entry a)) k w = k (bool_decide (switchable c = 0)) w.
Proof. intros H. by rewrite (bind_Ret _ _ _ _ _ (unswitchable_Entry a c w H)). Qed.

(** Looks up a record in a heap built by successive writes. *)
Ltac solve_lookup :=
  wsimpl;
  first [ eassumption
        | apply lookup_insert_eq
        | rewrite lookup_insert_ne by congruence; solve_lookup ].

Lemma select_after_bootstrap fl ctx w :
  rec_sched_get_active_thread fl ctx w =
  (stay <- unswitchable ctx ;;
   if (stay : bool) then ret (ctx, 0)
   else found <- choose_next ctx (bootstrapped w) (max_events fl) ;;
        commit ctx (max_events fl) found)
    (with_current_entry (bootstrapped w) w).
Proof.
  unfold rec_sched_get_active_thread.
  by rewrite (bind_Ret _ _ _ _ _ (bootstrap_run w)).
Qed.

(** A call without a current context whose cursor stands on a task that is
    not inside a system call. *)
Lemma select_null_ready fl e c w :
  bootstrapped w = Entry e ->
  heap w !! e = Some c -> exec_state c <> PROCESSING_SYSCALL ->
  rec_sched_get_active_thread fl Null w =
  Ret ((Entry e, 0),
       with_heap (<[e := set_switch_counter (max_events fl) c]> (heap w))
         (with_current_entry (Entry e) w)).
Proof.
  intros Hb He Hst. rewrite select_after_bootstrap, Hb.
  rewrite (bind_Ret _ _ _ _ _ (unswitchable_Null _)).
  unfold choose_next, prefer_next. msteps.
  rewrite (bind_find_runnable_ready e c) by (done || solve_lookup).
  unfold commit. msteps.
  rewrite (bind_note_switch_other Null e c) by (done || solve_lookup).
  finish_world.
Qed.

(** A call for a switchable task within its budget, with the cursor on that
    task: the task is chosen again. *)
Lemma select_stay fl a c w :
  bootstrapped w = Entry a ->
  heap w !! a = Some c -> exec_state c <> PROCESSING_SYSCALL ->
  switchable c <> 0 -> 0 <= switch_counter c ->
  rec_sched_get_active_thread fl (Entry a) w =
  Ret ((Entry a, 0),
       with_heap (<[a := set_switch_counter (switch_counter c - 1) c]> (heap w))
         (with_current_entry (Entry a) w)).
Proof.
  intros Hb He Hst Hsw Hcnt. rewrite select_after_bootstrap, Hb.
  rewrite (bind_unswitchable_Entry a c) by solve_lookup.
  rewrite bool_decide_eq_false_2 by done.
  unfold choose_next, prefer_next. msteps.
  rewrite bool_decide_eq_false_2 by lia. msteps.
  rewrite (bind_find_runnable_ready a c) by (done || solve_lookup).
  unfold commit. msteps.
  rewrite (bind_note_switch_same a c) by (solve_lookup || int_lia).
  finish_world.
Qed.

(** A call for a switchable task that exceeded its budget: the cursor moves
    to the next entry, which is chosen if it is not inside a system call. *)
Lemma select_advance fl a ca e n cn w :
  bootstrapped w = Entry e ->
  heap w !! a = Some ca -> switchable ca <> 0 -> switch_counter ca < 0 ->
  loop_next (tasklist w) e = Some n -> n <> a ->
  heap w !! n = Some cn -> exec_state cn <> PROCESSING_SYSCALL ->
  rec_sched_get_active_thread fl (Entry a) w =
  Ret ((Entry n, 0),
       with_heap (<[n := set_switch_counter (max_events fl) cn]>
                    (<[a := set_switch_counter (max_events fl) ca]> (heap w)))
         (with_current_entry (Entry n) w)).
Proof.
  intros Hb Ha Hsw Hcnt Hnx Hne Hn Hst. rewrite select_after_bootstrap, Hb.
  rewrite (bind_unswitchable_Entry a ca) by solve_lookup.
  rewrite bool_decide_eq_false_2 by done.
  unfold choose_next, prefer_next. msteps.
  rewrite bool_decide_eq_true_2 by lia. msteps.
  rewrite (bind_find_runnable_ready n cn) by (done || solve_lookup).
  unfold commit. msteps.
  rewrite (bind_note_switch_other (Entry a) n cn) by (congruence || solve_lookup).
  finish_world.
Qed.

Lemma store_Ret_inv p f w w' :
  store p f w = Ret (tt, w') ->
  exists b cb, p = Entry b /\ heap w !! b = Some cb /\
               w' = with_heap (<[b := f cb]> (heap w)) w.
Proof.
  unfold store. intros H. apply bind_Ret_inv in H as (c & w1 & Hl & H).
  apply load_Ret_inv in Hl as (b & -> & Hb & ->).
  injection H as <-. by exists b, c.
Qed.

Lemma note_switch_Ret_inv prev nxt m w w' :
  note_switch prev nxt m w = Ret (tt, w') ->
  exists b cb,
    nxt = Entry b /\ heap w !! b = Some cb /\
    w' = with_heap
           (<[b := set_switch_counter
                     (if decide (prev = nxt) then switch_counter cb - 1 else m)
                     cb]> (heap w)) w.
Proof.
  unfold note_switch. destruct (decide (prev = nxt)) as [->|Hne].
  - intros H. apply bind_Ret_inv in H as (c & w1 & Hl & H).
    apply load_Ret_inv in Hl as (b & -> & Hb & ->).
    apply bind_Ret_inv in H as (v & w2 & Hv & H).
    unfold int_pred in Hv.
    destruct (decide (switch_counter c = INT_MIN)); [done|].
    injection Hv as <- <-.
    apply store_Ret_inv in H as (b' & cb & [= <-] & Hb' & ->).
    exists b, c. split; [done|]. split; [done|]. congruence.
  - intros H. apply store_Ret_inv in H as (b & cb & -> & Hb & ->).
    by exists b, cb.
Qed.

Lemma unswitchable_cursor ctx p w r :
  unswitchable ctx w = Ret (r, w) ->
  unswitchable ctx (with_current_entry p w) = Ret (r, with_current_entry p w).
Proof.
  destruct ctx as [| |a]; simpl; [by intros [= <-]|done|].
  unfold unswitchable, bind, load. simpl.
  destruct (heap w !! a); [|done]. by intros [= <-].
Qed.

Lemma store_budgets p f w w' :
  (forall c, switch_counter (f c) = switch_counter c) ->
  store p f w = Ret (tt, w') -> budgets w' = budgets w.
Proof.
  intros Hf Hst. apply store_Ret_inv in Hst as (b & cb & _ & Hb & ->).
  unfold budgets. wsimpl. rewrite fmap_insert. apply insert_id.
  by rewrite lookup_fmap, Hb, Hf.
Qed.

Lemma sys_waitpid_nonblock_budgets t p w r w' :
  sys_waitpid_nonblock t p w = Ret (r, w') -> budgets w' = budgets w.
Proof.
  unfold sys_waitpid_nonblock. intros H.
  apply bind_Ret_inv in H as (answer & wa & Hans & Hrest).
  assert (Hwa : budgets wa = budgets w).
  { unfold poll_answer in Hans. destruct (nonblock_script w); [done|].
    by injection Hans as _ <-. }
  destruct answer as [st|].
  - apply bind_Ret_inv in Hrest as ([] & wb & Hst & Hret).
    injection Hret as _ <-. rewrite <- Hwa.
    by apply (store_budgets p (set_status st)).
  - by injection Hrest as _ <-.
Qed.

Lemma scan_ring_budgets fuel : forall entry w r w',
  scan_ring fuel entry w = Ret (r, w') -> budgets w' = budgets w.
Proof.
  induction fuel as [|fuel IH]; intros entry w r w'; simpl; [done|].
  intros H. apply bind_Ret_inv in H as (c & w0 & Hload & H).
  apply load_Ret_inv in Hload as (a & _ & _ & ->).
  destruct (negb (bool_decide (exec_state c = PROCESSING_SYSCALL))).
  { by injection H as _ <-. }
  apply bind_Ret_inv in H as (r0 & w1 & Hpoll & H).
  apply sys_waitpid_nonblock_budgets in Hpoll.
  destruct (negb (bool_decide (r0 = 0))).
  { injection H as _ <-. done. }
  apply bind_Ret_inv in H as (e & w2 & Hnext & H).
  assert (w2 = w1) as ->.
  { unfold next_entry in Hnext. destruct entry as [| |x]; try done.
    destruct (loop_next (tasklist w1) x); [|done]. by injection Hnext as _ <-. }
  rewrite bind_gets in H.
  destruct (decide (e = current_entry w1)).
  - injection H as _ <-. done.
  - apply IH in H. congruence.
Qed.

Lemma wait_for_any_budgets w r w' :
  wait_for_any w = Ret (r, w') -> budgets w' = budgets w.
Proof.
  unfold wait_for_any.
  destruct (waitpid_retry (waitpid_script w) (trace w))
    as [[[[t st] rest] tr]| | | |]; try done.
  by intros [= _ <-].
Qed.

Lemma find_runnable_budgets entry w r w' :
  find_runnable entry w = Ret (r, w') -> budgets w' = budgets w.
Proof.
  unfold find_runnable, scan_once. intros H.
  apply bind_Ret_inv in H as ([[next_ctx e] by_w] & w1 & Hscan & Hfall).
  rewrite bind_gets in Hscan. apply scan_ring_budgets in Hscan.
  rewrite <- Hscan. unfold wait_fallback in Hfall.
  destruct (is_null next_ctx); [|by injection Hfall as _ <-].
  apply bind_Ret_inv in Hfall as ([t st] & w2 & Hwait & Hfall).
  apply wait_for_any_budgets in Hwait. rewrite <- Hwait.
  apply bind_Ret_inv in Hfall as (e' & w3 & Hget & Hfall).
  assert (w3 = w2) as ->.
  { unfold get_entry in Hget. destruct (bool_decide (0 <= t < MAX_TID)); [|done].
    by injection Hget as _ <-. }
  apply bind_Ret_inv in Hfall as ([] & w4 & Hst & Hret).
  injection Hret as _ <-. by apply (store_budgets (ctx_of e') (set_status st)).
Qed.

(** Up to the commit, the budgets are those at the start of the call, but
    for a negative budget of the supplied context, which has been reset. *)
Lemma choose_next_budgets ctx entry m w r wc :
  choose_next ctx entry m w = Ret (r, wc) ->
  (forall x, ctx <> Entry x -> budgets wc !! x = budgets w !! x) /\
  (forall a ca, ctx = Entry a -> heap w !! a = Some ca ->
     budgets wc !! a =
     Some (if decide (switch_counter ca < 0) then m else switch_counter ca)).
Proof.
  unfold choose_next. intros H.
  apply bind_Ret_inv in H as (e & w1 & Hpref & Hfind).
  apply find_runnable_budgets in Hfind. rewrite Hfind. clear Hfind.
  unfold prefer_next in Hpref.
  apply bind_Ret_inv in Hpref as (exceeded & w0 & Hex & Hpref).
  destruct ctx as [| |a]; simpl in Hex.
  - injection Hex as <- <-. injection Hpref as _ <-. by split.
  - done.
  - apply bind_Ret_inv in Hex as (c & w2 & Hload & Hex).
    apply load_Ret_inv in Hload as (? & [= <-] & Ha & ->).
    injection Hex as <- <-.
    destruct (bool_decide (switch_counter c < 0)) eqn:Hneg.
    + apply bool_decide_eq_true_1 in Hneg.
      apply bind_Ret_inv in Hpref as (e' & w3 & Hnext & Hpref).
      assert (w3 = w) as ->.
      { unfold next_entry in Hnext. destruct entry as [| |x]; try done.
        destruct (loop_next (tasklist w) x); [|done].
        by injection Hnext as _ <-. }
      rewrite bind_modify in Hpref.
      apply bind_Ret_inv in Hpref as ([] & w4 & Hst & Hret).
      injection Hret as _ <-.
      apply store_Ret_inv in Hst as (b & cb & [= <-] & Hb & ->).
      cbn [heap with_current_entry] in Hb. unfold budgets. wsimpl. split.
      * intros x Hx. rewrite !lookup_fmap, lookup_insert_ne; [done|congruence].
      * intros a' ca [= <-] Hca. rewrite lookup_fmap, lookup_insert_eq. simpl.
        assert (ca = c) as -> by congruence. by rewrite decide_True.
    + apply bool_decide_eq_false_1 in Hneg. injection Hpref as _ <-.
      split; [done|]. intros a' ca [= <-] Hca. unfold budgets.
      rewrite lookup_fmap, Hca. simpl.
      assert (ca = c) as -> by congruence. by rewrite decide_False.
Qed.

(** C1: when a call goes past the short-circuit and returns, the two
    committing statements change one record only, the one of the chosen
    task: its budget is one less than before the commit if the chosen task
    is the current context, and [max_events] otherwise.  [wc] is the state
    in which the commit starts; its budgets are those at the start of the
    call, but for a negative budget of the current context, which the
    budget test has reset to [max_events] before. *)
Theorem commit_budget_accounting fl ctx w chosen by_w w' :
  rec_sched_get_active_thread fl ctx w = Ret ((chosen, by_w), w') ->
  unswitchable ctx w = Ret (false, w) ->
  exists entry wc b cb,
    choose_next ctx (bootstrapped w) (max_events fl)
      (with_current_entry (bootstrapped w) w) =
      Ret ((chosen, entry, by_w), wc) /\
    chosen = Entry b /\ heap wc !! b = Some cb /\
    heap w' !! b =
      Some (set_switch_counter
              (if decide (ctx = chosen) then switch_counter cb - 1
               else max_events fl) cb) /\
    (forall x, x <> b -> heap w' !! x = heap wc !! x) /\
    current_entry w' = entry /\
    (forall x, ctx <> Entry x -> budgets wc !! x = budgets w !! x) /\
    (forall a ca, ctx = Entry a -> heap w !! a = Some ca ->
       budgets wc !! a =
       Some (if decide (switch_counter ca < 0) then max_events fl
             else switch_counter ca)).
Proof.
  intros Hrun Hsw. rewrite select_after_bootstrap in Hrun.
  rewrite (bind_Ret _ _ _ _ _ (unswitchable_cursor _ _ _ _ Hsw)) in Hrun.
  apply bind_Ret_inv in Hrun as ([[next_ctx entry] by0] & wc & Hchoose & Hcommit).
  unfold commit in Hcommit. rewrite bind_modify in Hcommit.
  apply bind_Ret_inv in Hcommit as ([] & w3 & Hnote & Hret).
  injection Hret as <- <- <-.
  apply note_switch_Ret_inv in Hnote as (b & cb & -> & Hb & ->).
  exists entry, wc, b, cb.
  split; [done|]. split; [done|]. split; [done|].
  wsimpl. split; [by rewrite lookup_insert_eq|].
  split; [intros x Hx; by rewrite lookup_insert_ne|].
  split; [done|].
  exact (choose_next_budgets _ _ _ _ _ _ Hchoose).
Qed.

(** C3 (amended): when the supplied context is switchable and its budget is
    negative, the cursor moves to the entry linked after it and the budget
    of the context is reset to [max_events] before the scan starts: the
    rest of the call is the scan, the fallback and the commit run from the
    advanced cursor.  In particular, with the queue [a; b; d], the cursor on
    [a] and [b] not inside a system call, the call returns [b] and leaves
    both budgets at [max_events]. *)
Theorem budget_exceeded_advance fl a ca e n w :
  heap w !! a = Some ca -> switchable ca <> 0 -> switch_counter ca < 0 ->
  bootstrapped w = Entry e -> loop_next (tasklist w) e = Some n ->
  rec_sched_get_active_thread fl (Entry a) w =
    (found <- find_runnable (Entry n) ;;
     commit (Entry a) (max_events fl) found)
      (with_heap (<[a := set_switch_counter (max_events fl) ca]> (heap w))
         (with_current_entry (Entry n) w)) /\
  (forall b d cb,
     tasklist w = [a; b; d] -> e = a -> a <> b ->
     heap w !! b = Some cb -> exec_state cb <> PROCESSING_SYSCALL ->
     exists w',
       rec_sched_get_active_thread fl (Entry a) w = Ret ((Entry b, 0), w') /\
       current_entry w' = Entry b /\
       switch_counter <$> heap w' !! a = Some (max_events fl) /\
       switch_counter <$> heap w' !! b = Some (max_events fl)).
Proof.
  intros Ha Hsw Hneg Hb Hnx. split.
  - rewrite select_after_bootstrap, Hb.
    rewrite (bind_unswitchable_Entry a ca) by solve_lookup.
    rewrite bool_decide_eq_false_2 by done.
    unfold choose_next, prefer_next. msteps.
    rewrite bool_decide_eq_true_2 by lia. msteps.
    reflexivity.
  - intros b d cb Hl -> Hab Hcb Hst.
    assert (n = b) as ->.
    { rewrite Hl in Hnx. simpl in Hnx. rewrite decide_True in Hnx by done.
      congruence. }
    eexists. split.
    + by apply (select_advance fl a ca a b cb).
    + wsimpl. split; [done|].
      rewrite lookup_insert_ne, !lookup_insert_eq by done. done.
Qed.

(** C4 (amended): when one revolution of the scan finds no task and the
    blocking wait reports task [t], the entry for [t] is taken from the
    index without a test.  If the slot is null, the wait status is written
    through the null pointer: the call ends in a null access, not in a
    diagnosed abort.  If the slot holds an allocated entry, that task is
    returned with its wait status recorded and [*by_waitpid = 1]. *)
Theorem fallback_lookup_is_unchecked fl ctx w e1 w1 e2 by_w w2 t st w3 :
  unswitchable ctx w = Ret (false, w) ->
  prefer_next ctx (bootstrapped w) (max_events fl)
    (with_current_entry (bootstrapped w) w) = Ret (e1, w1) ->
  scan_once e1 w1 = Ret ((Null, e2, by_w), w2) ->
  wait_for_any w2 = Ret ((t, st), w3) ->
  0 <= t < MAX_TID ->
  (tid_to_entry w3 !! t = None ->
   rec_sched_get_active_thread fl ctx w = Undef NullAccess) /\
  (forall a c,
     tid_to_entry w3 !! t = Some a -> heap w3 !! a = Some c ->
     (ctx = Entry a -> switch_counter c <> INT_MIN) ->
     exists w',
       rec_sched_get_active_thread fl ctx w = Ret ((Entry a, 1), w') /\
       status <$> heap w' !! a = Some st /\
       current_entry w' = Entry a).
Proof.
  intros Hsw Hpref Hscan Hwait Hr.
  set (found := match tid_to_entry w3 !! t with
                | Some a => Entry a
                | None => Null
                end).
  assert (Hcall : rec_sched_get_active_thread fl ctx w =
                  (store found (set_status st) ;;
                   commit ctx (max_events fl) (found, found, 1)) w3).
  { rewrite select_after_bootstrap.
    rewrite (bind_Ret _ _ _ _ _ (unswitchable_cursor _ _ _ _ Hsw)).
    unfold choose_next, find_runnable. rewrite ?bind_assoc.
    rewrite (bind_Ret _ _ _ _ _ Hpref). rewrite ?bind_assoc.
    rewrite (bind_Ret _ _ _ _ _ Hscan).
    unfold wait_fallback. wsimpl. rewrite ?bind_assoc.
    rewrite (bind_Ret _ _ _ _ _ Hwait). by msteps. }
  rewrite Hcall. unfold found. split.
  - intros Hnone. by rewrite Hnone.
  - intros a c Hsome Hc Hmin. rewrite Hsome. msteps.
    unfold commit. msteps.
    destruct (decide (ctx = Entry a)) as [->|Hne].
    + rewrite (bind_note_switch_same a (set_status st c))
        by (solve_lookup || (ctx_simpl; by apply Hmin)).
      eexists. split; [reflexivity|]. wsimpl.
      by rewrite lookup_insert_eq.
    + rewrite (bind_note_switch_other ctx a (set_status st c))
        by (done || solve_lookup).
      eexists. split; [reflexivity|]. wsimpl.
      by rewrite lookup_insert_eq.
Qed.

(** *** The scan has enough fuel *)

Lemma loop_next_split l1 x l2 :
  x ∉ l1 ->
  loop_next (l1 ++ x :: l2) x =
  Some (match l2 with
        | y :: _ => y
        | [] => match l1 with f :: _ => f | [] => x end
        end).
Proof.
  intros Hnot. unfold loop_next.
  destruct l1 as [|f l1]; simpl.
  - rewrite decide_True by done. by destruct l2.
  - rewrite decide_False.
    + rewrite succ_in_app; [done|].
      intros H. apply Hnot. by apply elem_of_cons; right.
    + intros ->. apply Hnot. by apply elem_of_cons; left.
Qed.

Lemma succ_in_not_elem first l x : x ∉ l -> succ_in first l x = None.
Proof.
  induction l as [|y l IH]; simpl; [done|]. intros Hnot.
  rewrite decide_False.
  - apply IH. intros H. apply Hnot. by apply elem_of_cons; right.
  - intros ->. apply Hnot. by apply elem_of_cons; left.
Qed.

Lemma loop_next_not_elem l x : x ∉ l -> loop_next l x = None.
Proof. destruct l; [done|]. apply succ_in_not_elem. Qed.

Lemma loop_next_rotate_l l1 l2 x :
  NoDup (l1 ++ l2) -> x ∈ l1 ->
  loop_next (l1 ++ l2) x = loop_next (l2 ++ l1) x.
Proof.
  intros Hnd Hin. apply list_elem_of_split in Hin as (a & b & ->).
  assert (Hparts : (x ∉ a) /\ (x ∉ l2)).
  { rewrite <- app_assoc in Hnd. apply NoDup_app in Hnd as (_ & Hdisj & Hnd).
    split.
    - intros H. apply (Hdisj x H). by apply elem_of_cons; left.
    - simpl in Hnd. apply NoDup_cons in Hnd as [Hnot _].
      intros H. apply Hnot. apply elem_of_app. by right. }
  destruct Hparts as [Ha Hl2].
  rewrite <- app_assoc. simpl. rewrite loop_next_split by done.
  rewrite (app_assoc l2 a (x :: b)). rewrite loop_next_split.
  - destruct b as [|y b]; [|done]. simpl. by destruct l2.
  - intros [H|H]%elem_of_app; done.
Qed.

Lemma loop_next_rotate l1 l2 x :
  NoDup (l1 ++ l2) -> loop_next (l1 ++ l2) x = loop_next (l2 ++ l1) x.
Proof.
  intros Hnd. destruct (decide (x ∈ l1)) as [H1|H1].
  - by apply loop_next_rotate_l.
  - destruct (decide (x ∈ l2)) as [H2|H2].
    + symmetry. apply loop_next_rotate_l; [|done].
      by rewrite (Permutation_app_comm l2 l1).
    + rewrite !loop_next_not_elem; [done|..];
        by intros [?|?]%elem_of_app.
Qed.

Lemma load_fuel p w : load p w <> OutOfFuel.
Proof. destruct p as [| |a]; try done. simpl. by destruct (heap w !! a). Qed.

Lemma sys_waitpid_nonblock_fuel t p w :
  sys_waitpid_nonblock t p w <> OutOfFuel.
Proof.
  unfold sys_waitpid_nonblock, bind, poll_answer.
  destruct (nonblock_script w) as [|[st|] rest]; try done.
  unfold store, bind, load. destruct p as [| |a]; try done. simpl.
  by destruct (heap w !! a).
Qed.

(** From the entry [x], with [todo] the entries between [x] and the cursor
    [e], the loop ends after at most [length todo + 1] rounds. *)
Lemma scan_ring_fuel todo : forall fuel seen x e w,
  NoDup (seen ++ x :: todo) -> hd x seen = e ->
  (forall y, loop_next (tasklist w) y = loop_next (seen ++ x :: todo) y) ->
  current_entry w = Entry e ->
  (length todo < fuel)%nat ->
  scan_ring fuel (Entry x) w <> OutOfFuel.
Proof.
  induction todo as [|y todo IH]; intros fuel seen x e w Hnd He Hl Hcur Hfuel;
    (destruct fuel as [|fuel]; [simpl in Hfuel; lia|]); simpl; unfold ctx_of.
  - unfold bind at 1. destruct (load (Entry x) w) as [[c w0]| | | |] eqn:Hload;
      try done; [|by apply load_fuel in Hload].
    apply load_Ret_inv in Hload as (? & _ & _ & ->).
    destruct (negb (bool_decide (exec_state c = PROCESSING_SYSCALL)));
      [by unfold ret|].
    unfold bind at 1.
    destruct (sys_waitpid_nonblock (tid c) (Entry x) w)
      as [[r w1]| | | |] eqn:Hpoll; try done;
      [|by apply sys_waitpid_nonblock_fuel in Hpoll].
    destruct (negb (bool_decide (r = 0))); [by unfold ret|].
    assert (Hframe : tasklist w1 = tasklist w /\ current_entry w1 = current_entry w).
    { clear -Hpoll. unfold sys_waitpid_nonblock in Hpoll.
      apply bind_Ret_inv in Hpoll as (answer & wa & Hans & Hrest).
      unfold poll_answer in Hans.
      destruct (nonblock_script w); [done|]. injection Hans as <- <-.
      destruct o as [st|].
      - apply bind_Ret_inv in Hrest as ([] & wb & Hst & Hret).
        injection Hret as <- <-.
        apply store_Ret_inv in Hst as (b & cb & _ & _ & ->). done.
      - by injection Hrest as <- <-. }
    destruct Hframe as [Hl1 Hcur1].
    unfold bind at 1, next_entry. rewrite Hl1, Hl.
    assert (Hx : x ∉ seen).
    { apply NoDup_app in Hnd as (_ & Hdisj & _). intros H.
      apply (Hdisj x H). by apply elem_of_cons; left. }
    rewrite loop_next_split by done.
    rewrite bind_gets, Hcur1, Hcur.
    destruct seen as [|f seen]; simpl in He; subst e;
      rewrite decide_True by done; by unfold ret.
  - unfold bind at 1. destruct (load (Entry x) w) as [[c w0]| | | |] eqn:Hload;
      try done; [|by apply load_fuel in Hload].
    apply load_Ret_inv in Hload as (? & _ & _ & ->).
    destruct (negb (bool_decide (exec_state c = PROCESSING_SYSCALL)));
      [by unfold ret|].
    unfold bind at 1.
    destruct (sys_waitpid_nonblock (tid c) (Entry x) w)
      as [[r w1]| | | |] eqn:Hpoll; try done;
      [|by apply sys_waitpid_nonblock_fuel in Hpoll].
    destruct (negb (bool_decide (r = 0))); [by unfold ret|].
    assert (Hframe : tasklist w1 = tasklist w /\ current_entry w1 = current_entry w).
    { clear -Hpoll. unfold sys_waitpid_nonblock in Hpoll.
      apply bind_Ret_inv in Hpoll as (answer & wa & Hans & Hrest).
      unfold poll_answer in Hans.
      destruct (nonblock_script w); [done|]. injection Hans as <- <-.
      destruct o as [st|].
      - apply bind_Ret_inv in Hrest as ([] & wb & Hst & Hret).
        injection Hret as <- <-.
        apply store_Ret_inv in Hst as (b & cb & _ & _ & ->). done.
      - by injection Hrest as <- <-. }
    destruct Hframe as [Hl1 Hcur1].
    unfold bind at 1, next_entry. rewrite Hl1, Hl.
    assert (Hx : x ∉ seen).
    { apply NoDup_app in Hnd as (_ & Hdisj & _). intros H.
      apply (Hdisj x H). by apply elem_of_cons; left. }
    rewrite loop_next_split by done.
    rewrite bind_gets, Hcur1, Hcur.
    assert (Hye : y <> e).
    { intros ->. destruct seen as [|f seen]; simpl in He; subst.
      - apply NoDup_cons in Hnd as [Hnot _]. apply Hnot.
        by apply elem_of_cons; left.
      - simpl in Hnd. apply NoDup_cons in Hnd as [Hnot _]. apply Hnot.
        apply elem_of_app; right. apply elem_of_cons; right.
        by apply elem_of_cons; left. }
    rewrite decide_False by congruence.
    apply (IH fuel (seen ++ [x]) y e w1).
    + by rewrite <- app_assoc.
    + destruct seen; [done|by simpl].
    + intros z. rewrite Hl1, Hl. by rewrite <- app_assoc.
    + by rewrite Hcur1.
    + simpl in Hfuel. lia.
Qed.

(** On a queue without repetition, a scan that starts at the cursor comes
    back to it: the fuel of [scan_once] is never used up. *)
Lemma scan_once_fuel e w :
  NoDup (tasklist w) -> current_entry w = Entry e -> e ∈ tasklist w ->
  scan_once (Entry e) w <> OutOfFuel.
Proof.
  intros Hnd Hcur Hin. unfold scan_once. rewrite bind_gets.
  apply list_elem_of_split in Hin as (pre & post & Hl).
  apply (scan_ring_fuel (post ++ pre) _ [] e e w).
  - simpl. rewrite Hl in Hnd.
    by rewrite (Permutation_app_comm pre (e :: post)) in Hnd.
  - done.
  - intros y. rewrite Hl. simpl.
    rewrite Hl in Hnd.
    by rewrite (loop_next_rotate pre (e :: post) y Hnd).
  - done.
  - rewrite Hl, !length_app. simpl. lia.
Qed.

Lemma bind_fuel {A B} (m : M A) (k : A -> M B) w :
  m w <> OutOfFuel ->
  (forall a w1, m w = Ret (a, w1) -> k a w1 <> OutOfFuel) ->
  bind m k w <> OutOfFuel.
Proof.
  intros Hm Hk. unfold bind.
  destruct (m w) as [[a w1]| | | |] eqn:E; try done. by apply Hk.
Qed.

Lemma store_fuel p f w : store p f w <> OutOfFuel.
Proof.
  unfold store. apply bind_fuel; [apply load_fuel|].
  intros c w1 _. by destruct p.
Qed.

Lemma note_switch_fuel prev ctx m w : note_switch prev ctx m w <> OutOfFuel.
Proof.
  unfold note_switch. destruct (decide (prev = ctx)); [|apply store_fuel].
  apply bind_fuel; [apply load_fuel|]. intros c w1 _.
  apply bind_fuel.
  - unfold int_pred. by destruct (decide (switch_counter c = INT_MIN)).
  - intros v w2 _. apply store_fuel.
Qed.

Lemma waitpid_retry_fuel script tr : waitpid_retry script tr <> OutOfFuel.
Proof.
  revert tr. induction script as [|answer script IH]; intros tr; simpl; [done|].
  destruct (decide (wait_ret answer = -1)); [|done].
  destruct (decide (wait_errno answer = EINTR)); [apply IH|done].
Qed.

Lemma wait_fallback_fuel found w : wait_fallback found w <> OutOfFuel.
Proof.
  destruct found as [[next_ctx entry] by_w]. unfold wait_fallback.
  destruct (is_null next_ctx); [|done].
  apply bind_fuel.
  - unfold wait_for_any.
    pose proof (waitpid_retry_fuel (waitpid_script w) (trace w)) as H.
    by destruct (waitpid_retry (waitpid_script w) (trace w))
      as [[[[? ?] ?] ?]| | | |].
  - intros [t st] w1 _. apply bind_fuel.
    + unfold get_entry. by destruct (bool_decide (0 <= t < MAX_TID)).
    + intros e w2 _. apply bind_fuel; [apply store_fuel|done].
Qed.

Lemma loop_next_Some_elem l a n : loop_next l a = Some n -> n ∈ l.
Proof.
  intros H. destruct (decide (a ∈ l)) as [Hin|Hnot].
  - destruct (loop_next_elem _ _ Hin) as (n' & Hn' & Hmem). congruence.
  - by rewrite loop_next_not_elem in H.
Qed.

(** On a well-formed state a call never uses up the fuel of the scan: the
    bound on the loop is a device of the model, not a behaviour of the
    function. *)
Lemma select_fuel fl ctx w :
  consistent w -> rec_sched_get_active_thread fl ctx w <> OutOfFuel.
Proof.
  intros Hc. rewrite select_after_bootstrap.
  set (wb := with_current_entry (bootstrapped w) w).
  assert (Hboot : bootstrapped w = Null \/ bootstrapped w = HeadPtr \/
                  exists e, bootstrapped w = Entry e /\ e ∈ tasklist w).
  { unfold bootstrapped.
    destruct (cons_cursor _ Hc) as [->|(a & -> & Ha)]; simpl.
    - destruct (tasklist w) as [|x l]; [by right; left|].
      right; right. exists x. split; [done|]. by apply elem_of_cons; left.
    - right; right. by exists a. }
  assert (Hscan : forall entry w2,
            current_entry w2 = entry -> tasklist w2 = tasklist w ->
            (entry = Null \/ entry = HeadPtr \/
             exists e, entry = Entry e /\ e ∈ tasklist w) ->
            find_runnable entry w2 <> OutOfFuel).
  { intros entry w2 Hcur Hl Hentry. unfold find_runnable.
    apply bind_fuel; [|intros found w3 _; apply wait_fallback_fuel].
    destruct Hentry as [->|[->|(e & -> & He)]]; [done..|].
    apply scan_once_fuel; [|done|]; rewrite Hl; [apply Hc|done]. }
  apply bind_fuel.
  - unfold unswitchable. destruct (is_null ctx); [done|].
    apply bind_fuel; [apply load_fuel|done].
  - intros stay w1 Hstay.
    assert (w1 = wb) as ->.
    { revert Hstay. unfold unswitchable. destruct (is_null ctx).
      - by intros [= _ <-].
      - intros H. apply bind_Ret_inv in H as (c & w2 & Hl & H).
        apply load_Ret_inv in Hl as (? & _ & _ & ->). by injection H as _ <-. }
    destruct stay; [done|].
    apply bind_fuel; [|intros [[? ?] ?] w2 _; unfold commit;
      apply bind_fuel; [done|intros _ w3 _;
        apply bind_fuel; [apply note_switch_fuel|done]]].
    unfold choose_next, prefer_next.
    rewrite bind_assoc.
    apply bind_fuel.
    { destruct (is_null ctx); [done|].
      apply bind_fuel; [apply load_fuel|done]. }
    intros exceeded w2 Hex.
    assert (w2 = wb) as ->.
    { revert Hex. destruct (is_null ctx).
      - by intros [= _ <-].
      - intros H. apply bind_Ret_inv in H as (c & w3 & Hl & H).
        apply load_Ret_inv in Hl as (? & _ & _ & ->). by injection H as _ <-. }
    destruct exceeded.
    + rewrite bind_assoc. unfold bind at 1, next_entry.
      destruct (bootstrapped w) as [| |e] eqn:Eb; try done.
      unfold wb at 1. cbn [tasklist with_current_entry].
      destruct (loop_next (tasklist w) e) as [n|] eqn:Hnx; [|done].
      rewrite bind_assoc, bind_modify. rewrite bind_assoc.
      apply bind_fuel; [apply store_fuel|].
      intros [] w3 Hst. rewrite bind_ret_l.
      apply store_Ret_inv in Hst as (b & cb & Hb & Hcb & Hw3). subst w3.
      apply Hscan; [done..|].
      right; right. exists n. split; [done|].
      by apply loop_next_Some_elem in Hnx.
    + rewrite bind_ret_l. by apply Hscan.
Qed.

(** *** Turns *)

Lemma set_switch_counter_same c : set_switch_counter (switch_counter c) c = c.
Proof. by destruct c. Qed.

Lemma set_switch_counter_twice u v c :
  set_switch_counter v (set_switch_counter u c) = set_switch_counter v c.
Proof. done. Qed.

Lemma budgets_erased_insert a c v h :
  h !! a = Some c ->
  budgets_erased (<[a := set_switch_counter v c]> h) = budgets_erased h.
Proof.
  intros H. unfold budgets_erased. rewrite fmap_insert.
  apply insert_id. by rewrite lookup_fmap, H.
Qed.

Lemma all_ready_erased w w' :
  all_ready w -> tasklist w' = tasklist w ->
  budgets_erased (heap w') = budgets_erased (heap w) ->
  all_ready w'.
Proof.
  intros Hr Hl He a Ha. rewrite Hl in Ha.
  destruct (Hr a Ha) as (c & Hc & Hst & Hsw).
  assert (Hlook : budgets_erased (heap w') !! a = Some (set_switch_counter 0 c)).
  { rewrite He. unfold budgets_erased. by rewrite lookup_fmap, Hc. }
  unfold budgets_erased in Hlook. rewrite lookup_fmap in Hlook.
  destruct (heap w' !! a) as [c'|]; [|done].
  injection Hlook as Hlook. exists c'. split; [done|].
  destruct c, c'. unfold set_switch_counter in Hlook.
  cbn [exec_state status rec_tid tid child_mem_fd syscallbuf_lib_start
       syscallbuf_lib_end desched_fd desched_fd_child switchable
       switch_counter] in *.
  by subst.
Qed.

Lemma repeat_select_app fl n1 n2 ctx w l1 w1 l2 w2 :
  repeat_select fl n1 ctx w = Ret (l1, w1) ->
  repeat_select fl n2 (List.last l1 ctx) w1 = Ret (l2, w2) ->
  repeat_select fl (n1 + n2) ctx w = Ret (l1 ++ l2, w2).
Proof.
  revert ctx w l1. induction n1 as [|n1 IH]; intros ctx w l1; simpl.
  - by intros [= <- <-].
  - intros H1 H2.
    apply bind_Ret_inv in H1 as ([chosen by_w] & wa & Hsel & H1).
    apply bind_Ret_inv in H1 as (rest & wb & Hrest & H1).
    injection H1 as <- <-.
    rewrite (bind_Ret _ _ _ _ _ Hsel).
    assert (Hlast : List.last (chosen :: rest) ctx = List.last rest chosen).
    { clear. revert chosen. induction rest as [|x rest IHr]; intros ch; [done|].
      simpl. destruct rest; [done|]. simpl in IHr. apply IHr. }
    rewrite Hlast in H2.
    by rewrite (bind_Ret _ _ _ _ _ (IH chosen wa rest Hrest H2)).
Qed.

Lemma last_replicate {A} (n : nat) (x d : A) :
  List.last (replicate (S n) x) d = x.
Proof. induction n as [|n IH]; [done|]. exact IH. Qed.

Lemma turn_length_pos m : turn_length m = S (pred (turn_length m)).
Proof. unfold turn_length. lia. Qed.

Lemma last_turn {A} m (x d : A) :
  List.last (replicate (turn_length m) x) d = x.
Proof. rewrite turn_length_pos. apply last_replicate. Qed.

(** While its budget lasts, the current task is chosen again and again. *)
Lemma stay_run fl k a c w :
  current_entry w = Entry a -> heap w !! a = Some c ->
  exec_state c <> PROCESSING_SYSCALL -> switchable c <> 0 ->
  ((0 < k)%nat -> Z.of_nat k <= switch_counter c + 1) ->
  exists w',
    repeat_select fl k (Entry a) w = Ret (replicate k (Entry a), w') /\
    tasklist w' = tasklist w /\ current_entry w' = Entry a /\
    heap w' =
      <[a := set_switch_counter (switch_counter c - Z.of_nat k) c]> (heap w).
Proof.
  revert c w. induction k as [|k IH]; intros c w Hcur Hc Hst Hsw Hk.
  - exists w. split; [done|]. split; [done|]. split; [done|].
    rewrite Z.sub_0_r, set_switch_counter_same. by rewrite insert_id.
  - assert (Hb : bootstrapped w = Entry a) by (unfold bootstrapped; by rewrite Hcur).
    specialize (Hk ltac:(lia)).
    pose proof (select_stay fl a c w Hb Hc Hst Hsw ltac:(lia)) as Hsel.
    set (c1 := set_switch_counter (switch_counter c - 1) c) in *.
    set (w1 := with_heap (<[a := c1]> (heap w))
                 (with_current_entry (Entry a) w)) in *.
    destruct (IH c1 w1) as (w' & Hrun & Hl & Hcur' & Hheap); try done.
    + unfold w1. wsimpl. apply lookup_insert_eq.
    + intros _. unfold c1. ctx_simpl. lia.
    + exists w'. split; [|split; [done|split; [done|]]].
      * simpl. rewrite (bind_Ret _ _ _ _ _ Hsel).
        by rewrite (bind_Ret _ _ _ _ _ Hrun).
      * rewrite Hheap. unfold w1. wsimpl. rewrite insert_insert_eq.
        f_equal. unfold c1. ctx_simpl. rewrite set_switch_counter_twice.
        f_equal. lia.
Qed.

(** The calls of one turn after the first: the chosen task, freshly given
    [max_events], is chosen until its budget is negative. *)
Lemma turn_rest fl a c w :
  all_ready w -> current_entry w = Entry a -> heap w !! a = Some c ->
  a ∈ tasklist w -> switch_counter c = max_events fl ->
  exists w' c',
    repeat_select fl (pred (turn_length (max_events fl))) (Entry a) w =
      Ret (replicate (pred (turn_length (max_events fl))) (Entry a), w') /\
    tasklist w' = tasklist w /\ all_ready w' /\
    current_entry w' = Entry a /\
    heap w' !! a = Some c' /\ switch_counter c' < 0.
Proof.
  intros Hready Hcur Hc Hin Hm.
  destruct (Hready a Hin) as (c0 & Hc0 & Hst & Hsw).
  assert (c0 = c) as -> by congruence.
  destruct (stay_run fl (pred (turn_length (max_events fl))) a c w)
    as (w' & Hrun & Hl & Hcur' & Hheap); try done.
  { unfold turn_length. lia. }
  exists w'. eexists. split; [done|]. split; [done|].
  split; [|split; [done|split]].
  - apply (all_ready_erased w); [done..|].
    rewrite Hheap. by apply budgets_erased_insert.
  - rewrite Hheap. apply lookup_insert_eq.
  - ctx_simpl. unfold turn_length. lia.
Qed.

(** One full turn, entered from the task [p] whose budget is used up. *)
Lemma turn_from fl p cp a w :
  all_ready w -> current_entry w = Entry p ->
  heap w !! p = Some cp -> switch_counter cp < 0 -> p ∈ tasklist w ->
  loop_next (tasklist w) p = Some a -> a <> p -> a ∈ tasklist w ->
  exists w' c',
    repeat_select fl (turn_length (max_events fl)) (Entry p) w =
      Ret (replicate (turn_length (max_events fl)) (Entry a), w') /\
    tasklist w' = tasklist w /\ all_ready w' /\
    current_entry w' = Entry a /\
    heap w' !! a = Some c' /\ switch_counter c' < 0.
Proof.
  intros Hready Hcur Hcp Hneg Hpin Hnx Hne Hain.
  destruct (Hready p Hpin) as (c0 & Hc0 & _ & Hsw).
  assert (c0 = cp) as -> by congruence.
  destruct (Hready a Hain) as (ca & Hca & Hst & _).
  assert (Hb : bootstrapped w = Entry p) by (unfold bootstrapped; by rewrite Hcur).
  pose proof (select_advance fl p cp p a ca w Hb Hcp Hsw Hneg Hnx Hne Hca Hst)
    as Hsel.
  set (w1 := with_heap
               (<[a := set_switch_counter (max_events fl) ca]>
                  (<[p := set_switch_counter (max_events fl) cp]> (heap w)))
               (with_current_entry (Entry a) w)) in *.
  assert (Hready1 : all_ready w1).
  { apply (all_ready_erased w); [done..|]. unfold w1. wsimpl.
    rewrite budgets_erased_insert by (by rewrite lookup_insert_ne).
    by apply budgets_erased_insert. }
  destruct (turn_rest fl a (set_switch_counter (max_events fl) ca) w1)
    as (w' & c' & Hrun & Hl & Hready' & Hcur' & Hc' & Hneg'); try done.
  { unfold w1. wsimpl. apply lookup_insert_eq. }
  exists w', c'. split; [|done].
  assert (Hlen : turn_length (max_events fl) =
                 (1 + pred (turn_length (max_events fl)))%nat).
  { unfold turn_length. lia. }
  rewrite Hlen at 1. rewrite Hlen at 2.
  change (replicate (1 + pred (turn_length (max_events fl))) (Entry a))
    with ([Entry a] ++ replicate (pred (turn_length (max_events fl))) (Entry a)).
  eapply repeat_select_app; [|exact Hrun].
  simpl. by rewrite (bind_Ret _ _ _ _ _ Hsel).
Qed.

(** The first turn: no current context, the cursor on (or bootstrapped to)
    the task [a]. *)
Lemma turn_first fl a w :
  all_ready w -> bootstrapped w = Entry a -> a ∈ tasklist w ->
  exists w' c',
    repeat_select fl (turn_length (max_events fl)) Null w =
      Ret (replicate (turn_length (max_events fl)) (Entry a), w') /\
    tasklist w' = tasklist w /\ all_ready w' /\
    current_entry w' = Entry a /\
    heap w' !! a = Some c' /\ switch_counter c' < 0.
Proof.
  intros Hready Hb Hain.
  destruct (Hready a Hain) as (ca & Hca & Hst & _).
  pose proof (select_null_ready fl a ca w Hb Hca Hst) as Hsel.
  set (w1 := with_heap (<[a := set_switch_counter (max_events fl) ca]> (heap w))
               (with_current_entry (Entry a) w)) in *.
  assert (Hready1 : all_ready w1).
  { apply (all_ready_erased w); [done..|]. unfold w1. wsimpl.
    by apply budgets_erased_insert. }
  destruct (turn_rest fl a (set_switch_counter (max_events fl) ca) w1)
    as (w' & c' & Hrun & Hl & Hready' & Hcur' & Hc' & Hneg'); try done.
  { unfold w1. wsimpl. apply lookup_insert_eq. }
  exists w', c'. split; [|done].
  assert (Hlen : turn_length (max_events fl) =
                 (1 + pred (turn_length (max_events fl)))%nat).
  { unfold turn_length. lia. }
  rewrite Hlen at 1. rewrite Hlen at 2.
  change (replicate (1 + pred (turn_length (max_events fl))) (Entry a))
    with ([Entry a] ++ replicate (pred (turn_length (max_events fl))) (Entry a)).
  eapply repeat_select_app; [|exact Hrun].
  simpl. by rewrite (bind_Ret _ _ _ _ _ Hsel).
Qed.

Lemma last_default {A} (x d d' : A) (l : list A) :
  List.last (x :: l) d = List.last (x :: l) d'.
Proof.
  revert x. induction l as [|y l IH]; intros x; [done|].
  change (List.last (y :: l) d = List.last (y :: l) d'). apply IH.
Qed.

Lemma last_cons {A} (a d : A) (l : list A) :
  List.last (a :: l) d = List.last l a.
Proof. destruct l as [|x l]; [done|]. apply (last_default x d a l). Qed.

(** The turns of the entries [todo] that follow the task [p], whose budget
    is used up.  [seen ++ p :: todo] lists the queue in the order in which
    the scheduler walks it. *)
Lemma rotation_run fl todo : forall seen p cp w,
  NoDup (seen ++ p :: todo) ->
  (forall y, loop_next (tasklist w) y = loop_next (seen ++ p :: todo) y) ->
  (forall y, y ∈ seen ++ p :: todo -> y ∈ tasklist w) ->
  all_ready w -> current_entry w = Entry p ->
  heap w !! p = Some cp -> switch_counter cp < 0 ->
  exists w' cq,
    repeat_select fl (length todo * turn_length (max_events fl)) (Entry p) w =
    Ret (flat_map (fun a => replicate (turn_length (max_events fl)) (Entry a))
           todo, w') /\
    tasklist w' = tasklist w /\ all_ready w' /\
    current_entry w' = Entry (List.last todo p) /\
    heap w' !! List.last todo p = Some cq /\ switch_counter cq < 0.
Proof.
  induction todo as [|a todo IH];
    intros seen p cp w Hnd Hnext Hmem Hready Hcur Hcp Hneg.
  - by exists w, cp.
  - assert (Hsplit : (p ∉ seen) /\ a <> p).
    { apply NoDup_app in Hnd as (_ & Hdisj & Hpost). split.
      - intros H. apply (Hdisj p H). by apply elem_of_cons; left.
      - apply NoDup_cons in Hpost as [Hnot _]. intros ->. apply Hnot.
        by apply elem_of_cons; left. }
    destruct Hsplit as (Hnotseen & Hne).
    assert (Hnx : loop_next (tasklist w) p = Some a).
    { rewrite Hnext. by apply loop_next_middle. }
    assert (Hpin : p ∈ tasklist w).
    { apply Hmem, elem_of_app; right. by apply elem_of_cons; left. }
    assert (Hain : a ∈ tasklist w).
    { apply Hmem, elem_of_app; right. apply elem_of_cons; right.
      by apply elem_of_cons; left. }
    destruct (turn_from fl p cp a w Hready Hcur Hcp Hneg Hpin Hnx Hne Hain)
      as (w1 & c1 & Hrun1 & Hl1 & Hready1 & Hcur1 & Hc1 & Hneg1).
    destruct (IH (seen ++ [p]) a c1 w1)
      as (w' & cq & Hrun' & Hl' & Hready' & Hcur' & Hcq & Hnegq); try done.
    { by rewrite <- app_assoc. }
    { intros y. rewrite Hl1, Hnext. by rewrite <- app_assoc. }
    { intros y Hy. rewrite Hl1. apply Hmem. by rewrite <- app_assoc in Hy. }
    exists w', cq. rewrite last_cons.
    split; [|by rewrite Hl', Hl1].
    simpl. eapply repeat_select_app; [exact Hrun1|].
    by rewrite last_turn.
Qed.

Lemma flat_map_snoc {A B} (f : A -> list B) (l : list A) (x : A) :
  flat_map f (l ++ [x]) = flat_map f l ++ f x.
Proof. rewrite flat_map_app. simpl. by rewrite app_nil_r. Qed.

Lemma last_app_nonempty {A} (l1 l2 : list A) (x d : A) :
  List.last (l1 ++ x :: l2) d = List.last (x :: l2) d.
Proof.
  induction l1 as [|y l1 IH]; [done|].
  rewrite <- IH. simpl. by destruct (l1 ++ x :: l2) eqn:E; [destruct l1|].
Qed.

Lemma last_turns m (l : list addr) (q : addr) (d : eptr) :
  List.last
    (flat_map (fun a => replicate (turn_length m) (Entry a)) (l ++ [q])) d =
  Entry q.
Proof.
  rewrite flat_map_snoc, (turn_length_pos m). simpl.
  rewrite last_app_nonempty. apply (last_replicate _ (Entry q)).
Qed.

(** One revolution entered from the task [p], whose budget is used up: the
    other tasks get their turns in walking order, then [p] gets its own. *)
Lemma revolution_from fl p cp rest w :
  NoDup (p :: rest) -> rest <> [] ->
  (forall y, loop_next (tasklist w) y = loop_next (p :: rest) y) ->
  (forall y, y ∈ p :: rest -> y ∈ tasklist w) ->
  all_ready w -> current_entry w = Entry p ->
  heap w !! p = Some cp -> switch_counter cp < 0 ->
  exists w' cp',
    repeat_select fl (S (length rest) * turn_length (max_events fl))
      (Entry p) w =
    Ret (flat_map (fun a => replicate (turn_length (max_events fl)) (Entry a))
           (rest ++ [p]), w') /\
    tasklist w' = tasklist w /\ all_ready w' /\
    current_entry w' = Entry p /\
    heap w' !! p = Some cp' /\ switch_counter cp' < 0.
Proof.
  intros Hnd Hrest Hnext Hmem Hready Hcur Hcp Hneg.
  destruct (rotation_run fl rest [] p cp w)
    as (w1 & cq & Hrun1 & Hl1 & Hready1 & Hcur1 & Hcq & Hnegq); try done.
  destruct (exists_last Hrest) as (rest0 & q & ->).
  rewrite last_last in Hcur1, Hcq.
  assert (Hq : (q ∉ p :: rest0) /\ p <> q).
  { change (p :: rest0 ++ [q]) with ((p :: rest0) ++ [q]) in Hnd.
    apply NoDup_app in Hnd as (_ & Hdisj & _). split.
    - intros H. apply (Hdisj q H). by apply elem_of_cons; left.
    - intros ->. apply (Hdisj q); by apply elem_of_cons; left. }
  destruct Hq as [Hqnot Hpq].
  assert (Hnx : loop_next (tasklist w1) q = Some p).
  { rewrite Hl1, Hnext.
    change (p :: rest0 ++ [q]) with ((p :: rest0) ++ [q]).
    by rewrite loop_next_split. }
  assert (Hqin : q ∈ tasklist w1).
  { rewrite Hl1. apply Hmem. apply elem_of_cons; right.
    apply elem_of_app; right. by apply elem_of_cons; left. }
  assert (Hpin : p ∈ tasklist w1).
  { rewrite Hl1. apply Hmem. by apply elem_of_cons; left. }
  destruct (turn_from fl q cq p w1 Hready1 Hcur1 Hcq Hnegq Hqin Hnx Hpq Hpin)
    as (w2 & c2 & Hrun2 & Hl2 & Hready2 & Hcur2 & Hc2 & Hneg2).
  exists w2, c2. split; [|by rewrite Hl2, Hl1].
  rewrite flat_map_snoc.
  replace (S (length (rest0 ++ [q])) * turn_length (max_events fl))%nat
    with (length (rest0 ++ [q]) * turn_length (max_events fl)
          + turn_length (max_events fl))%nat by lia.
  eapply repeat_select_app; [exact Hrun1|].
  by rewrite last_turns.
Qed.

Lemma revolutions_from fl p rest k : forall cp w,
  NoDup (p :: rest) -> rest <> [] ->
  (forall y, loop_next (tasklist w) y = loop_next (p :: rest) y) ->
  (forall y, y ∈ p :: rest -> y ∈ tasklist w) ->
  all_ready w -> current_entry w = Entry p ->
  heap w !! p = Some cp -> switch_counter cp < 0 ->
  exists w',
    repeat_select fl
      (k * (S (length rest) * turn_length (max_events fl))) (Entry p) w =
    Ret (concat
           (replicate k
              (flat_map
                 (fun a => replicate (turn_length (max_events fl)) (Entry a))
                 (rest ++ [p]))), w').
Proof.
  induction k as [|k IH]; intros cp w Hnd Hrest Hnext Hmem Hready Hcur Hcp Hneg.
  - by exists w.
  - destruct (revolution_from fl p cp rest w)
      as (w1 & c1 & Hrun1 & Hl1 & Hready1 & Hcur1 & Hc1 & Hneg1); try done.
    destruct (IH c1 w1) as (w' & Hrun'); try done.
    { intros y. by rewrite Hl1. }
    { intros y Hy. rewrite Hl1. by apply Hmem. }
    exists w'. simpl.
    eapply repeat_select_app; [exact Hrun1|].
    by rewrite last_turns.
Qed.

(** C5 (amended): with at least two queued tasks, none inside a system call
    and all switchable, repeated calls that pass on the context returned by
    the previous call keep returning the same task until its budget has gone
    negative ([max_events + 2] calls in a row, a single one when
    [max_events] is negative) and only then move to the next entry.  With
    the cursor standing on (or bootstrapped to) [e], each revolution of
    [N * turn_length] calls returns every task, in queue order from [e],
    [turn_length] times in a row: every task has had its turn before any
    task gets another one. *)
Theorem turns_rotate_in_queue_order fl w pre e post k :
  tasklist w = pre ++ e :: post ->
  (2 <= length (tasklist w))%nat -> NoDup (tasklist w) -> all_ready w ->
  bootstrapped w = Entry e ->
  exists w',
    repeat_select fl
      (k * (length (tasklist w) * turn_length (max_events fl))) Null w =
    Ret (concat
           (replicate k
              (flat_map
                 (fun a => replicate (turn_length (max_events fl)) (Entry a))
                 (e :: post ++ pre))), w').
Proof.
  intros Hl Hlen Hnd Hready Hb.
  destruct k as [|k]; [by exists w|].
  set (rest := post ++ pre).
  assert (Hnd' : NoDup (e :: rest)).
  { rewrite Hl in Hnd. unfold rest.
    by rewrite (Permutation_app_comm pre (e :: post)) in Hnd. }
  assert (Hnext : forall y, loop_next (tasklist w) y = loop_next (e :: rest) y).
  { intros y. rewrite Hl. rewrite Hl in Hnd.
    by rewrite (loop_next_rotate pre (e :: post) y Hnd). }
  assert (Hmem : forall y, y ∈ e :: rest -> y ∈ tasklist w).
  { intros y. rewrite Hl. unfold rest.
    rewrite (Permutation_app_comm pre (e :: post)). done. }
  assert (Hrest : rest <> []).
  { intros Hnil. rewrite Hl, length_app in Hlen. simpl in Hlen.
    unfold rest in Hnil. apply app_eq_nil in Hnil as [-> ->].
    simpl in Hlen. lia. }
  assert (Hlength : length (tasklist w) = S (length rest)).
  { rewrite Hl. unfold rest. rewrite !length_app. simpl. lia. }
  assert (Hein : e ∈ tasklist w) by (apply Hmem; by apply elem_of_cons; left).
  destruct (turn_first fl e w Hready Hb Hein)
    as (w1 & c1 & Hrun1 & Hl1 & Hready1 & Hcur1 & Hc1 & Hneg1).
  destruct (rotation_run fl rest [] e c1 w1)
    as (w2 & cq & Hrun2 & Hl2 & Hready2 & Hcur2 & Hcq & Hnegq); try done.
  { intros y. by rewrite Hl1. }
  { intros y Hy. rewrite Hl1. by apply Hmem. }
  destruct (exists_last Hrest) as (rest0 & q & Hq).
  rewrite Hq, last_last in Hcur2, Hcq.
  assert (Hnd'' : NoDup (q :: e :: rest0)).
  { rewrite Hq in Hnd'.
    change (e :: rest0 ++ [q]) with ((e :: rest0) ++ [q]) in Hnd'.
    by rewrite (Permutation_app_comm (e :: rest0) [q]) in Hnd'. }
  destruct (revolutions_from fl q (e :: rest0) k cq w2)
    as (w' & Hrun'); try done.
  { intros y. rewrite Hl2, Hl1, Hnext, Hq.
    change (e :: rest0 ++ [q]) with ((e :: rest0) ++ [q]).
    rewrite loop_next_rotate; [done|].
    by rewrite (Permutation_app_comm (e :: rest0) [q]). }
  { intros y Hy. rewrite Hl2, Hl1. apply Hmem. rewrite Hq.
    change (e :: rest0 ++ [q]) with ((e :: rest0) ++ [q]).
    by rewrite (Permutation_app_comm (e :: rest0) [q]). }
  exists w'.
  assert (Hpattern : e :: rest = (e :: rest0) ++ [q]) by (by rewrite Hq).
  fold rest. rewrite Hpattern.
  replace (S k * (length (tasklist w) * turn_length (max_events fl)))%nat
    with (turn_length (max_events fl)
          + (length rest * turn_length (max_events fl)
             + k * (S (length (e :: rest0))
                    * turn_length (max_events fl))))%nat.
  2:{ rewrite Hlength, Hq. simpl. rewrite length_app. simpl. lia. }
  change (concat (replicate (S k) ?x)) with (x ++ concat (replicate k x)).
  rewrite <- Hpattern at 1.
  change (flat_map ?f (e :: rest)) with (f e ++ flat_map f rest).
  rewrite <- !app_assoc.
  eapply repeat_select_app; [exact Hrun1|].
  rewrite last_turn.
  eapply repeat_select_app; [exact Hrun2|].
  rewrite Hq, last_turns. exact Hrun'.
Qed.

(** *** Dependence on addresses and on the wait backend *)

Lemma same_scheduler_state_refl w : same_scheduler_state w w.
Proof. by repeat split. Qed.

Section Renaming.

(** Entries may lie at any addresses, as long as distinct entries lie at
    distinct ones. *)
Variable ren : addr -> addr.
Hypothesis ren_inj : Inj (=) (=) ren.

(** The renaming of the results of the scan, [(next_ctx, entry, *by_waitpid)],
    and of the call, [(context, *by_waitpid)]. *)
Local Abbreviation rho3 := (prod_map (prod_map (rename ren) (rename ren)) id).
Local Abbreviation rho2 := (prod_map (rename ren) id).

Ltac unid :=
  repeat match goal with |- context [id ?x] => change (id x) with x end.

Lemma rename_inj p q : rename ren p = rename ren q -> p = q.
Proof.
  destruct p as [| |a], q as [| |b]; simpl; try done.
  intros [= H]. by rewrite (ren_inj _ _ H).
Qed.

Lemma rename_is_null p : is_null (rename ren p) = is_null p.
Proof. by destruct p. Qed.

Lemma succ_in_rename first l a :
  succ_in (ren first) (ren <$> l) (ren a) = ren <$> succ_in first l a.
Proof.
  induction l as [|x l IH]; [done|]. cbn [fmap list_fmap succ_in].
  destruct (decide (x = a)) as [->|Hne].
  - rewrite decide_True by done. by destruct l.
  - rewrite decide_False; [apply IH|]. intros H. by apply ren_inj in H.
Qed.

Lemma loop_next_rename l a :
  loop_next (ren <$> l) (ren a) = ren <$> loop_next l a.
Proof. destruct l as [|f l]; [done|]. apply (succ_in_rename f (f :: l)). Qed.

Lemma reproduces_ret {A} (rho : A -> A) (a : A) :
  reproduces ren rho (ret a) (ret (rho a)).
Proof.
  intros w1 a' w1' [= <- <-]. exists [], [], [].
  split; [done|]. split; [done|]. split; [by rewrite app_nil_r|].
  intros w2 r s Hs Hr Hw. exists w2. simpl in Hr, Hw.
  by rewrite app_nil_r.
Qed.

Lemma reproduces_fail {A} (rho : A -> A) (m1 m2 : M A) :
  (forall w r, m1 w <> Ret r) -> reproduces ren rho m1 m2.
Proof. intros H w1 a w1' Hm. by apply H in Hm. Qed.

Lemma reproduces_bind {A B} (rho : A -> A) (sigma : B -> B)
    (m1 m2 : M A) (k1 k2 : A -> M B) :
  reproduces ren rho m1 m2 ->
  (forall a, reproduces ren sigma (k1 a) (k2 (rho a))) ->
  reproduces ren sigma (bind m1 k1) (bind m2 k2).
Proof.
  intros Hm Hk w1 b w1' Hrun.
  apply bind_Ret_inv in Hrun as (a & wa & Hma & Hka).
  destruct (Hm _ _ _ Hma) as (p1 & q1 & t1 & Hp1 & Hq1 & Ht1 & Hsim1).
  destruct (Hk a _ _ _ Hka) as (p2 & q2 & t2 & Hp2 & Hq2 & Ht2 & Hsim2).
  exists (p1 ++ p2), (q1 ++ q2), (t1 ++ t2).
  split; [by rewrite <- app_assoc, <- Hp2|].
  split; [by rewrite <- app_assoc, <- Hq2|].
  split; [by rewrite Ht2, Ht1, app_assoc|].
  intros w2 r s Hs Hr Hw. rewrite <- app_assoc in Hr, Hw.
  destruct (Hsim1 w2 _ _ Hs Hr Hw) as (wa2 & Hma2 & Hsa & Hra & Hwa & Hta).
  destruct (Hsim2 wa2 r s Hsa Hra Hwa)
    as (w2' & Hka2 & Hs' & Hr' & Hw' & Ht').
  exists w2'. split; [by rewrite (bind_Ret _ _ _ _ _ Hma2)|].
  do 3 (split; [done|]). by rewrite Ht', Hta, app_assoc.
Qed.

Lemma reproduces_gets {A} (rho : A -> A) (f : world -> A) :
  (forall w1 w2, same_up_to_addresses ren w1 w2 -> f w2 = rho (f w1)) ->
  reproduces ren rho (gets f) (gets f).
Proof.
  intros Hf w1 a w1' [= <- <-]. exists [], [], [].
  split; [done|]. split; [done|]. split; [by rewrite app_nil_r|].
  intros w2 r s Hs Hr Hw. exists w2. unfold gets. simpl in Hr, Hw.
  rewrite (Hf _ _ Hs). by rewrite app_nil_r.
Qed.

Lemma reproduces_modify (f1 f2 : world -> world) :
  (forall w1 w2, same_up_to_addresses ren w1 w2 ->
                 same_up_to_addresses ren (f1 w1) (f2 w2)) ->
  (forall w, nonblock_script (f1 w) = nonblock_script w /\
             waitpid_script (f1 w) = waitpid_script w /\
             trace (f1 w) = trace w) ->
  (forall w, nonblock_script (f2 w) = nonblock_script w /\
             waitpid_script (f2 w) = waitpid_script w /\
             trace (f2 w) = trace w) ->
  reproduces ren id (modify f1) (modify f2).
Proof.
  intros Hf H1 H2 w1 a w1' [= <- <-]. exists [], [], [].
  destruct (H1 w1) as (-> & -> & ->).
  split; [done|]. split; [done|]. split; [by rewrite app_nil_r|].
  intros w2 r s Hs Hr Hw. exists (f2 w2).
  destruct (H2 w2) as (-> & -> & ->).
  split; [done|]. split; [by apply Hf|]. by rewrite app_nil_r.
Qed.

Lemma reproduces_load p : reproduces ren id (load p) (load (rename ren p)).
Proof.
  intros w1 c w1' Hl. apply load_Ret_inv in Hl as (a & -> & Ha & ->).
  exists [], [], [].
  split; [done|]. split; [done|]. split; [by rewrite app_nil_r|].
  intros w2 r s Hs Hr Hw. exists w2. simpl in Hr, Hw.
  split; [|by rewrite app_nil_r]. apply load_Entry.
  destruct Hs as (_ & Hh & _). by rewrite Hh.
Qed.

Lemma reproduces_store p f :
  reproduces ren id (store p f) (store (rename ren p) f).
Proof.
  unfold store. apply (reproduces_bind id); [apply reproduces_load|].
  intros c. unid. destruct p as [| |a]; try by apply reproduces_fail.
  apply reproduces_modify; [|done..].
  intros w1 w2 (Hl & Hh & Hi & Hc & Hn). repeat split; try done.
  intros x. wsimpl. destruct (decide (x = a)) as [->|Hne].
  - by rewrite !lookup_insert_eq.
  - rewrite !lookup_insert_ne; [apply Hh|done|].
    intros H. by apply ren_inj in H.
Qed.

Lemma reproduces_set_cursor p :
  reproduces ren id (modify (with_current_entry p))
    (modify (with_current_entry (rename ren p))).
Proof.
  apply reproduces_modify; [|done..].
  by intros w1 w2 (Hl & Hh & Hi & Hc & Hn).
Qed.

Lemma reproduces_next_entry elt :
  reproduces ren (rename ren) (next_entry elt) (next_entry (rename ren elt)).
Proof.
  intros w1 e w1' Hrun. unfold next_entry in Hrun.
  destruct elt as [| |a]; try done.
  destruct (loop_next (tasklist w1) a) as [b|] eqn:Hnx; [|done].
  injection Hrun as <- <-. exists [], [], [].
  split; [done|]. split; [done|]. split; [by rewrite app_nil_r|].
  intros w2 r s Hs Hr Hw. exists w2. simpl in Hr, Hw.
  split; [|by rewrite app_nil_r].
  destruct Hs as (Hl & _). unfold next_entry. cbn [rename].
  by rewrite Hl, loop_next_rename, Hnx.
Qed.

Lemma reproduces_get_entry t :
  reproduces ren (rename ren) (get_entry t) (get_entry t).
Proof.
  intros w1 e w1' Hrun. unfold get_entry in Hrun.
  destruct (bool_decide (0 <= t < MAX_TID)) eqn:Hrange; [|done].
  apply bool_decide_eq_true_1 in Hrange.
  injection Hrun as <- <-. exists [], [], [].
  split; [done|]. split; [done|]. split; [by rewrite app_nil_r|].
  intros w2 r s Hs Hr Hw. exists w2. simpl in Hr, Hw.
  split; [|by rewrite app_nil_r].
  destruct Hs as (_ & _ & Hi & _). rewrite get_entry_in_range by done.
  rewrite Hi. by destruct (tid_to_entry w1 !! t).
Qed.

Lemma reproduces_int_pred x : reproduces ren id (int_pred x) (int_pred x).
Proof.
  unfold int_pred. destruct (decide (x = INT_MIN)).
  - by apply reproduces_fail.
  - apply (reproduces_ret id).
Qed.

Lemma reproduces_poll t : reproduces ren id (poll_answer t) (poll_answer t).
Proof.
  intros w1 a w1' Hrun. unfold poll_answer in Hrun.
  destruct (nonblock_script w1) as [|answer rest] eqn:Hscr; [done|].
  injection Hrun as <- <-. exists [answer], [], [EvWaitpidNonblock t answer].
  wsimpl. do 3 (split; [done|]).
  intros w2 r s Hs Hr Hw. eexists. unfold poll_answer. rewrite Hr. simpl.
  split; [reflexivity|]. wsimpl. split; [|done].
  by destruct Hs as (Hl & Hh & Hi & Hc & Hn).
Qed.

Lemma reproduces_sys_waitpid_nonblock t p :
  reproduces ren id (sys_waitpid_nonblock t p)
    (sys_waitpid_nonblock t (rename ren p)).
Proof.
  unfold sys_waitpid_nonblock.
  apply (reproduces_bind id); [apply reproduces_poll|].
  intros [st|]; [|apply (reproduces_ret id)]. unid.
  apply (reproduces_bind id); [apply reproduces_store|].
  intros _. unid. apply (reproduces_ret id).
Qed.

Lemma waitpid_retry_prefix script tr t st rest tr' :
  waitpid_retry script tr = Ret (t, st, rest, tr') ->
  exists q asked,
    script = q ++ rest /\ tr' = tr ++ asked /\
    forall s tr2, waitpid_retry (q ++ s) tr2 = Ret (t, st, s, tr2 ++ asked).
Proof.
  revert tr. induction script as [|answer script IH]; intros tr; simpl; [done|].
  destruct (decide (wait_ret answer = -1)) as [Hfail|Hok].
  - destruct (decide (wait_errno answer = EINTR)) as [Hintr|]; [|done].
    intros Hrun. destruct (IH _ Hrun) as (q & asked & -> & -> & Hq).
    exists (answer :: q), (EvWaitpid answer :: asked).
    split; [done|]. split; [by rewrite <- app_assoc|].
    intros s tr2. simpl. rewrite decide_True by done.
    rewrite decide_True by done. rewrite Hq. by rewrite <- app_assoc.
  - intros [= <- <- <- <-]. exists [answer], [EvWaitpid answer].
    split; [done|]. split; [done|].
    intros s tr2. simpl. by rewrite decide_False by done.
Qed.

Lemma reproduces_wait_for_any : reproduces ren id wait_for_any wait_for_any.
Proof.
  intros w1 [t st] w1' Hrun. unfold wait_for_any in Hrun.
  destruct (waitpid_retry (waitpid_script w1) (trace w1))
    as [[[[t0 st0] rest] tr']| | | |] eqn:Hretry; try done.
  injection Hrun as <- <- <-.
  destruct (waitpid_retry_prefix _ _ _ _ _ _ Hretry)
    as (q & asked & Hq & Htr & Hany).
  exists [], q, asked. wsimpl. do 3 (split; [done|]).
  intros w2 r s Hs Hr Hw.
  eexists. unfold wait_for_any. rewrite Hw, Hany.
  split; [reflexivity|]. wsimpl. split; [|done].
  by destruct Hs as (Hl & Hh & Hi & Hc & Hn).
Qed.

Lemma reproduces_note_switch prev ctx m :
  reproduces ren id (note_switch prev ctx m)
    (note_switch (rename ren prev) (rename ren ctx) m).
Proof.
  unfold note_switch. destruct (decide (prev = ctx)) as [->|Hne].
  - rewrite decide_True by done.
    apply (reproduces_bind id); [apply reproduces_load|]. intros c. unid.
    apply (reproduces_bind id); [apply reproduces_int_pred|]. intros v. unid.
    apply reproduces_store.
  - rewrite decide_False; [apply reproduces_store|].
    intros H. by apply rename_inj in H.
Qed.

Lemma reproduces_gets_cursor :
  reproduces ren (rename ren) (gets current_entry) (gets current_entry).
Proof.
  apply reproduces_gets. by intros w1 w2 (Hl & Hh & Hi & Hc & Hn).
Qed.

Lemma reproduces_first :
  reproduces ren (rename ren) CIRCLEQ_FIRST CIRCLEQ_FIRST.
Proof.
  apply reproduces_gets. intros w1 w2 (Hl & _). rewrite Hl.
  by destruct (tasklist w1).
Qed.

Lemma reproduces_bootstrap :
  reproduces ren (rename ren) bootstrap_cursor bootstrap_cursor.
Proof.
  unfold bootstrap_cursor.
  apply (reproduces_bind (rename ren)); [apply reproduces_gets_cursor|].
  intros entry. rewrite rename_is_null.
  destruct (is_null entry); [|apply reproduces_ret].
  apply (reproduces_bind (rename ren)); [apply reproduces_first|].
  intros first.
  apply (reproduces_bind id); [apply reproduces_set_cursor|].
  intros _. unid. apply reproduces_ret.
Qed.

Lemma reproduces_unswitchable ctx :
  reproduces ren id (unswitchable ctx) (unswitchable (rename ren ctx)).
Proof.
  unfold unswitchable. rewrite rename_is_null.
  destruct (is_null ctx); [apply (reproduces_ret id)|].
  apply (reproduces_bind id); [apply reproduces_load|].
  intros c. unid. apply (reproduces_ret id).
Qed.

Lemma reproduces_prefer_next ctx entry m :
  reproduces ren (rename ren) (prefer_next ctx entry m)
    (prefer_next (rename ren ctx) (rename ren entry) m).
Proof.
  unfold prefer_next. apply (reproduces_bind id).
  - rewrite rename_is_null.
    destruct (is_null ctx); [apply (reproduces_ret id)|].
    apply (reproduces_bind id); [apply reproduces_load|].
    intros c. unid. apply (reproduces_ret id).
  - intros [|]; [|apply reproduces_ret].
    apply (reproduces_bind (rename ren)); [apply reproduces_next_entry|].
    intros e.
    apply (reproduces_bind id); [apply reproduces_set_cursor|]. intros _. unid.
    apply (reproduces_bind id); [apply reproduces_store|]. intros _. unid.
    apply reproduces_ret.
Qed.

Lemma reproduces_scan_ring fuel : forall entry,
  reproduces ren rho3
    (scan_ring fuel entry) (scan_ring fuel (rename ren entry)).
Proof.
  induction fuel as [|fuel IH]; intros entry; cbn [scan_ring]; unfold ctx_of.
  - by apply reproduces_fail.
  - apply (reproduces_bind id); [apply reproduces_load|]. intros c. unid.
    destruct (negb (bool_decide (exec_state c = PROCESSING_SYSCALL)));
      [apply (reproduces_ret rho3 (entry, entry, 0))|].
    apply (reproduces_bind id); [apply reproduces_sys_waitpid_nonblock|].
    intros r. unid. destruct (negb (bool_decide (r = 0)));
      [apply (reproduces_ret rho3 (entry, entry, 1))|].
    apply (reproduces_bind (rename ren)); [apply reproduces_next_entry|].
    intros e.
    apply (reproduces_bind (rename ren)); [apply reproduces_gets_cursor|].
    intros cur. destruct (decide (e = cur)) as [->|Hne].
    + rewrite decide_True by done. apply (reproduces_ret rho3 (Null, cur, 0)).
    + rewrite decide_False; [apply IH|].
      intros H. by apply rename_inj in H.
Qed.

Lemma reproduces_find_runnable entry :
  reproduces ren rho3
    (find_runnable entry) (find_runnable (rename ren entry)).
Proof.
  unfold find_runnable, scan_once.
  apply (reproduces_bind rho3).
  - apply (reproduces_bind id).
    + apply reproduces_gets. intros w1 w2 (Hl & _).
      by rewrite Hl, length_fmap.
    + intros len. apply reproduces_scan_ring.
  - intros [[next_ctx e] by_w]. unfold wait_fallback.
    cbn [prod_map fst snd]. rewrite rename_is_null.
    destruct (is_null next_ctx);
      [|apply (reproduces_ret rho3 (next_ctx, e, by_w))].
    apply (reproduces_bind id); [apply reproduces_wait_for_any|].
    intros [t st]. unid.
    apply (reproduces_bind (rename ren)); [apply reproduces_get_entry|].
    intros e'. unfold ctx_of.
    apply (reproduces_bind id); [apply reproduces_store|]. intros _. unid.
    apply (reproduces_ret rho3 (e', e', 1)).
Qed.

Lemma reproduces_select fl ctx :
  reproduces ren rho2
    (rec_sched_get_active_thread fl ctx)
    (rec_sched_get_active_thread fl (rename ren ctx)).
Proof.
  unfold rec_sched_get_active_thread.
  apply (reproduces_bind (rename ren)); [apply reproduces_bootstrap|].
  intros entry.
  apply (reproduces_bind id); [apply reproduces_unswitchable|].
  intros [|]; [apply (reproduces_ret rho2 (ctx, 0))|]. unid.
  apply (reproduces_bind rho3).
  - unfold choose_next.
    apply (reproduces_bind (rename ren)); [apply reproduces_prefer_next|].
    intros e. apply reproduces_find_runnable.
  - intros [[next_ctx e] by_w]. unfold commit. cbn [prod_map fst snd].
    apply (reproduces_bind id); [apply reproduces_set_cursor|]. intros _. unid.
    apply (reproduces_bind id); [apply reproduces_note_switch|]. intros _. unid.
    apply (reproduces_ret rho2 (next_ctx, by_w)).
Qed.

(** C9: the selection depends on the scheduler state and on the answers of
    the wait backend only, not on the addresses at which the entries lie,
    on the past or on answers still to come.  Let two calls start from
    states that hold the same scheduler state (the same records queued in
    the same order, the same index, the cursor on the same task, the same
    count) at addresses related by an injective renaming, with the current
    context renamed alike, and let the wait backend give the second call
    the answers the first one consumes ([p] to the non-blocking polls, [q]
    to the blocking waits).  Then the second call returns the same task
    (the renamed context) and the same [*by_waitpid], asks the outside world
    the same questions in the same order, consumes the same answers and
    leaves the same scheduler state at the renamed addresses. *)
Theorem select_next_deterministic fl ctx w1 w2 chosen by_w w1' p q r s :
  same_up_to_addresses ren w1 w2 ->
  rec_sched_get_active_thread fl ctx w1 = Ret ((chosen, by_w), w1') ->
  nonblock_script w1 = p ++ nonblock_script w1' ->
  waitpid_script w1 = q ++ waitpid_script w1' ->
  nonblock_script w2 = p ++ r ->
  waitpid_script w2 = q ++ s ->
  exists w2' asked,
    rec_sched_get_active_thread fl (rename ren ctx) w2 =
      Ret ((rename ren chosen, by_w), w2') /\
    same_up_to_addresses ren w1' w2' /\
    nonblock_script w2' = r /\ waitpid_script w2' = s /\
    trace w1' = trace w1 ++ asked /\ trace w2' = trace w2 ++ asked.
Proof.
  intros Hs Hrun Hp Hq Hr Hw.
  destruct (reproduces_select fl ctx _ _ _ Hrun)
    as (p0 & q0 & asked & Hp0 & Hq0 & Ht0 & Hsim).
  assert (p0 = p) as -> by (rewrite Hp in Hp0; by apply app_inv_tail in Hp0).
  assert (q0 = q) as -> by (rewrite Hq in Hq0; by apply app_inv_tail in Hq0).
  destruct (Hsim w2 r s Hs Hr Hw) as (w2' & Hrun2 & Hs' & Hr' & Hw' & Ht').
  by exists w2', asked.
Qed.

End Renaming.

(** Allocation, by contrast, does depend on the addresses in use: from two
    states without any entry, related by every renaming, [sys_malloc_zero]
    hands out the same address, which the renaming by [Pos.succ] does not
    relate to itself. *)
Remark allocation_depends_on_addresses :
  same_up_to_addresses Pos.succ (initial_world [] []) (initial_world [] []) /\
  exists a w1 w2,
    sys_malloc_zero (initial_world [] []) = Ret (a, w1) /\
    sys_malloc_zero (initial_world [] []) = Ret (a, w2) /\
    Entry a <> rename Pos.succ (Entry a) /\
    ~ same_up_to_addresses Pos.succ w1 w2.
Proof.
  split; [by repeat split|].
  eexists _, _, _. split; [reflexivity|]. split; [reflexivity|].
  split.
  - vm_compute. discriminate.
  - intros (_ & Hh & _). specialize (Hh 1%positive).
    revert Hh. vm_compute. discriminate.
Qed.

(** C6: deregistering the task under the cursor moves the cursor to the
    entry linked after it before the entry is unlinked; when the task is
    the only one queued the cursor ends up null, and then registering a new
    task and calling [rec_sched_get_active_thread] without a current
    context returns the new task. *)
Theorem deregister_cursor_task w a c :
  consistent w -> current_entry w = Entry a -> heap w !! a = Some c ->
  exists nxt w',
    loop_next (tasklist w) a = Some nxt /\
    rec_sched_deregister_thread (Entry a) w = Ret (Null, w') /\
    (nxt <> a -> current_entry w' = Entry nxt /\ nxt ∈ tasklist w') /\
    (tasklist w = [a] ->
     current_entry w' = Null /\ tasklist w' = [] /\
     forall fl fl' child, 0 < child < MAX_TID ->
       exists b cb w'',
         (rec_sched_register_thread fl 0 child ;;
          rec_sched_get_active_thread fl' Null) w' = Ret ((Entry b, 0), w'') /\
         tasklist w'' = [b] /\ heap w'' !! b = Some cb /\ tid cb = child /\
         current_entry w'' = Entry b).
Proof.
  intros Hc Hcur Hh.
  destruct (deregister_consistent_run a c w Hc Hh)
    as (rest & nxt & Hun & Hnx & Hrun & Hc').
  exists nxt, (deregistered a c rest nxt w).
  split; [done|]. split; [done|].
  assert (Hcursor : current_entry (deregistered a c rest nxt w) =
                    if decide (nxt = a) then Null else Entry nxt).
  { unfold deregistered. cbn [current_entry]. by rewrite decide_True. }
  split.
  - intros Hne. rewrite decide_False in Hcursor by done. split; [done|].
    destruct (cons_cursor _ Hc') as [H|(b & Hb & Hin)]; [congruence|].
    congruence.
  - intros Hsole. rewrite Hsole in Hnx, Hun.
    rewrite loop_next_single in Hnx. injection Hnx as <-.
    simpl in Hun. rewrite decide_True in Hun by done. injection Hun as <-.
    rewrite decide_True in Hcursor by done.
    split; [done|]. split; [done|].
    intros fl fl' child Hchild.
    set (w' := deregistered a c [] a w) in *.
    destruct (consistent_empty w' Hc' eq_refl) as (Hheap & Hidx & _ & _).
    destruct (register_consistent_run fl 0 child w' Hc' Hchild)
      as (ls & le & Hreg & Hc2); [by rewrite Hidx, lookup_empty|by left|].
    rewrite (bind_Ret _ _ _ _ _ Hreg).
    set (b := fresh (dom (heap w'))).
    exists b, (set_switch_counter (max_events fl') (new_context child ls le)).
    eexists.
    split.
    + apply (select_null_ready fl' b (new_context child ls le)).
      * unfold bootstrapped, registered. cbn [current_entry tasklist].
        by rewrite Hcursor.
      * unfold registered. cbn [heap]. apply lookup_insert_eq.
      * done.
    + wsimpl. unfold registered. cbn [tasklist heap].
      split; [done|]. split; [apply lookup_insert_eq|]. done.
Qed.

(** C2: a call with a supplied context whose [switchable] member is 0
    returns that context with [*by_waitpid = 0]; no record is changed, no
    answer of the wait backend is consumed, nothing is asked of the outside
    world, whatever the queue holds.  Only the cursor bootstrap, which
    precedes the test, may have run. *)
Theorem unswitchable_short_circuit fl a c w :
  heap w !! a = Some c ->
  switchable c = 0 ->
  exists w',
    rec_sched_get_active_thread fl (Entry a) w = Ret ((Entry a, 0), w') /\
    heap w' = heap w /\ tasklist w' = tasklist w /\
    tid_to_entry w' = tid_to_entry w /\
    num_active_threads w' = num_active_threads w /\
    nonblock_script w' = nonblock_script w /\
    waitpid_script w' = waitpid_script w /\
    trace w' = trace w /\
    current_entry w' = bootstrapped w.
Proof.
  intros Hc Hs.
  unfold rec_sched_get_active_thread, bootstrap_cursor, unswitchable,
    CIRCLEQ_FIRST, bootstrapped, bind, gets, modify, ret, load.
  destruct (current_entry w) as [| |e] eqn:En; simpl;
    rewrite Hc, bool_decide_eq_true_2 by done;
    (eexists; split; [reflexivity|]); simpl; by rewrite ?En.
Qed.

(** C10: a registration that passes the assertion on [child] and names a
    non-zero parent whose lookup yields null reads the syscallbuf bounds
    through that null pointer: [get_task]'s null result is not tested. *)
Theorem register_unknown_parent_null_access fl parent child w :
  0 < child < MAX_TID ->
  parent <> 0 ->
  get_task parent w = Ret (Null, w) ->
  rec_sched_register_thread fl parent child w = Undef NullAccess.
Proof.
  intros Hchild Hp Hlook.
  assert (Hidx : bool_decide (0 <= parent < MAX_TID) = true /\
                 tid_to_entry w !! parent = None).
  { revert Hlook. unfold get_task, bind, get_entry.
    destruct (bool_decide (0 <= parent < MAX_TID)); [|discriminate].
    destruct (tid_to_entry w !! parent); [discriminate|done]. }
  destruct Hidx as [Hr Hn]. apply bool_decide_eq_true_1 in Hr.
  unfold rec_sched_register_thread.
  unfold sys_malloc_zero at 1. unfold bind at 1. wsimpl.
  unfold sys_open_child_mem.
  msteps.
  destruct (decide (parent = 0)); [done|].
  unfold get_task. msteps. rewrite Hn. msteps. done.
Qed.

(** ** Further properties of registration and deregistration *)

Lemma register_run fl parent child w :
  0 < child < MAX_TID ->
  num_active_threads w <> INT_MAX ->
  parent = 0 \/
  (0 <= parent < MAX_TID /\
   exists pa pc, tid_to_entry w !! parent = Some pa /\ heap w !! pa = Some pc) ->
  exists k,
    rec_sched_register_thread fl parent child w =
      Ret (tt, registered fl child k.1 k.2 w) /\
    (parent = 0 -> k = (0, 0)) /\
    (parent <> 0 -> forall pa pc,
       tid_to_entry w !! parent = Some pa -> heap w !! pa = Some pc ->
       k = (syscallbuf_lib_start pc, syscallbuf_lib_end pc)).
Proof.
  intros Hchild Hcount Hparent.
  destruct (decide (parent = 0)) as [->|Hne].
  - exists (0, 0). split; [|by split].
    apply register_steps; [done..|]. by left.
  - destruct Hparent as [?|(Hr & pa & pc & Hi & Hpc)]; [done|].
    exists (syscallbuf_lib_start pc, syscallbuf_lib_end pc).
    split; [|split; [done|]].
    + apply register_steps; [done..|]. right. eauto 10.
    + intros _ pa' pc' Hi' Hpc'. congruence.
Qed.

Lemma fresh_entry_unallocated w : heap w !! fresh (dom (heap w)) = None.
Proof. apply not_elem_of_dom, is_fresh. Qed.

(** Registration followed by lookup: a registration with [child] within
    bounds returns, and then [get_task child] yields the new entry, which
    was not allocated before.  Its record is runnable with status 0, carries
    [child] in [tid] and [rec_tid], the descriptor of the child's memory,
    -1 in both desched descriptors, and is neither switchable nor has it a
    budget.  The entry is linked at the tail, the count is one more, the
    cursor stays, and the lookup of every other id and every other record
    are as before. *)
Theorem register_then_lookup fl parent child w :
  0 < child < MAX_TID ->
  num_active_threads w <> INT_MAX ->
  parent = 0 \/
  (0 <= parent < MAX_TID /\
   exists pa pc, tid_to_entry w !! parent = Some pa /\ heap w !! pa = Some pc) ->
  exists a c w',
    rec_sched_register_thread fl parent child w = Ret (tt, w') /\
    get_task child w' = Ret (Entry a, w') /\
    heap w !! a = None /\ heap w' !! a = Some c /\
    exec_state c = RUNNABLE /\ status c = 0 /\
    tid c = child /\ rec_tid c = child /\
    child_mem_fd c = child_mem_fd_of child /\
    desched_fd c = -1 /\ desched_fd_child c = -1 /\
    switchable c = 0 /\ switch_counter c = 0 /\
    tasklist w' = tasklist w ++ [a] /\
    rec_sched_get_num_threads w' = Ret (num_active_threads w + 1, w') /\
    current_entry w' = current_entry w /\
    (forall t, t <> child -> tid_to_entry w' !! t = tid_to_entry w !! t) /\
    (forall x, x <> a -> heap w' !! x = heap w !! x).
Proof.
  intros Hchild Hcount Hparent.
  destruct (register_run fl parent child w Hchild Hcount Hparent)
    as (k & Hrun & _).
  exists (fresh (dom (heap w))), (new_context child k.1 k.2),
    (registered fl child k.1 k.2 w).
  split; [done|]. split.
  { unfold get_task. rewrite bind_get_entry by lia.
    unfold registered. cbn [tid_to_entry]. by rewrite lookup_insert_eq. }
  split; [apply fresh_entry_unallocated|].
  split; [unfold registered; cbn [heap]; apply lookup_insert_eq|].
  do 9 (split; [done|]).
  split; [done|]. split; [done|]. split; [done|].
  split.
  - intros t Ht. unfold registered. cbn [tid_to_entry].
    by rewrite lookup_insert_ne.
  - intros x Hx. unfold registered. cbn [heap]. by rewrite lookup_insert_ne.
Qed.

(** The syscallbuf bounds of a new record: those of the parent's record when
    a parent is named, 0 (the zero fill) when [parent] is 0.  The parent's
    record is only read. *)
Theorem register_syscallbuf_bounds fl parent child w :
  0 < child < MAX_TID ->
  num_active_threads w <> INT_MAX ->
  parent = 0 \/
  (0 <= parent < MAX_TID /\
   exists pa pc, tid_to_entry w !! parent = Some pa /\ heap w !! pa = Some pc) ->
  exists a c w',
    rec_sched_register_thread fl parent child w = Ret (tt, w') /\
    tid_to_entry w' !! child = Some a /\ heap w' !! a = Some c /\
    (parent = 0 ->
     syscallbuf_lib_start c = 0 /\ syscallbuf_lib_end c = 0) /\
    (parent <> 0 -> forall pa pc,
       tid_to_entry w !! parent = Some pa -> heap w !! pa = Some pc ->
       syscallbuf_lib_start c = syscallbuf_lib_start pc /\
       syscallbuf_lib_end c = syscallbuf_lib_end pc /\
       heap w' !! pa = Some pc).
Proof.
  intros Hchild Hcount Hparent.
  destruct (register_run fl parent child w Hchild Hcount Hparent)
    as (k & Hrun & Hzero & Hinherit).
  exists (fresh (dom (heap w))), (new_context child k.1 k.2),
    (registered fl child k.1 k.2 w).
  split; [done|].
  split; [unfold registered; cbn [tid_to_entry]; apply lookup_insert_eq|].
  split; [unfold registered; cbn [heap]; apply lookup_insert_eq|].
  split.
  - intros Hp. by rewrite (Hzero Hp).
  - intros Hp pa pc Hi Hpc. rewrite (Hinherit Hp pa pc Hi Hpc).
    split; [done|]. split; [done|].
    unfold registered. cbn [heap]. rewrite lookup_insert_ne; [done|].
    intros Heq. rewrite <- Heq, fresh_entry_unallocated in Hpc. done.
Qed.

(** The assertion on [child]: a registration whose [child] is not strictly
    between 0 and [MAX_TID] stops at the assertion, whatever the state and
    the parent. *)
Theorem register_rejects_child_out_of_range fl parent child w :
  ~ (0 < child < MAX_TID) ->
  rec_sched_register_thread fl parent child w = Abort AssertionFailed.
Proof.
  intros Hchild. unfold rec_sched_register_thread.
  unfold sys_malloc_zero at 1. unfold bind at 1. wsimpl.
  by rewrite bool_decide_eq_false_2 by lia.
Qed.

(** [parent] is not checked: with [child] within bounds and [parent]
    outside of the index, the parent lookup indexes [tid_to_entry] out of
    bounds. *)
Theorem register_parent_out_of_range fl parent child w :
  0 < child < MAX_TID ->
  ~ (0 <= parent < MAX_TID) ->
  rec_sched_register_thread fl parent child w = Undef OutOfBounds.
Proof.
  intros Hchild Hparent. unfold rec_sched_register_thread.
  unfold sys_malloc_zero at 1. unfold bind at 1. wsimpl.
  unfold sys_open_child_mem. msteps.
  destruct (decide (parent = 0)); [lia|].
  unfold get_task. rewrite !bind_assoc. unfold bind at 1, get_entry.
  by rewrite bool_decide_eq_false_2.
Qed.

Lemma registrations_run fl regs : forall w,
  consistent w ->
  orderly (dom (tid_to_entry w)) (register_calls fl regs) = true ->
  exists w' new,
    do_calls (register_calls fl regs) w = Ret (tt, w') /\
    consistent w' /\
    tasklist w' = tasklist w ++ new /\
    Forall2 (fun a pc => exists ls le,
               heap w' !! a = Some (new_context pc.2 ls le)) new regs /\
    current_entry w' = current_entry w /\
    nonblock_script w' = nonblock_script w /\
    waitpid_script w' = waitpid_script w /\
    (forall x c, heap w !! x = Some c -> heap w' !! x = Some c).
Proof.
  induction regs as [|[parent child] regs IH]; intros w Hc Hord.
  - exists w, []. split; [done|]. split; [done|].
    split; [by rewrite app_nil_r|]. split; [constructor|done].
  - simpl in Hord. revert Hord.
    rewrite !andb_true_iff, !bool_decide_eq_true.
    intros [[[Hch Hnew] Hpar] Hrest].
    apply not_elem_of_dom in Hnew.
    assert (Hpar' : parent = 0 \/ is_Some (tid_to_entry w !! parent)).
    { destruct Hpar as [->|Hp]; [by left|right]. by apply elem_of_dom. }
    destruct (register_consistent_run fl parent child w Hc Hch Hnew Hpar')
      as (ls & le & Hrun & Hc1).
    set (w1 := registered fl child ls le w) in *.
    set (a := fresh (dom (heap w))).
    destruct (IH w1 Hc1)
      as (w' & new & Hrun' & Hc' & Hl & Hnew' & Hcur & Hp & Hq & Hframe).
    { unfold w1, registered at 1. cbn [tid_to_entry].
      rewrite dom_insert_L. by rewrite (union_comm_L {[child]}). }
    exists w', (a :: new).
    split; [simpl; by rewrite (bind_Ret _ _ _ _ _ Hrun)|].
    split; [done|].
    split; [rewrite Hl; unfold w1, registered; cbn [tasklist];
            by rewrite <- app_assoc|].
    split; [|do 3 (split; [done|])].
    + constructor; [|done]. exists ls, le. apply Hframe.
      unfold w1, registered. cbn [heap]. apply lookup_insert_eq.
    + intros x c Hx. apply Hframe. unfold w1, registered. cbn [heap].
      rewrite lookup_insert_ne; [done|].
      intros <-. fold a in Hx. unfold a in Hx.
      by rewrite fresh_entry_unallocated in Hx.
Qed.

(** Registration order is queue order: a run of registrations, each of an
    id within bounds that is not in use and with a parent that is 0 or
    registered, appends one entry per call at the tail, in call order, each
    with the record of a fresh runnable task of that id; the cursor and the
    earlier records are left as they are. *)
Theorem registration_order_is_queue_order fl regs w :
  consistent w ->
  orderly (dom (tid_to_entry w)) (register_calls fl regs) = true ->
  exists w' new,
    do_calls (register_calls fl regs) w = Ret (tt, w') /\
    tasklist w' = tasklist w ++ new /\
    Forall2 (fun a pc => exists ls le,
               heap w' !! a = Some (new_context pc.2 ls le)) new regs /\
    current_entry w' = current_entry w /\
    (forall x c, heap w !! x = Some c -> heap w' !! x = Some c).
Proof.
  intros Hc Hord.
  destruct (registrations_run fl regs w Hc Hord)
    as (w' & new & Hrun & _ & Hl & Hnew & Hcur & _ & _ & Hframe).
  by exists w', new.
Qed.

(** The first selection after start-up: when tasks are registered into an
    empty scheduler, the first call without a context returns the task
    registered first, without consulting the wait backend. *)
Theorem first_registered_is_selected_first fl fl' parent child regs w :
  consistent w -> tasklist w = [] ->
  orderly (dom (tid_to_entry w))
    (register_calls fl ((parent, child) :: regs)) = true ->
  exists b cb w',
    (do_calls (register_calls fl ((parent, child) :: regs)) ;;
     rec_sched_get_active_thread fl' Null) w = Ret ((Entry b, 0), w') /\
    hd_error (tasklist w') = Some b /\ current_entry w' = Entry b /\
    heap w' !! b = Some cb /\ tid cb = child /\
    switch_counter cb = max_events fl' /\
    nonblock_script w' = nonblock_script w /\
    waitpid_script w' = waitpid_script w.
Proof.
  intros Hc Hempty Hord.
  destruct (registrations_run fl _ w Hc Hord)
    as (w1 & new & Hrun & Hc1 & Hl & Hnew & Hcur & Hp & Hq & _).
  destruct (consistent_empty w Hc Hempty) as (_ & _ & Hnull & _).
  rewrite Hempty in Hl. cbn [app] in Hl.
  apply Forall2_cons_inv_r in Hnew
    as (b & new' & (ls & le & Hb) & _ & ->).
  exists b, (set_switch_counter (max_events fl') (new_context child ls le)).
  eexists. split.
  - rewrite (bind_Ret _ _ _ _ _ Hrun).
    apply (select_null_ready fl' b (new_context child ls le)); [|done..].
    unfold bootstrapped. by rewrite Hcur, Hnull, Hl.
  - wsimpl. rewrite Hl. split; [done|]. split; [done|].
    split; [apply lookup_insert_eq|]. done.
Qed.

Lemma unlink_snoc a l : a ∉ l -> unlink a (l ++ [a]) = Some l.
Proof.
  induction l as [|x l IH]; intros Hnot; simpl.
  - by rewrite decide_True.
  - apply not_elem_of_cons in Hnot as [Hne Hnot].
    rewrite decide_False by done. by rewrite IH.
Qed.

Lemma filter_other_id (a : addr) (l : list addr) :
  a ∉ l -> filter (fun x => x <> a) l = l.
Proof.
  induction l as [|x l IH]; intros Hnot; [done|].
  apply not_elem_of_cons in Hnot as [Hne Hnot].
  rewrite filter_cons_True by done. by rewrite IH.
Qed.

Lemma unlink_filter a l r :
  NoDup l -> unlink a l = Some r -> r = filter (fun x => x <> a) l.
Proof.
  revert r. induction l as [|x l IH]; intros r Hnd; simpl; [done|].
  apply NoDup_cons in Hnd as [Hx Hnd].
  destruct (decide (x = a)) as [->|Hne].
  - intros [= <-]. rewrite filter_cons_False by (by intros H; apply H).
    by rewrite filter_other_id.
  - destruct (unlink a l) as [r'|] eqn:Hun; [|done]. intros [= <-].
    rewrite filter_cons_True by done. f_equal. by apply IH.
Qed.

(** Deregistration followed by lookup: on a well-formed state the call for
    an allocated record returns null in [*ctx_ptr]; afterwards [get_task]
    of its id yields null, its entry is freed and no longer queued, the
    count is one less, and the outside world has been asked to release the
    counters, both descriptors and the trace of the task.  The lookup of
    every other id and every other record are as before. *)
Theorem deregister_then_lookup a c w :
  consistent w -> heap w !! a = Some c ->
  exists w',
    rec_sched_deregister_thread (Entry a) w = Ret (Null, w') /\
    get_task (tid c) w' = Ret (Null, w') /\
    heap w' !! a = None /\ (a ∉ tasklist w') /\
    rec_sched_get_num_threads w' = Ret (num_active_threads w - 1, w') /\
    trace w' = trace w ++ release_events a c /\
    (forall t, t <> tid c -> tid_to_entry w' !! t = tid_to_entry w !! t) /\
    (forall x, x <> a -> heap w' !! x = heap w !! x).
Proof.
  intros Hc Hh.
  destruct (deregister_consistent_run a c w Hc Hh)
    as (rest & nxt & Hun & Hnx & Hrun & Hc').
  exists (deregistered a c rest nxt w). split; [done|].
  pose proof (cons_range _ Hc _ _ Hh) as Hr.
  split.
  { unfold get_task. rewrite bind_get_entry by lia.
    unfold deregistered. cbn [tid_to_entry]. by rewrite lookup_delete_eq. }
  split; [unfold deregistered; cbn [heap]; apply lookup_delete_eq|].
  split.
  { unfold deregistered. cbn [tasklist].
    by destruct (unlink_NoDup _ _ _ (cons_nodup _ Hc) Hun) as (_ & Hnot & _). }
  split; [done|]. split; [done|]. split.
  - intros t Ht. unfold deregistered. cbn [tid_to_entry].
    by rewrite lookup_delete_ne.
  - intros x Hx. unfold deregistered. cbn [heap]. by rewrite lookup_delete_ne.
Qed.

(** Registering a task and deregistering it again leaves the scheduler
    state (queue, records, index, cursor and count) as it was; no answer of
    the wait backend is consumed. *)
Theorem register_deregister_round_trip fl parent child w :
  consistent w -> 0 < child < MAX_TID ->
  tid_to_entry w !! child = None ->
  parent = 0 \/ is_Some (tid_to_entry w !! parent) ->
  exists w',
    (rec_sched_register_thread fl parent child ;;
     ctx <- get_task child ;;
     rec_sched_deregister_thread ctx) w = Ret (Null, w') /\
    same_scheduler_state w w' /\
    nonblock_script w' = nonblock_script w /\
    waitpid_script w' = waitpid_script w.
Proof.
  intros Hc Hchild Hnone Hparent.
  destruct (register_consistent_run fl parent child w Hc Hchild Hnone Hparent)
    as (ls & le & Hrun & Hc1).
  set (w1 := registered fl child ls le w) in *.
  set (a := fresh (dom (heap w))).
  set (c1 := new_context child ls le).
  assert (Hfresh : heap w !! a = None) by apply fresh_entry_unallocated.
  assert (Hh1 : heap w1 !! a = Some c1).
  { unfold w1, registered. cbn [heap]. apply lookup_insert_eq. }
  destruct (deregister_consistent_run a c1 w1 Hc1 Hh1)
    as (rest & nxt & Hun & Hnx & Hrun2 & _).
  assert (Hnot : a ∉ tasklist w).
  { intros Hin. apply (cons_heap _ Hc) in Hin as [? Hin]. congruence. }
  assert (Hrest : rest = tasklist w).
  { unfold w1, registered in Hun. cbn [tasklist] in Hun.
    rewrite unlink_snoc in Hun by done. congruence. }
  exists (deregistered a c1 rest nxt w1). split.
  { rewrite (bind_Ret _ _ _ _ _ Hrun). unfold get_task.
    rewrite bind_assoc, bind_get_entry by lia.
    replace (tid_to_entry w1 !! child) with (Some a)
      by (unfold w1, registered; cbn [tid_to_entry];
          by rewrite lookup_insert_eq).
    by rewrite bind_ret_l. }
  split; [|done].
  unfold same_scheduler_state, deregistered, w1, registered.
  cbn [tasklist heap tid_to_entry current_entry num_active_threads].
  split; [done|].
  split; [by rewrite delete_insert_eq, delete_id|].
  split; [unfold c1, new_context; cbn [tid];
          by rewrite delete_insert_eq, delete_id|].
  split; [|lia].
  rewrite decide_False; [done|].
  intros Hcur. destruct (cons_cursor _ Hc) as [H|(b & Hb & Hin)]; [congruence|].
  assert (b = a) as -> by congruence. done.
Qed.

(** Deregistration unlinks one entry and keeps the order of the others; a
    cursor that is not on the deregistered task stays where it is. *)
Theorem deregister_keeps_order_and_other_cursor a c w :
  consistent w -> heap w !! a = Some c ->
  exists w',
    rec_sched_deregister_thread (Entry a) w = Ret (Null, w') /\
    tasklist w' = filter (fun x => x <> a) (tasklist w) /\
    length (tasklist w) = S (length (tasklist w')) /\
    (current_entry w <> Entry a -> current_entry w' = current_entry w).
Proof.
  intros Hc Hh.
  destruct (deregister_consistent_run a c w Hc Hh)
    as (rest & nxt & Hun & Hnx & Hrun & Hc').
  exists (deregistered a c rest nxt w). split; [done|].
  unfold deregistered. cbn [tasklist current_entry].
  split; [by apply unlink_filter; [apply Hc|]|].
  split.
  - by destruct (unlink_NoDup _ _ _ (cons_nodup _ Hc) Hun) as (_ & _ & _ & Hl).
  - intros Hcur. by rewrite decide_False.
Qed.

(** A record whose id has no entry in the index cannot be deregistered: the
    null result of the lookup is used as an entry. *)
Theorem deregister_unindexed_record_null_access a c w :
  heap w !! a = Some c -> 0 <= tid c < MAX_TID ->
  tid_to_entry w !! tid c = None ->
  rec_sched_deregister_thread (Entry a) w = Undef NullAccess.
Proof.
  intros Hh Hr Hi. unfold rec_sched_deregister_thread.
  msteps. rewrite Hi.
  destruct (decide (Null = current_entry w)); by msteps.
Qed.


(** ** Further properties of the selection *)

Lemma polled_idle_nil s w : nonblock_script w = s -> polled_idle [] s w = w.
Proof.
  intros <-. apply world_eq; unfold polled_idle; wsimpl; try done.
  cbn [flat_map]. by rewrite app_nil_r.
Qed.

(** The scan passes over entries that are inside a system call and whose
    poll reports no change, one poll each. *)
Lemma scan_ring_skip r rest : forall blocked seen fuel s w,
  NoDup (seen ++ blocked ++ r :: rest) ->
  (forall y, loop_next (tasklist w) y =
             loop_next (seen ++ blocked ++ r :: rest) y) ->
  current_entry w = Entry (hd r (seen ++ blocked)) ->
  Forall (in_syscall w) blocked ->
  nonblock_script w = replicate (length blocked) None ++ s ->
  (length blocked < fuel)%nat ->
  scan_ring fuel (Entry (hd r blocked)) w =
  scan_ring (fuel - length blocked) (Entry r) (polled_idle blocked s w).
Proof.
  induction blocked as [|x bl IH]; intros seen fuel s w Hnd Hl Hcur Hblk Hscr Hfuel.
  - cbn [length hd]. rewrite Nat.sub_0_r. by rewrite polled_idle_nil.
  - destruct fuel as [|fuel]; [simpl in Hfuel; lia|].
    apply Forall_cons in Hblk as [(cx & Hx & Hst) Hblk].
    cbn [length replicate app] in Hscr.
    assert (Hxs : x ∉ seen).
    { apply NoDup_app in Hnd as (_ & Hdisj & _). intros H.
      apply (Hdisj x H). by apply elem_of_cons; left. }
    set (w1 := with_trace (trace w ++ [EvWaitpidNonblock (tid cx) None])
                 (with_nonblock_script (replicate (length bl) None ++ s) w)).
    assert (Hstep : scan_ring (S fuel) (Entry x) w =
                    scan_ring fuel (Entry (hd r bl)) w1).
    { cbn [scan_ring]. unfold ctx_of.
      rewrite bind_load with (c := cx) by done. cbv beta zeta.
      rewrite bool_decide_eq_true_2 by done. cbn [negb].
      unfold sys_waitpid_nonblock. rewrite !bind_assoc.
      unfold bind at 1, poll_answer. rewrite Hscr. fold w1.
      rewrite bind_ret_l. rewrite bool_decide_eq_true_2 by done. cbn [negb].
      unfold bind at 1, next_entry.
      change (tasklist w1) with (tasklist w). rewrite Hl.
      change (seen ++ (x :: bl) ++ r :: rest)
        with (seen ++ x :: (bl ++ r :: rest)).
      rewrite loop_next_split by done.
      rewrite bind_gets. change (current_entry w1) with (current_entry w).
      rewrite Hcur.
      assert (Hnext : match (bl ++ r :: rest) with
                      | y :: _ => y
                      | [] => match seen with f :: _ => f | [] => x end
                      end = hd r bl) by (by destruct bl).
      rewrite Hnext.
      rewrite decide_False; [done|].
      intros [= Heq].
      assert (Hin1 : hd r bl ∈ bl ++ r :: rest).
      { destruct bl; simpl; by apply elem_of_cons; left. }
      assert (Hin2 : hd r (seen ++ x :: bl) ∈ seen ++ [x]).
      { destruct seen; simpl; [by apply elem_of_cons; left|].
        by apply elem_of_cons; left. }
      rewrite <- Heq in Hin2.
      replace (seen ++ (x :: bl) ++ r :: rest)
        with ((seen ++ [x]) ++ bl ++ r :: rest) in Hnd
        by (by rewrite <- app_assoc).
      apply NoDup_app in Hnd as (_ & Hdisj & _).
      by apply (Hdisj _ Hin2). }
    cbn [hd]. rewrite Hstep.
    rewrite (IH (seen ++ [x]) fuel s w1).
    + cbn [length Nat.sub]. f_equal.
      apply world_eq; unfold polled_idle, w1, idle_poll; wsimpl; try done.
      cbn [flat_map]. rewrite Hx. by rewrite <- app_assoc.
    + by rewrite <- app_assoc.
    + intros y. change (tasklist w1) with (tasklist w). rewrite Hl.
      by rewrite <- app_assoc.
    + change (current_entry w1) with (current_entry w). rewrite Hcur.
      by rewrite <- app_assoc.
    + eapply Forall_impl; [exact Hblk|]. intros y Hy. exact Hy.
    + done.
    + simpl in Hfuel. lia.
Qed.

Lemma select_within_budget fl ctx w :
  within_budget ctx w ->
  rec_sched_get_active_thread fl ctx w =
  (found <- find_runnable (bootstrapped w) ;;
   commit ctx (max_events fl) found)
    (with_current_entry (bootstrapped w) w).
Proof.
  intros Hctx. rewrite select_after_bootstrap.
  destruct Hctx as [->|(a & c & -> & Ha & Hsw & Hbud)].
  - rewrite (bind_Ret _ _ _ _ _ (unswitchable_Null _)).
    unfold choose_next, prefer_next. cbn [is_null].
    by rewrite !bind_assoc, !bind_ret_l.
  - rewrite (bind_unswitchable_Entry a c) by done.
    rewrite bool_decide_eq_false_2 by done.
    unfold choose_next, prefer_next. cbn [is_null].
    rewrite !bind_assoc. rewrite bind_load with (c := c) by done.
    rewrite bind_ret_l. rewrite bool_decide_eq_false_2 by lia.
    by rewrite bind_ret_l.
Qed.

(** With the queue, read as a ring, being [blocked ++ r :: rest] from the
    cursor on, the call polls the entries of [blocked] and goes on at [r]. *)
Lemma select_skip fl ctx l1 l2 blocked r rest s w :
  within_budget ctx w ->
  tasklist w = l1 ++ l2 -> l2 ++ l1 = blocked ++ r :: rest ->
  NoDup (tasklist w) ->
  bootstrapped w = Entry (hd r blocked) ->
  Forall (in_syscall w) blocked ->
  nonblock_script w = replicate (length blocked) None ++ s ->
  rec_sched_get_active_thread fl ctx w =
  (found <- (found0 <- scan_ring (S (length (r :: rest))) (Entry r) ;;
             wait_fallback found0) ;;
   commit ctx (max_events fl) found)
    (polled_idle blocked s (with_current_entry (Entry (hd r blocked)) w)).
Proof.
  intros Hctx Hl Hring Hnd Hboot Hblk Hscr.
  rewrite (select_within_budget _ _ _ Hctx). rewrite Hboot.
  unfold find_runnable, scan_once. rewrite !bind_assoc, bind_gets.
  cbn [tasklist with_current_entry].
  assert (Hlen : length (tasklist w) =
                 (length blocked + length (r :: rest))%nat).
  { rewrite Hl, length_app, Nat.add_comm, <- length_app, Hring.
    by rewrite length_app. }
  unfold bind at 1.
  rewrite (scan_ring_skip r rest blocked [] _ s).
  - replace (S (length (tasklist w)) - length blocked)%nat
      with (S (length (r :: rest))) by lia.
    reflexivity.
  - simpl. rewrite <- Hring. rewrite Hl in Hnd.
    by rewrite (Permutation_app_comm l2 l1).
  - intros y. cbn [tasklist with_current_entry app]. rewrite Hl, <- Hring.
    rewrite Hl in Hnd. by apply loop_next_rotate.
  - done.
  - done.
  - done.
  - lia.
Qed.

Lemma commit_run fl ctx r cr by_w w :
  heap w !! r = Some cr ->
  (ctx = Entry r -> switch_counter cr <> INT_MIN) ->
  commit ctx (max_events fl) (Entry r, Entry r, by_w) w =
  Ret ((Entry r, by_w),
       with_heap
         (<[r := set_switch_counter (noted_budget fl ctx (Entry r) cr) cr]>
            (heap w))
         (with_current_entry (Entry r) w)).
Proof.
  intros Hr Hmin. unfold commit, noted_budget. rewrite bind_modify.
  destruct (decide (ctx = Entry r)) as [->|Hne].
  - rewrite (bind_note_switch_same r cr) by auto. done.
  - rewrite (bind_note_switch_other ctx r cr) by done. done.
Qed.

Lemma within_budget_no_underflow ctx r cr w :
  within_budget ctx w -> heap w !! r = Some cr ->
  ctx = Entry r -> switch_counter cr <> INT_MIN.
Proof.
  intros [->|(a & c & -> & Ha & _ & Hbud)] Hr; [done|].
  intros [= ->]. assert (c = cr) as -> by congruence. int_lia.
Qed.

(** First fit in ring order: with the queue, read as a ring from the cursor
    on, being [blocked ++ r :: rest], the entries of [blocked] inside a
    system call with polls that report no change, and [r] not inside a
    system call, the call returns [r] with [*by_waitpid = 0].  It has polled
    exactly the entries of [blocked], each once and in ring order, has not
    waited, and has only changed the cursor and the budget of [r]. *)
Theorem scan_skips_blocked_to_first_ready fl ctx l1 l2 blocked r rest cr s w :
  within_budget ctx w ->
  tasklist w = l1 ++ l2 -> l2 ++ l1 = blocked ++ r :: rest ->
  NoDup (tasklist w) ->
  bootstrapped w = Entry (hd r blocked) ->
  Forall (in_syscall w) blocked ->
  nonblock_script w = replicate (length blocked) None ++ s ->
  heap w !! r = Some cr -> exec_state cr <> PROCESSING_SYSCALL ->
  exists w',
    rec_sched_get_active_thread fl ctx w = Ret ((Entry r, 0), w') /\
    current_entry w' = Entry r /\
    heap w' =
      <[r := set_switch_counter (noted_budget fl ctx (Entry r) cr) cr]>
        (heap w) /\
    trace w' = trace w ++ flat_map (idle_poll w) blocked /\
    nonblock_script w' = s /\ waitpid_script w' = waitpid_script w.
Proof.
  intros Hctx Hl Hring Hnd Hboot Hblk Hscr Hr Hready.
  rewrite (select_skip fl ctx l1 l2 blocked r rest s w) by done.
  eexists. split.
  - rewrite bind_assoc.
    rewrite (bind_Ret _ _ _ _ _
               (scan_ring_ready _ r cr
                  (polled_idle blocked s
                     (with_current_entry (Entry (hd r blocked)) w))
                  Hr Hready)).
    unfold wait_fallback. cbn [is_null]. rewrite bind_ret_l.
    apply (commit_run fl ctx r cr); [done|].
    by apply (within_budget_no_underflow ctx r cr w).
  - by wsimpl.
Qed.









(** A call on an empty queue reads the queue head as if it were an entry:
    the cursor bootstrap yields [&head], and the scan dereferences it. *)
Theorem select_on_empty_queue fl w :
  tasklist w = [] -> current_entry w = Null ->
  rec_sched_get_active_thread fl Null w = Undef WildAccess.
Proof.
  intros Hl Hcur. rewrite select_after_bootstrap.
  unfold bootstrapped. rewrite Hcur, Hl. cbn [is_null].
  rewrite (bind_Ret _ _ _ _ _ (unswitchable_Null _)).
  unfold choose_next, prefer_next, find_runnable, scan_once. cbn [is_null].
  rewrite !bind_assoc, !bind_ret_l, !bind_assoc, bind_gets.
  done.
Qed.

(** A ring of one: when the only queued task is passed in with its budget
    used up, the entry linked after it is the task itself; its budget is
    reset to [max_events] and then decremented by the commit. *)
Theorem lone_task_budget_reset_then_decremented fl a c w :
  tasklist w = [a] -> heap w !! a = Some c ->
  current_entry w = Null \/ current_entry w = Entry a ->
  switchable c <> 0 -> switch_counter c < 0 ->
  exec_state c <> PROCESSING_SYSCALL ->
  max_events fl <> INT_MIN ->
  exists w',
    rec_sched_get_active_thread fl (Entry a) w = Ret ((Entry a, 0), w') /\
    current_entry w' = Entry a /\
    heap w' = <[a := set_switch_counter (max_events fl - 1) c]> (heap w) /\
    trace w' = trace w /\ nonblock_script w' = nonblock_script w /\
    waitpid_script w' = waitpid_script w.
Proof.
  intros Hl Ha Hcur Hsw Hbud Hready Hmin.
  assert (Hboot : bootstrapped w = Entry a).
  { unfold bootstrapped. destruct Hcur as [->| ->]; [|done]. by rewrite Hl. }
  eexists. split.
  - rewrite select_after_bootstrap, Hboot.
    rewrite (bind_unswitchable_Entry a c) by done.
    rewrite bool_decide_eq_false_2 by done.
    unfold choose_next, prefer_next. cbn [is_null].
    rewrite !bind_assoc. rewrite bind_load with (c := c) by done.
    rewrite bind_ret_l. rewrite bool_decide_eq_true_2 by done.
    rewrite !bind_assoc.
    rewrite (bind_next_entry a a)
      by (cbn [tasklist with_current_entry]; rewrite Hl;
          apply loop_next_single).
    rewrite !bind_assoc, bind_modify, !bind_assoc.
    rewrite bind_store with (c := c) by done.
    rewrite bind_ret_l.
    rewrite (bind_find_runnable_ready a (set_switch_counter (max_events fl) c))
      by (wsimpl; first [apply lookup_insert_eq | done]).
    unfold commit. rewrite bind_modify.
    rewrite (bind_note_switch_same a (set_switch_counter (max_events fl) c))
      by (wsimpl; first [apply lookup_insert_eq | done]).
    reflexivity.
  - wsimpl. rewrite insert_insert_eq. done.
Qed.

(** *** What a returning call has done *)

Lemma sys_waitpid_nonblock_Ret_inv t p w r w' :
  sys_waitpid_nonblock t p w = Ret (r, w') ->
  exists answer rest,
    nonblock_script w = answer :: rest /\
    match answer with
    | None =>
        r = 0 /\
        w' = with_trace (trace w ++ [EvWaitpidNonblock t None])
               (with_nonblock_script rest w)
    | Some st =>
        r = 1 /\
        exists b cb, p = Entry b /\ heap w !! b = Some cb /\
          w' = with_heap (<[b := set_status st cb]> (heap w))
                 (with_trace (trace w ++ [EvWaitpidNonblock t (Some st)])
                    (with_nonblock_script rest w))
    end.
Proof.
  unfold sys_waitpid_nonblock. intros H.
  apply bind_Ret_inv in H as (answer & wa & Hans & H).
  unfold poll_answer in Hans.
  destruct (nonblock_script w) as [|answer' rest] eqn:Hscr; [done|].
  injection Hans as -> <-. exists answer, rest. split; [done|].
  destruct answer as [st|].
  - apply bind_Ret_inv in H as ([] & wb & Hst & H). injection H as <- <-.
    apply store_Ret_inv in Hst as (b & cb & -> & Hb & ->).
    split; [done|]. by exists b, cb.
  - by injection H as <- <-.
Qed.

Lemma next_entry_Ret_inv elt w e w' :
  next_entry elt w = Ret (e, w') ->
  w' = w /\ exists a b, elt = Entry a /\ e = Entry b /\
                        loop_next (tasklist w) a = Some b.
Proof.
  unfold next_entry. destruct elt as [| |a]; try done.
  destruct (loop_next (tasklist w) a) as [b|] eqn:Hn; [|done].
  intros [= <- <-]. split; [done|]. by exists a, b.
Qed.

(** The scan leaves queue, index, cursor, count and the answers of the
    blocking wait alone.  It ends without a task at the cursor, or at an
    entry that is not inside a system call, or at one whose poll reported a
    status, which is then stored in its record and is the last thing the
    trace holds. *)
Lemma scan_ring_Ret_inv fuel : forall entry w nc e bw w',
  scan_ring fuel entry w = Ret ((nc, e, bw), w') ->
  tasklist w' = tasklist w /\ tid_to_entry w' = tid_to_entry w /\
  current_entry w' = current_entry w /\
  num_active_threads w' = num_active_threads w /\
  waitpid_script w' = waitpid_script w /\
  (nc = Null /\ bw = 0 /\ e = current_entry w /\ heap w' = heap w \/
   exists b cb,
     nc = Entry b /\ e = Entry b /\ heap w !! b = Some cb /\
     (bw = 0 /\ exec_state cb <> PROCESSING_SYSCALL /\ heap w' = heap w \/
      bw = 1 /\ exec_state cb = PROCESSING_SYSCALL /\
      exists st tr,
        heap w' = <[b := set_status st cb]> (heap w) /\
        trace w' = tr ++ [EvWaitpidNonblock (tid cb) (Some st)])).
Proof.
  induction fuel as [|fuel IH]; intros entry w nc e bw w'; [done|].
  cbn [scan_ring]. unfold ctx_of. intros H.
  apply bind_Ret_inv in H as (c & w0 & Hload & H).
  apply load_Ret_inv in Hload as (a & -> & Ha & ->).
  destruct (bool_decide (exec_state c = PROCESSING_SYSCALL)) eqn:Hsys;
    cbn [negb] in H.
  2: { apply bool_decide_eq_false_1 in Hsys. injection H as <- <- <- <-.
       do 5 (split; [done|]). right. exists a, c.
       do 3 (split; [done|]). by left. }
  apply bool_decide_eq_true_1 in Hsys.
  apply bind_Ret_inv in H as (r0 & w1 & Hpoll & H).
  apply sys_waitpid_nonblock_Ret_inv in Hpoll
    as (answer & rest & Hscr & Hans).
  destruct answer as [st|].
  - destruct Hans as (-> & b & cb & [= <-] & Hb & ->).
    rewrite bool_decide_eq_false_2 in H by done. cbn [negb] in H.
    injection H as <- <- <- <-. wsimpl.
    do 5 (split; [done|]). right. exists a, c.
    do 3 (split; [done|]). right. split; [done|]. split; [done|].
    assert (cb = c) as -> by congruence. by exists st, (trace w).
  - destruct Hans as (-> & ->).
    rewrite bool_decide_eq_true_2 in H by done. cbn [negb] in H.
    apply bind_Ret_inv in H as (e' & w2 & Hnext & H).
    apply next_entry_Ret_inv in Hnext as (-> & _).
    rewrite bind_gets in H.
    match type of H with context [decide ?P] => destruct (decide P) as [Heq|Hne] end.
    + injection H as <- <- <- <-. wsimpl.
      do 5 (split; [done|]). left. done.
    + apply IH in H. revert H. wsimpl. done.
Qed.

Lemma waitpid_retry_Ret_inv script : forall tr t st rest tr',
  waitpid_retry script tr = Ret (t, st, rest, tr') ->
  exists answer tr0,
    tr' = tr0 ++ [EvWaitpid answer] /\ wait_ret answer = t /\
    wait_status answer = st /\ t <> -1.
Proof.
  induction script as [|answer script IH]; intros tr t st rest tr'; [done|].
  cbn [waitpid_retry].
  destruct (decide (wait_ret answer = -1)) as [Hneg|Hpos].
  - destruct (decide (wait_errno answer = EINTR)); [|done]. apply IH.
  - intros [= <- <- <- <-]. by exists answer, tr.
Qed.

Lemma wait_for_any_Ret_inv w t st w' :
  wait_for_any w = Ret ((t, st), w') ->
  exists answer tr rest,
    w' = with_trace (tr ++ [EvWaitpid answer]) (with_waitpid_script rest w) /\
    wait_ret answer = t /\ wait_status answer = st /\ t <> -1.
Proof.
  unfold wait_for_any.
  destruct (waitpid_retry (waitpid_script w) (trace w))
    as [[[[t0 st0] rest] tr]| | | |] eqn:Hretry; try done.
  intros [= <- <- <-].
  apply waitpid_retry_Ret_inv in Hretry as (answer & tr0 & -> & Ht & Hst & Hne).
  by exists answer, tr0, rest.
Qed.

Lemma get_entry_Ret_inv t w e w' :
  get_entry t w = Ret (e, w') ->
  w' = w /\ 0 <= t < MAX_TID /\
  e = match tid_to_entry w !! t with Some a => Entry a | None => Null end.
Proof.
  unfold get_entry. destruct (bool_decide (0 <= t < MAX_TID)) eqn:Hr; [|done].
  apply bool_decide_eq_true_1 in Hr. by intros [= <- <-].
Qed.

(** The scan and the fallback together always end at an allocated entry:
    one that is not inside a system call, one whose poll reported a status,
    or the one the index holds for the id the blocking wait reported. *)
Lemma find_runnable_Ret_inv entry w nc e bw w' :
  find_runnable entry w = Ret ((nc, e, bw), w') ->
  tasklist w' = tasklist w /\ tid_to_entry w' = tid_to_entry w /\
  current_entry w' = current_entry w /\
  num_active_threads w' = num_active_threads w /\
  exists b cb,
    nc = Entry b /\ e = Entry b /\ heap w !! b = Some cb /\
    (bw = 0 /\ exec_state cb <> PROCESSING_SYSCALL /\ heap w' = heap w /\
     waitpid_script w' = waitpid_script w \/
     bw = 1 /\
     exists st tr,
       heap w' = <[b := set_status st cb]> (heap w) /\
       (trace w' = tr ++ [EvWaitpidNonblock (tid cb) (Some st)] /\
        exec_state cb = PROCESSING_SYSCALL /\
        waitpid_script w' = waitpid_script w \/
        exists answer,
          trace w' = tr ++ [EvWaitpid answer] /\
          wait_status answer = st /\ wait_ret answer <> -1 /\
          tid_to_entry w !! wait_ret answer = Some b)).
Proof.
  unfold find_runnable, scan_once. intros H.
  apply bind_Ret_inv in H as ([[nc0 e0] bw0] & w1 & Hscan & Hfall).
  rewrite bind_gets in Hscan.
  apply scan_ring_Ret_inv in Hscan
    as (Hl & Hi & Hcur & Hn & Hwait & Hcase).
  destruct Hcase as [(-> & -> & -> & Hheap)|(b & cb & -> & -> & Hb & Hcase)].
  - unfold wait_fallback in Hfall. cbn [is_null] in Hfall.
    apply bind_Ret_inv in Hfall as ([t st] & w2 & Hany & Hfall).
    apply wait_for_any_Ret_inv in Hany
      as (answer & tr & rest & -> & Ht & Hst & Hne).
    apply bind_Ret_inv in Hfall as (e1 & w3 & Hget & Hfall).
    apply get_entry_Ret_inv in Hget as (-> & Hr & ->).
    apply bind_Ret_inv in Hfall as ([] & w4 & Hstore & Hfall).
    injection Hfall as <- <- <- <-.
    apply store_Ret_inv in Hstore as (b & cb & Hp & Hb & ->).
    revert Hp Hb. wsimpl. rewrite Hi, Hheap.
    destruct (tid_to_entry w !! t) as [b'|] eqn:Hidx; [|done].
    intros [= ->] Hb.
    do 4 (split; [done|]). exists b, cb.
    do 3 (split; [done|]). right. split; [done|].
    exists st, tr. split; [done|]. right. exists answer.
    subst t st. done.
  - unfold wait_fallback in Hfall. cbn [is_null] in Hfall.
    injection Hfall as <- <- <- <-.
    do 4 (split; [done|]). exists b, cb.
    do 3 (split; [done|]).
    destruct Hcase as [(-> & Hready & Hheap)|(-> & Hsys & st & tr & Hheap & Htr)].
    + by left.
    + right. split; [done|]. exists st, tr. split; [done|]. by left.
Qed.

Lemma unswitchable_Ret_inv ctx w r w' :
  unswitchable ctx w = Ret (r, w') ->
  w' = w /\
  (ctx = Null /\ r = false \/
   exists a c, ctx = Entry a /\ heap w !! a = Some c /\
               r = bool_decide (switchable c = 0)).
Proof.
  unfold unswitchable. destruct ctx as [| |a]; cbn [is_null].
  - intros [= <- <-]. split; [done|]. by left.
  - done.
  - intros H. apply bind_Ret_inv in H as (c & w1 & Hload & H).
    apply load_Ret_inv in Hload as (? & [= <-] & Ha & ->).
    injection H as <- <-. split; [done|]. right. by exists a, c.
Qed.

Lemma prefer_next_Ret_inv ctx entry m w e1 w1 :
  prefer_next ctx entry m w = Ret (e1, w1) ->
  e1 = entry /\ w1 = w \/
  exists a ca x n,
    ctx = Entry a /\ heap w !! a = Some ca /\ switch_counter ca < 0 /\
    entry = Entry x /\ loop_next (tasklist w) x = Some n /\ e1 = Entry n /\
    w1 = with_heap (<[a := set_switch_counter m ca]> (heap w))
           (with_current_entry (Entry n) w).
Proof.
  unfold prefer_next. intros H.
  apply bind_Ret_inv in H as (exceeded & w0 & Hex & H).
  destruct ctx as [| |a]; cbn [is_null] in Hex.
  - injection Hex as <- <-. injection H as <- <-. by left.
  - done.
  - apply bind_Ret_inv in Hex as (c & w2 & Hload & Hex).
    apply load_Ret_inv in Hload as (? & [= <-] & Ha & ->).
    injection Hex as <- <-.
    destruct (bool_decide (switch_counter c < 0)) eqn:Hneg.
    + apply bool_decide_eq_true_1 in Hneg.
      apply bind_Ret_inv in H as (e' & w3 & Hnext & H).
      apply next_entry_Ret_inv in Hnext as (-> & x & n & -> & -> & Hn).
      rewrite bind_modify in H.
      apply bind_Ret_inv in H as ([] & w4 & Hst & H). injection H as <- <-.
      apply store_Ret_inv in Hst as (b & cb & [= <-] & Hb & ->).
      cbn [heap with_current_entry] in Hb.
      assert (cb = c) as -> by congruence.
      right. exists a, c, x, n. done.
    + injection H as <- <-. by left.
Qed.

(** The two ways in which a call returns: through the short-circuit, with
    nothing but the cursor bootstrap done; or with the task that the scan
    and the fallback ended at, after the cursor has been put on it and its
    budget has been noted.  [w1] is the state in which the scan starts and
    [wf] the one in which the commit starts. *)
Lemma select_Ret_inv fl ctx w chosen bw w' :
  rec_sched_get_active_thread fl ctx w = Ret ((chosen, bw), w') ->
  (exists a c,
     ctx = Entry a /\ heap w !! a = Some c /\ switchable c = 0 /\
     chosen = ctx /\ bw = 0 /\ w' = with_current_entry (bootstrapped w) w) \/
  (exists w1 wf b cb,
     tasklist w1 = tasklist w /\ tid_to_entry w1 = tid_to_entry w /\
     num_active_threads w1 = num_active_threads w /\
     nonblock_script w1 = nonblock_script w /\
     waitpid_script w1 = waitpid_script w /\ trace w1 = trace w /\
     (heap w1 = heap w /\ current_entry w1 = bootstrapped w \/
      exists a ca x n,
        ctx = Entry a /\ heap w !! a = Some ca /\ switch_counter ca < 0 /\
        bootstrapped w = Entry x /\ loop_next (tasklist w) x = Some n /\
        current_entry w1 = Entry n /\
        heap w1 = <[a := set_switch_counter (max_events fl) ca]> (heap w)) /\
     find_runnable (current_entry w1) w1 = Ret ((Entry b, Entry b, bw), wf) /\
     heap wf !! b = Some cb /\ chosen = Entry b /\
     w' = with_heap
            (<[b := set_switch_counter (noted_budget fl ctx (Entry b) cb) cb]>
               (heap wf))
            (with_current_entry (Entry b) wf)).
Proof.
  intros H. rewrite select_after_bootstrap in H.
  set (wb := with_current_entry (bootstrapped w) w) in *.
  apply bind_Ret_inv in H as (stay & w0 & Hstay & H).
  apply unswitchable_Ret_inv in Hstay as (-> & Hstay).
  destruct stay.
  - left. destruct Hstay as [[_ ?]|(a & c & -> & Ha & Hsw)]; [done|].
    symmetry in Hsw. apply bool_decide_eq_true_1 in Hsw.
    injection H as <- <- <-. by exists a, c.
  - right. clear Hstay.
    apply bind_Ret_inv in H as ([[nc e] bw0] & wf & Hchoose & Hcommit).
    unfold choose_next in Hchoose.
    apply bind_Ret_inv in Hchoose as (e1 & w1 & Hpref & Hfind).
    assert (He1 : e1 = current_entry w1).
    { apply prefer_next_Ret_inv in Hpref
        as [(-> & ->)|(a & ca & x & n & _ & _ & _ & _ & _ & -> & ->)]; done. }
    subst e1.
    pose proof (find_runnable_Ret_inv _ _ _ _ _ _ Hfind)
      as (_ & _ & _ & _ & b & cb & -> & -> & _).
    unfold commit in Hcommit. rewrite bind_modify in Hcommit.
    apply bind_Ret_inv in Hcommit as ([] & w3 & Hnote & Hret).
    injection Hret as <- <- <-.
    apply note_switch_Ret_inv in Hnote as (b' & cb' & [= <-] & Hb' & ->).
    cbn [heap with_current_entry] in Hb'.
    exists w1, wf, b, cb'.
    apply prefer_next_Ret_inv in Hpref
      as [(_ & ->)|(a & ca & x & n & -> & Ha & Hneg & Hx & Hn & _ & ->)].
    + do 6 (split; [done|]). split; [by left|]. done.
    + do 6 (split; [done|]).
      split; [right; exists a, ca, x, n; done|]. done.
Qed.

Lemma selection_frame_insert (h : gmap addr context) a c c' :
  h !! a = Some c -> selection_frame c' = selection_frame c ->
  selection_frame <$> <[a := c']> h = selection_frame <$> h.
Proof.
  intros Ha Hc. rewrite fmap_insert. apply insert_id.
  by rewrite lookup_fmap, Ha, Hc.
Qed.

Lemma find_runnable_frame entry w r wf :
  find_runnable entry w = Ret (r, wf) ->
  selection_frame <$> heap wf = selection_frame <$> heap w.
Proof.
  destruct r as [[nc e] bw]. intros H.
  apply find_runnable_Ret_inv in H
    as (_ & _ & _ & _ & b & cb & _ & _ & Hb & Hcase).
  destruct Hcase as [(_ & _ & -> & _)|(_ & st & tr & -> & _)]; [done|].
  by apply (selection_frame_insert _ b cb).
Qed.

Lemma select_frame fl ctx w chosen by_w w' :
  rec_sched_get_active_thread fl ctx w = Ret ((chosen, by_w), w') ->
  tasklist w' = tasklist w /\ tid_to_entry w' = tid_to_entry w /\
  num_active_threads w' = num_active_threads w /\
  selection_frame <$> heap w' = selection_frame <$> heap w.
Proof.
  intros H.
  apply select_Ret_inv in H
    as [(a & c & _ & _ & _ & _ & _ & ->)
       |(w1 & wf & b & cb & Hl & Hi & Hn & _ & _ & _ & Hpref & Hfind & Hb
         & _ & ->)]; [done|].
  pose proof (find_runnable_frame _ _ _ _ Hfind) as Hheap.
  apply find_runnable_Ret_inv in Hfind as (Hl' & Hi' & _ & Hn' & _).
  wsimpl. split; [congruence|]. split; [congruence|]. split; [congruence|].
  rewrite (selection_frame_insert _ b cb) by done. rewrite Hheap.
  destruct Hpref as [[-> _]|(a & ca & x & n & _ & Ha & _ & _ & _ & _ & ->)];
    [done|].
  by apply (selection_frame_insert _ a ca).
Qed.

Lemma selection_frame_dom (h h' : gmap addr context) :
  selection_frame <$> h' = selection_frame <$> h -> dom h' = dom h.
Proof.
  intros Hheap. rewrite <- (dom_fmap_L selection_frame h'), Hheap.
  apply dom_fmap_L.
Qed.

Lemma selection_frame_lookup (h h' : gmap addr context) a c' :
  selection_frame <$> h' = selection_frame <$> h -> h' !! a = Some c' ->
  exists c, h !! a = Some c /\ selection_frame c = selection_frame c'.
Proof.
  intros Hheap Ha.
  assert (Hl : (selection_frame <$> h') !! a = Some (selection_frame c'))
    by (by rewrite lookup_fmap, Ha).
  rewrite Hheap, lookup_fmap in Hl.
  destruct (h !! a) as [c|]; [|done].
  exists c. split; [done|]. by apply (inj Some).
Qed.

Lemma selection_frame_tid c c' :
  selection_frame c = selection_frame c' -> tid c = tid c'.
Proof. intros H. by apply (f_equal tid) in H. Qed.

Lemma tids_lookup (h h' : gmap addr context) a c' :
  tid <$> h' = tid <$> h -> h' !! a = Some c' ->
  exists c, h !! a = Some c /\ tid c = tid c'.
Proof.
  intros Hheap Ha.
  assert (Hl : (tid <$> h') !! a = Some (tid c'))
    by (by rewrite lookup_fmap, Ha).
  rewrite Hheap, lookup_fmap in Hl.
  destruct (h !! a) as [c|]; [|done].
  exists c. split; [done|]. by apply (inj Some).
Qed.

(** Well-formedness looks at no member of a record but [tid]. *)
Lemma consistent_same_tids w w' :
  consistent w ->
  tasklist w' = tasklist w -> tid_to_entry w' = tid_to_entry w ->
  num_active_threads w' = num_active_threads w ->
  tid <$> heap w' = tid <$> heap w ->
  (current_entry w' = Null \/
   exists a, current_entry w' = Entry a /\ a ∈ tasklist w') ->
  consistent w'.
Proof.
  intros Hc Hl Hi Hn Hheap Hcur.
  assert (Hdom : dom (heap w') = dom (heap w)).
  { rewrite <- (dom_fmap_L tid (heap w')), Hheap. apply dom_fmap_L. }
  constructor.
  - rewrite Hl. apply Hc.
  - intros a. rewrite Hl, (cons_heap _ Hc).
    by rewrite <- !elem_of_dom, Hdom.
  - intros t a. rewrite Hi, (cons_index _ Hc). split.
    + intros (c & Ha & Ht).
      symmetry in Hheap.
      destruct (tids_lookup _ _ a c Hheap Ha) as (c' & Ha' & Hf).
      exists c'. split; [done|]. congruence.
    + intros (c' & Ha' & Ht).
      destruct (tids_lookup _ _ a c' Hheap Ha') as (c & Ha & Hf).
      exists c. split; [done|]. congruence.
  - intros a c' Ha'.
    destruct (tids_lookup _ _ a c' Hheap Ha') as (c & Ha & Hf).
    rewrite <- Hf. by apply (cons_range _ Hc a).
  - rewrite Hi, Hl. apply Hc.
  - rewrite Hn, Hl. apply Hc.
  - done.
Qed.

Lemma consistent_frame w w' :
  consistent w ->
  tasklist w' = tasklist w -> tid_to_entry w' = tid_to_entry w ->
  num_active_threads w' = num_active_threads w ->
  selection_frame <$> heap w' = selection_frame <$> heap w ->
  (current_entry w' = Null \/
   exists a, current_entry w' = Entry a /\ a ∈ tasklist w') ->
  consistent w'.
Proof.
  intros Hc Hl Hi Hn Hheap Hcur.
  apply (consistent_same_tids w); try done.
  apply (f_equal (fmap tid)) in Hheap.
  rewrite <- !map_fmap_compose in Hheap. exact Hheap.
Qed.

(** Answers of the wait backend are no part of the scheduler state. *)
Lemma consistent_with_scripts p q w :
  consistent w -> consistent (with_nonblock_script p (with_waitpid_script q w)).
Proof. intros Hc. apply (consistent_same_tids w); try done. apply Hc. Qed.

(** A write of the recorder that leaves [tid] alone keeps the state
    well-formed. *)
Lemma consistent_poke a g w :
  consistent w -> (forall c, tid (g c) = tid c) -> consistent (poke a g w).
Proof.
  intros Hc Hg. apply (consistent_same_tids w); try done.
  - unfold poke. cbn [heap with_heap]. apply map_eq. intros x.
    rewrite !lookup_fmap. destruct (decide (x = a)) as [->|Hne].
    + rewrite lookup_alter_eq. destruct (heap w !! a); simpl; [|done].
      by rewrite Hg.
    + by rewrite lookup_alter_ne.
  - apply Hc.
Qed.

(** What a selection never does: a returning call leaves the queue, the
    index and the count as they are, allocates and frees nothing, and
    writes no member of any record but [status] and [switch_counter]. *)
Theorem select_changes_only_status_and_budget fl ctx w chosen by_w w' :
  rec_sched_get_active_thread fl ctx w = Ret ((chosen, by_w), w') ->
  tasklist w' = tasklist w /\ tid_to_entry w' = tid_to_entry w /\
  num_active_threads w' = num_active_threads w /\
  dom (heap w') = dom (heap w) /\
  selection_frame <$> heap w' = selection_frame <$> heap w.
Proof.
  intros H. apply select_frame in H as (Hl & Hi & Hn & Hheap).
  do 3 (split; [done|]). split; [|done]. by apply selection_frame_dom.
Qed.

Lemma select_cursor fl ctx w chosen by_w w' :
  rec_sched_get_active_thread fl ctx w = Ret ((chosen, by_w), w') ->
  exists b c',
    chosen = Entry b /\ heap w' !! b = Some c' /\
    (current_entry w' = Entry b \/
     ctx = chosen /\ by_w = 0 /\ switchable c' = 0 /\
     current_entry w' = bootstrapped w).
Proof.
  intros H.
  apply select_Ret_inv in H
    as [(a & c & -> & Ha & Hsw & -> & -> & ->)
       |(w1 & wf & b & cb & _ & _ & _ & _ & _ & _ & _ & _ & Hb & -> & ->)].
  - exists a, c. split; [done|]. split; [done|]. right. done.
  - eexists b, _. split; [done|]. wsimpl.
    split; [apply lookup_insert_eq|]. by left.
Qed.

(** A selection keeps the scheduler state well-formed. *)
Theorem select_keeps_state_well_formed fl ctx w chosen by_w w' :
  consistent w ->
  rec_sched_get_active_thread fl ctx w = Ret ((chosen, by_w), w') ->
  consistent w'.
Proof.
  intros Hc H.
  pose proof (select_frame _ _ _ _ _ _ H) as (Hl & Hi & Hn & Hheap).
  pose proof (selection_frame_dom _ _ Hheap) as Hdom.
  assert (Hq : forall a, is_Some (heap w' !! a) -> a ∈ tasklist w).
  { intros a Ha. apply (cons_heap _ Hc).
    by rewrite <- elem_of_dom, <- Hdom, elem_of_dom. }
  apply (consistent_frame w); try done.
  destruct (select_cursor _ _ _ _ _ _ H)
    as (b & c' & -> & Hb & [Hcur|(_ & _ & _ & Hcur)]).
  - right. exists b. split; [done|]. rewrite Hl. apply Hq. by eexists.
  - assert (Hin : b ∈ tasklist w) by (apply Hq; by eexists).
    rewrite Hcur, Hl. unfold bootstrapped.
    destruct (cons_cursor _ Hc) as [Hnull|(x & Hx & Hxin)].
    + rewrite Hnull. cbn [is_null]. right.
      destruct (tasklist w) as [|y l] eqn:Hlist.
      { by apply elem_of_nil in Hin. }
      exists y. split; [done|]. by apply elem_of_cons; left.
    + rewrite Hx. cbn [is_null]. right. by exists x.
Qed.

(** A returning call never hands out null: the result is an allocated
    record, and the cursor is on it unless the call returned the supplied
    context through the short-circuit. *)
Theorem select_returns_allocated_task_under_cursor fl ctx w chosen by_w w' :
  rec_sched_get_active_thread fl ctx w = Ret ((chosen, by_w), w') ->
  (by_w = 0 \/ by_w = 1) /\
  exists b c',
    chosen = Entry b /\ heap w' !! b = Some c' /\
    (current_entry w' = Entry b \/
     ctx = chosen /\ by_w = 0 /\ switchable c' = 0 /\
     current_entry w' = bootstrapped w).
Proof.
  intros H. split; [|by apply (select_cursor fl ctx w)].
  apply select_Ret_inv in H
    as [(a & c & _ & _ & _ & _ & -> & _)
       |(w1 & wf & b & cb & _ & _ & _ & _ & _ & _ & _ & Hfind & _)];
    [by left|].
  apply find_runnable_Ret_inv in Hfind
    as (_ & _ & _ & _ & b' & cb' & _ & _ & _ & [(-> & _)|(-> & _)]);
    [by left|by right].
Qed.

Lemma statuses_insert (h : gmap addr context) a c c' :
  h !! a = Some c -> status c' = status c ->
  status <$> <[a := c']> h = status <$> h.
Proof.
  intros Ha Hc. rewrite fmap_insert. apply insert_id.
  by rewrite lookup_fmap, Ha, Hc.
Qed.

(** [*by_waitpid = 0] means that no status was stored: the status of every
    record is as before, the call has not waited, and the task returned is
    one that is not inside a system call, or the supplied context returned
    through the short-circuit. *)
Theorem by_waitpid_zero_means_no_status_change fl ctx w chosen w' :
  rec_sched_get_active_thread fl ctx w = Ret ((chosen, 0), w') ->
  statuses w' = statuses w /\ waitpid_script w' = waitpid_script w /\
  exists b c,
    chosen = Entry b /\ heap w !! b = Some c /\
    (exec_state c <> PROCESSING_SYSCALL \/ ctx = chosen /\ switchable c = 0).
Proof.
  intros H. unfold statuses.
  apply select_Ret_inv in H
    as [(a & c & -> & Ha & Hsw & -> & _ & ->)
       |(w1 & wf & b & cb & _ & _ & _ & _ & Hw1 & _ & Hpref & Hfind & Hb
         & -> & ->)].
  - split; [done|]. split; [done|]. exists a, c. by eauto.
  - apply find_runnable_Ret_inv in Hfind
      as (_ & _ & _ & _ & b' & cb' & [= <-] & _ & Hb'
          & [(_ & Hready & Hheap & Hwait)|(? & _)]); [|done].
    rewrite Hheap in Hb. assert (cb' = cb) as -> by congruence.
    wsimpl. rewrite Hheap. rewrite (statuses_insert _ b cb) by done.
    destruct Hpref
      as [[Hh1 _]|(a & ca & x & n & -> & Ha & _ & _ & _ & _ & Hh1)].
    + rewrite Hh1 in *. split; [done|]. split; [congruence|].
      exists b, cb. by eauto.
    + rewrite Hh1. rewrite (statuses_insert _ a ca) by done.
      split; [done|]. split; [congruence|].
      rewrite Hh1 in Hb'. destruct (decide (a = b)) as [->|Hne].
      * rewrite lookup_insert_eq in Hb'. injection Hb' as <-.
        exists b, ca. by eauto.
      * rewrite lookup_insert_ne in Hb' by done. exists b, cb. by eauto.
Qed.

(** [*by_waitpid = 1] means that the status the wait backend reported last
    is stored in the record of the task returned: the trace ends with the
    poll of that task that reported it, or with the blocking wait that
    reported it for the id under which the index holds the task. *)
Theorem by_waitpid_one_records_reported_status fl ctx w chosen w' :
  rec_sched_get_active_thread fl ctx w = Ret ((chosen, 1), w') ->
  exists b c tr,
    chosen = Entry b /\ heap w' !! b = Some c /\
    current_entry w' = Entry b /\
    (trace w' = tr ++ [EvWaitpidNonblock (tid c) (Some (status c))] \/
     exists answer,
       trace w' = tr ++ [EvWaitpid answer] /\
       wait_status answer = status c /\ wait_ret answer <> -1 /\
       tid_to_entry w' !! wait_ret answer = Some b).
Proof.
  intros H.
  apply select_Ret_inv in H
    as [(a & c & _ & _ & _ & _ & ? & _)
       |(w1 & wf & b & cb & _ & Hi & _ & _ & _ & _ & _ & Hfind & Hb
         & -> & ->)]; [done|].
  apply find_runnable_Ret_inv in Hfind
    as (_ & Hi' & _ & _ & b' & cb' & [= <-] & _ & Hb'
        & [(? & _)|(_ & st & tr & Hheap & Hcase)]); [done|].
  rewrite Hheap, lookup_insert_eq in Hb. injection Hb as <-.
  eexists b, _, tr. split; [done|]. wsimpl.
  split; [apply lookup_insert_eq|]. split; [done|].
  destruct Hcase as [(Htr & _ & _)|(answer & Htr & Hst & Hne & Hidx)].
  - by left.
  - right. exists answer. rewrite Hi'. done.
Qed.

(** From the entry [x], with [todo] the entries between [x] and the cursor
    [e], the loop polls at most [length todo + 1] times. *)
Lemma scan_ring_polls todo : forall fuel seen x e w r w',
  NoDup (seen ++ x :: todo) -> hd x seen = e ->
  (forall y, loop_next (tasklist w) y = loop_next (seen ++ x :: todo) y) ->
  current_entry w = Entry e ->
  scan_ring fuel (Entry x) w = Ret (r, w') ->
  exists p, nonblock_script w = p ++ nonblock_script w' /\
            (length p <= S (length todo))%nat.
Proof.
  induction todo as [|y todo IH]; intros fuel seen x e w r w' Hnd He Hl Hcur;
    (destruct fuel as [|fuel]; [done|]); cbn [scan_ring]; unfold ctx_of;
    intros H;
    apply bind_Ret_inv in H as (c & w0 & Hload & H);
    apply load_Ret_inv in Hload as (? & _ & _ & ->);
    (destruct (negb (bool_decide (exec_state c = PROCESSING_SYSCALL)));
     [injection H as _ <-; exists []; split; [done|simpl; lia]|]);
    apply bind_Ret_inv in H as (r0 & w1 & Hpoll & H);
    apply sys_waitpid_nonblock_Ret_inv in Hpoll
      as (answer & rest & Hscr & Hans);
    (destruct answer as [st|];
     [destruct Hans as (-> & b & cb & _ & _ & ->);
      rewrite bool_decide_eq_false_2 in H by done; cbn [negb] in H;
      injection H as _ <-; exists [Some st];
      split; [done|simpl; lia]|]);
    destruct Hans as (-> & ->);
    rewrite bool_decide_eq_true_2 in H by done; cbn [negb] in H;
    apply bind_Ret_inv in H as (e' & w2 & Hnext & H);
    apply next_entry_Ret_inv in Hnext as (-> & x' & n & [= <-] & -> & Hn);
    rewrite bind_gets in H;
    cbn [tasklist current_entry with_trace with_nonblock_script] in Hn, H;
    rewrite Hl in Hn;
    (assert (Hx : x ∉ seen);
     [apply NoDup_app in Hnd as (_ & Hdisj & _); intros Hin;
      apply (Hdisj x Hin); by apply elem_of_cons; left|]);
    rewrite loop_next_split in Hn by done; injection Hn as <-;
    rewrite Hcur in H.
  - assert (Hback : match seen with f :: _ => f | [] => x end = e)
      by (by destruct seen).
    rewrite Hback, decide_True in H by done.
    injection H as _ <-. exists [None]. split; [done|simpl; lia].
  - assert (Hye : y <> e).
    { intros ->. destruct seen as [|f seen]; simpl in He; subst.
      - apply NoDup_cons in Hnd as [Hnot _]. apply Hnot.
        by apply elem_of_cons; left.
      - simpl in Hnd. apply NoDup_cons in Hnd as [Hnot _]. apply Hnot.
        apply elem_of_app; right. apply elem_of_cons; right.
        by apply elem_of_cons; left. }
    rewrite decide_False in H by congruence.
    apply (IH fuel (seen ++ [x]) y e) in H as (p & Hp & Hlen).
    + exists (None :: p). cbn [nonblock_script with_trace with_nonblock_script] in Hp.
      split; [by rewrite Hscr, Hp|simpl; lia].
    + by rewrite <- app_assoc.
    + destruct seen; [done|by simpl].
    + intros z. cbn [tasklist with_trace with_nonblock_script].
      rewrite Hl. by rewrite <- app_assoc.
    + done.
Qed.

Lemma wait_fallback_polls found w r w' :
  wait_fallback found w = Ret (r, w') ->
  nonblock_script w' = nonblock_script w.
Proof.
  destruct found as [[nc e] bw]. unfold wait_fallback.
  destruct (is_null nc); [|by intros [= _ <-]].
  intros H. apply bind_Ret_inv in H as ([t st] & w2 & Hany & H).
  apply wait_for_any_Ret_inv in Hany as (answer & tr & rest & -> & _).
  apply bind_Ret_inv in H as (e1 & w3 & Hget & H).
  apply get_entry_Ret_inv in Hget as (-> & _ & _).
  apply bind_Ret_inv in H as ([] & w4 & Hstore & H).
  injection H as _ <-.
  by apply store_Ret_inv in Hstore as (b & cb & _ & _ & ->).
Qed.

(** No task is polled twice in one call: on a well-formed state a returning
    call has consumed at most as many answers to polls as there are queued
    tasks. *)
Theorem select_polls_each_task_at_most_once fl ctx w chosen by_w w' :
  consistent w ->
  rec_sched_get_active_thread fl ctx w = Ret ((chosen, by_w), w') ->
  exists p,
    nonblock_script w = p ++ nonblock_script w' /\
    (length p <= length (tasklist w))%nat.
Proof.
  intros Hc H.
  apply select_Ret_inv in H
    as [(a & c & _ & _ & _ & _ & _ & ->)
       |(w1 & wf & b & cb & Hl & _ & _ & Hs & _ & _ & Hpref & Hfind & _
         & _ & ->)].
  { exists []. split; [done|simpl; lia]. }
  assert (Hcur : forall e, current_entry w1 = Entry e -> e ∈ tasklist w).
  { intros e He.
    destruct Hpref as [[_ Hboot]|(a & ca & x & n & _ & _ & _ & _ & Hn & Hcur & _)].
    - rewrite Hboot in He. unfold bootstrapped in He.
      destruct (cons_cursor _ Hc) as [Hnull|(y & Hy & Hin)].
      + rewrite Hnull in He. cbn [is_null] in He.
        destruct (tasklist w) as [|z l]; [done|]. injection He as <-.
        by apply elem_of_cons; left.
      + rewrite Hy in He. cbn [is_null] in He. by injection He as <-.
    - rewrite Hcur in He. injection He as <-.
      by apply loop_next_Some_elem in Hn. }
  unfold find_runnable, scan_once in Hfind.
  apply bind_Ret_inv in Hfind as (found & w2 & Hscan & Hfall).
  rewrite bind_gets in Hscan.
  apply wait_fallback_polls in Hfall.
  cbn [nonblock_script with_heap with_current_entry]. rewrite Hfall, <- Hs.
  destruct (current_entry w1) as [| |e] eqn:He; [done..|].
  destruct (list_elem_of_split _ _ (Hcur e eq_refl)) as (pre & post & Hlist).
  apply (scan_ring_polls (post ++ pre) _ [] e e) in Hscan
    as (p & Hp & Hlen).
  - exists p. split; [done|].
    rewrite Hlist, length_app. rewrite length_app in Hlen. simpl in *. lia.
  - simpl. pose proof (cons_nodup _ Hc) as Hnd. rewrite Hlist in Hnd.
    by rewrite (Permutation_app_comm pre (e :: post)) in Hnd.
  - done.
  - intros y. rewrite Hl, Hlist. simpl.
    pose proof (cons_nodup _ Hc) as Hnd. rewrite Hlist in Hnd.
    by rewrite (loop_next_rotate pre (e :: post) y Hnd).
  - done.
Qed.

(** *** Absence of undefined behaviour *)

Lemma bind_defined {A B} (m : M A) (k : A -> M B) w :
  defined m w ->
  (forall a w1, m w = Ret (a, w1) -> defined (k a) w1) ->
  defined (bind m k) w.
Proof.
  intros Hm Hk f. unfold bind.
  destruct (m w) as [[a w1]| | | |] eqn:E; try done.
  - by apply Hk.
  - intros [= ->]. by apply (Hm f).
Qed.

Lemma ret_defined {A} (a : A) w : defined (ret a) w.
Proof. by intros f. Qed.

Lemma load_defined a w : is_Some (heap w !! a) -> defined (load (Entry a)) w.
Proof. intros [c Hc] f. unfold load. by rewrite Hc. Qed.

Lemma store_defined a g w :
  is_Some (heap w !! a) -> defined (store (Entry a) g) w.
Proof.
  intros [c Hc]. unfold store. apply bind_defined; [by apply load_defined|].
  by intros c' w1 _ f.
Qed.

Lemma sys_waitpid_nonblock_defined t a w :
  is_Some (heap w !! a) -> defined (sys_waitpid_nonblock t (Entry a)) w.
Proof.
  intros Ha. unfold sys_waitpid_nonblock. apply bind_defined.
  - intros f. unfold poll_answer. by destruct (nonblock_script w).
  - intros answer w1 Hans.
    assert (Hh : heap w1 = heap w).
    { unfold poll_answer in Hans. destruct (nonblock_script w); [done|].
      by injection Hans as _ <-. }
    destruct answer as [st|]; [|apply ret_defined].
    apply bind_defined; [apply store_defined; by rewrite Hh|].
    intros [] w2 _. apply ret_defined.
Qed.

(** On a ring of allocated entries the scan never leaves the queue. *)
Lemma scan_ring_defined todo : forall fuel seen x e w,
  NoDup (seen ++ x :: todo) -> hd x seen = e ->
  (forall y, loop_next (tasklist w) y = loop_next (seen ++ x :: todo) y) ->
  current_entry w = Entry e ->
  (forall y, y ∈ x :: todo -> is_Some (heap w !! y)) ->
  defined (scan_ring fuel (Entry x)) w.
Proof.
  induction todo as [|y todo IH]; intros fuel seen x e w Hnd He Hl Hcur Hall;
    (destruct fuel as [|fuel]; [done|]); cbn [scan_ring]; unfold ctx_of;
    (assert (Hx : is_Some (heap w !! x))
       by (apply Hall; by apply elem_of_cons; left));
    (apply bind_defined; [by apply load_defined|]);
    intros c w0 Hload; apply load_Ret_inv in Hload as (? & _ & _ & ->);
    (destruct (negb (bool_decide (exec_state c = PROCESSING_SYSCALL)));
     [apply ret_defined|]);
    (apply bind_defined; [by apply sys_waitpid_nonblock_defined|]);
    intros r0 w1 Hpoll;
    apply sys_waitpid_nonblock_Ret_inv in Hpoll
      as (answer & rest & Hscr & Hans);
    (destruct answer as [st|];
     [destruct Hans as (-> & _);
      rewrite bool_decide_eq_false_2 by done; apply ret_defined|]);
    destruct Hans as (-> & ->);
    rewrite bool_decide_eq_true_2 by done; cbn [negb];
    (assert (Hxs : x ∉ seen);
     [apply NoDup_app in Hnd as (_ & Hdisj & _); intros Hin;
      apply (Hdisj x Hin); by apply elem_of_cons; left|]);
    intros f; unfold bind at 1, next_entry;
    cbn [tasklist with_trace with_nonblock_script];
    rewrite Hl, loop_next_split by done;
    rewrite bind_gets;
    cbn [current_entry with_trace with_nonblock_script]; rewrite Hcur.
  - assert (Hback : match seen with f :: _ => f | [] => x end = e)
      by (by destruct seen).
    by rewrite Hback, decide_True.
  - assert (Hye : y <> e).
    { intros ->. destruct seen as [|g seen]; simpl in He; subst.
      - apply NoDup_cons in Hnd as [Hnot _]. apply Hnot.
        by apply elem_of_cons; left.
      - simpl in Hnd. apply NoDup_cons in Hnd as [Hnot _]. apply Hnot.
        apply elem_of_app; right. apply elem_of_cons; right.
        by apply elem_of_cons; left. }
    rewrite decide_False by congruence.
    apply (IH fuel (seen ++ [x]) y e).
    + by rewrite <- app_assoc.
    + destruct seen; [done|by simpl].
    + intros z. cbn [tasklist with_trace with_nonblock_script].
      rewrite Hl. by rewrite <- app_assoc.
    + done.
    + intros z Hz. cbn [heap with_trace with_nonblock_script].
      apply Hall. by apply elem_of_cons; right.
Qed.

Lemma waitpid_retry_Ret_elem script : forall tr t st rest tr',
  waitpid_retry script tr = Ret (t, st, rest, tr') ->
  exists answer, answer ∈ script /\ wait_ret answer = t /\ t <> -1.
Proof.
  induction script as [|answer script IH]; intros tr t st rest tr'; [done|].
  cbn [waitpid_retry].
  destruct (decide (wait_ret answer = -1)) as [Hneg|Hpos].
  - destruct (decide (wait_errno answer = EINTR)); [|done].
    intros H. apply IH in H as (answer' & Hin & Ht & Hne).
    exists answer'. split; [by apply elem_of_cons; right|done].
  - intros [= <- <- <- <-]. exists answer.
    split; [by apply elem_of_cons; left|done].
Qed.

Lemma waitpid_retry_defined script : forall tr f,
  waitpid_retry script tr <> Undef f.
Proof.
  induction script as [|answer script IH]; intros tr f; [done|].
  cbn [waitpid_retry].
  destruct (decide (wait_ret answer = -1)); [|done].
  destruct (decide (wait_errno answer = EINTR)); [apply IH|done].
Qed.

Lemma wait_fallback_defined found w :
  consistent w -> waits_name_registered w ->
  defined (wait_fallback found) w.
Proof.
  intros Hc Hsane. destruct found as [[nc e] bw]. unfold wait_fallback.
  destruct (is_null nc); [|apply ret_defined].
  apply bind_defined.
  { intros f. unfold wait_for_any.
    pose proof (waitpid_retry_defined (waitpid_script w) (trace w)) as Hd.
    destruct (waitpid_retry (waitpid_script w) (trace w))
      as [[[[t st] rest] tr]| | |  |]; try done. intros [= ->]. by eapply Hd. }
  intros [t st] w1 Hany.
  assert (Hreg : is_Some (tid_to_entry w !! t) /\
                 tid_to_entry w1 = tid_to_entry w /\ heap w1 = heap w).
  { unfold wait_for_any in Hany.
    destruct (waitpid_retry (waitpid_script w) (trace w))
      as [[[[t0 st0] rest] tr]| | | |] eqn:Hretry; try done.
    injection Hany as <- <- <-.
    apply waitpid_retry_Ret_elem in Hretry as (answer & Hin & Ht & Hne).
    unfold waits_name_registered in Hsane. rewrite Forall_forall in Hsane.
    destruct (Hsane answer Hin) as [Hneg|Hsome]; [congruence|].
    rewrite Ht in Hsome. done. }
  destruct Hreg as ([b Hb] & Hi & Hh).
  pose proof (consistent_index_range _ _ _ Hc Hb) as Hr.
  pose proof Hb as Hb'. apply (cons_index _ Hc) in Hb' as (cb & Hcb & _).
  intros f. rewrite bind_get_entry by lia. rewrite Hi, Hb. unfold ctx_of.
  revert f. apply bind_defined; [|intros [] w2 _; apply ret_defined].
  apply store_defined. rewrite Hh. by eexists.
Qed.

Lemma commit_defined ctx m b bw cb w :
  heap w !! b = Some cb ->
  (ctx = Entry b -> switch_counter cb <> INT_MIN) ->
  defined (commit ctx m (Entry b, Entry b, bw)) w.
Proof.
  intros Hb Hmin f. unfold commit. rewrite bind_modify.
  destruct (decide (ctx = Entry b)) as [->|Hne].
  - by rewrite (bind_note_switch_same b cb) by auto.
  - by rewrite (bind_note_switch_other ctx b cb) by done.
Qed.

Lemma find_runnable_defined e w :
  consistent w -> waits_name_registered w ->
  current_entry w = Entry e -> e ∈ tasklist w ->
  defined (find_runnable (Entry e)) w.
Proof.
  intros Hc Hsane Hcur Hin. unfold find_runnable, scan_once.
  apply bind_defined.
  - intros f. rewrite bind_gets. revert f.
    destruct (list_elem_of_split _ _ Hin) as (pre & post & Hl).
    pose proof (cons_nodup _ Hc) as Hnd. rewrite Hl in Hnd.
    apply (scan_ring_defined (post ++ pre) _ [] e e).
    + simpl. by rewrite (Permutation_app_comm pre (e :: post)) in Hnd.
    + done.
    + intros y. rewrite Hl. simpl.
      by rewrite (loop_next_rotate pre (e :: post) y Hnd).
    + done.
    + intros y Hy. apply (cons_heap _ Hc). rewrite Hl.
      change (y ∈ (e :: post) ++ pre) in Hy.
      apply elem_of_app. apply elem_of_app in Hy as [Hy|Hy];
        [by right|by left].
  - intros found w1 Hscan. rewrite bind_gets in Hscan.
    destruct found as [[nc e1] bw].
    apply scan_ring_Ret_inv in Hscan as (Hl & Hi & Hcur1 & Hn & Hw & Hcase).
    destruct Hcase as [(-> & _ & _ & Hheap)|(b & cb & -> & _)].
    + apply wait_fallback_defined.
      * constructor; rewrite ?Hl, ?Hi, ?Hheap, ?Hn, ?Hcur1; apply Hc.
      * unfold waits_name_registered. by rewrite Hw, Hi.
    + unfold wait_fallback. cbn [is_null]. apply ret_defined.
Qed.

(** On a well-formed state with at least one task, a call that passes no
    context or an allocated one has no undefined behaviour, provided that
    [max_events] is not the least [int] and that the blocking wait only
    names registered tasks: it returns, is fatal, or waits for ever. *)
Theorem select_has_no_undefined_behaviour fl ctx w :
  consistent w -> tasklist w <> [] ->
  ctx = Null \/ (exists a, ctx = Entry a /\ is_Some (heap w !! a)) ->
  max_events fl <> INT_MIN ->
  waits_name_registered w ->
  defined (rec_sched_get_active_thread fl ctx) w /\
  rec_sched_get_active_thread fl ctx w <> OutOfFuel.
Proof.
  intros Hc Hne Hctx Hmax Hsane. split; [|by apply select_fuel].
  assert (Hboot : exists e, bootstrapped w = Entry e /\ e ∈ tasklist w).
  { unfold bootstrapped.
    destruct (cons_cursor _ Hc) as [->|(a & -> & Ha)]; cbn [is_null].
    - destruct (tasklist w) as [|x l]; [done|].
      exists x. split; [done|]. by apply elem_of_cons; left.
    - by exists a. }
  destruct Hboot as (e & Hboot & He).
  intros f. rewrite select_after_bootstrap. rewrite Hboot. revert f.
  set (wb := with_current_entry (Entry e) w).
  assert (Hcb : consistent wb) by (by apply consistent_with_cursor).
  apply bind_defined.
  { destruct Hctx as [->|(a & -> & Ha)]; [apply ret_defined|].
    unfold unswitchable. cbn [is_null].
    apply bind_defined; [by apply load_defined|].
    intros c w1 _. apply ret_defined. }
  intros stay w0 Hstay. apply unswitchable_Ret_inv in Hstay as (-> & Hstay).
  destruct stay; [apply ret_defined|].
  assert (Hfind : forall w1 n,
            consistent w1 -> waits_name_registered w1 ->
            current_entry w1 = Entry n -> n ∈ tasklist w1 ->
            (forall b cb, ctx = Entry b -> heap w1 !! b = Some cb ->
                          switch_counter cb <> INT_MIN) ->
            defined (found <- find_runnable (Entry n) ;;
                     commit ctx (max_events fl) found) w1).
  { intros w1 n Hc1 Hs1 Hcur1 Hn Hbud.
    apply bind_defined; [by apply find_runnable_defined|].
    intros [[nc e1] bw] wf Hrun.
    apply find_runnable_Ret_inv in Hrun
      as (_ & _ & _ & _ & b & cb & -> & -> & Hb & Hcase).
    destruct Hcase as [(_ & _ & Hheap & _)|(_ & st & tr & Hheap & _)].
    - apply (commit_defined ctx _ b bw cb); [by rewrite Hheap|].
      intros Heq. by apply (Hbud b cb).
    - apply (commit_defined ctx _ b bw (set_status st cb)).
      + rewrite Hheap. apply lookup_insert_eq.
      + intros Heq. by apply (Hbud b cb). }
  intros f. unfold choose_next, prefer_next. rewrite !bind_assoc.
  destruct Hctx as [->|(a & -> & [c Ha])]; cbn [is_null].
  - rewrite !bind_ret_l. revert f.
    apply Hfind; try done.
  - rewrite !bind_assoc. rewrite bind_load with (c := c) by done.
    rewrite bind_ret_l.
    destruct (bool_decide (switch_counter c < 0)) eqn:Hneg.
    + apply bool_decide_eq_true_1 in Hneg.
      destruct (loop_next_elem _ _ He) as (n & Hn & Hnin).
      rewrite !bind_assoc. rewrite (bind_next_entry e n) by done.
      rewrite !bind_assoc, bind_modify, !bind_assoc.
      rewrite bind_store with (c := c) by done. rewrite bind_ret_l.
      revert f. apply Hfind.
      * apply (consistent_frame w); wsimpl; try done.
        -- by apply (selection_frame_insert _ a c).
        -- right. by exists n.
      * done.
      * done.
      * done.
      * intros b cb [= <-]. wsimpl. rewrite lookup_insert_eq.
        by intros [= <-].
    + apply bool_decide_eq_false_1 in Hneg. rewrite bind_ret_l.
      revert f. apply Hfind; try done.
      intros b cb [= <-] Hb. assert (cb = c) as -> by (unfold wb in Hb; cbn in Hb; congruence).
      int_lia.
Qed.


(** *** The short-circuit, call after call *)

Lemma select_short_circuit fl a c w :
  heap w !! a = Some c -> switchable c = 0 ->
  rec_sched_get_active_thread fl (Entry a) w =
  Ret ((Entry a, 0), with_current_entry (bootstrapped w) w).
Proof.
  intros Ha Hsw. rewrite select_after_bootstrap.
  rewrite (bind_unswitchable_Entry a c) by done.
  by rewrite bool_decide_eq_true_2.
Qed.

(** The scheduler alone makes no progress on a context that is not
    switchable: however often it is passed back in, it is returned again,
    without a poll, a wait or a write to any record: if the task is inside
    a system call, its status is never refreshed. *)
Theorem unswitchable_context_is_returned_for_ever fl a c n : forall w,
  heap w !! a = Some c -> switchable c = 0 ->
  exists w',
    repeat_select fl n (Entry a) w = Ret (replicate n (Entry a), w') /\
    heap w' = heap w /\ tasklist w' = tasklist w /\
    trace w' = trace w /\ nonblock_script w' = nonblock_script w /\
    waitpid_script w' = waitpid_script w.
Proof.
  induction n as [|n IH]; intros w Ha Hsw.
  - by exists w.
  - set (w1 := with_current_entry (bootstrapped w) w).
    destruct (IH w1) as (w' & Hrun & Hh & Hl & Ht & Hp & Hq); [done..|].
    exists w'. split; [|done].
    cbn [repeat_select replicate].
    rewrite (bind_Ret _ _ _ _ _ (select_short_circuit fl a c w Ha Hsw)).
    fold w1. by rewrite (bind_Ret _ _ _ _ _ Hrun).
Qed.


(** *** Deregistration and selection together *)

(** Deregistering the task under the cursor hands the turn to the task
    linked after it: when that task is not inside a system call, the next
    call without a context returns it, without consulting the wait
    backend. *)
Theorem deregister_hands_turn_to_successor fl a c nxt cn w :
  consistent w -> current_entry w = Entry a ->
  heap w !! a = Some c ->
  loop_next (tasklist w) a = Some nxt -> nxt <> a ->
  heap w !! nxt = Some cn -> exec_state cn <> PROCESSING_SYSCALL ->
  exists w',
    (rec_sched_deregister_thread (Entry a) ;;
     rec_sched_get_active_thread fl Null) w = Ret ((Entry nxt, 0), w') /\
    current_entry w' = Entry nxt /\
    heap w' !! nxt = Some (set_switch_counter (max_events fl) cn) /\
    heap w' !! a = None /\
    nonblock_script w' = nonblock_script w /\
    waitpid_script w' = waitpid_script w.
Proof.
  intros Hc Hcur Ha Hnx Hne Hn Hready.
  destruct (deregister_consistent_run a c w Hc Ha)
    as (rest & nxt' & Hun & Hnx' & Hrun & _).
  assert (nxt' = nxt) as -> by congruence.
  set (w1 := deregistered a c rest nxt w) in *.
  assert (Hcur1 : current_entry w1 = Entry nxt).
  { unfold w1, deregistered. cbn [current_entry].
    rewrite decide_True by done. by rewrite decide_False. }
  assert (Hn1 : heap w1 !! nxt = Some cn).
  { unfold w1, deregistered. cbn [heap]. by rewrite lookup_delete_ne. }
  eexists. split.
  - rewrite (bind_Ret _ _ _ _ _ Hrun).
    apply (select_null_ready fl nxt cn); [|done..].
    unfold bootstrapped. by rewrite Hcur1.
  - wsimpl. split; [done|]. split; [apply lookup_insert_eq|].
    split; [|done].
    rewrite lookup_insert_ne by done.
    unfold w1, deregistered. cbn [heap]. apply lookup_delete_eq.
Qed.

End Scheduler.

(** [three_tasks] is the state three registrations lead to. *)
Example three_tasks_registered :
  do_calls SAMPLE_MAX_TID sample_fd
    [CallRegister sample_flags 0 5; CallRegister sample_flags 0 6;
     CallRegister sample_flags 0 7] (initial_world [] []) =
  Ret (tt, three_tasks).
Proof. vm_compute. reflexivity. Qed.

(** [twice_registered] is the state two registrations of task 5 lead to. *)
Example twice_registered_run :
  do_calls SAMPLE_MAX_TID sample_fd
    [CallRegister sample_flags 0 5; CallRegister sample_flags 0 5]
    (initial_world [] []) =
  Ret (tt, twice_registered).
Proof. vm_compute. reflexivity. Qed.

(** ** The theorems at sample inputs *)

(** The first call after registering A, B and C: A is chosen, it is not the
    current context (there is none), and its budget becomes 10. *)
Lemma commit_budget_accounting_witness :
  exists w',
    rec_sched_get_active_thread SAMPLE_MAX_TID sample_flags Null three_tasks =
      Ret ((Entry 1, 0), w') /\
    unswitchable Null three_tasks = Ret (false, three_tasks) /\
    exists entry wc b cb,
      choose_next SAMPLE_MAX_TID Null (bootstrapped three_tasks)
        (max_events sample_flags)
        (with_current_entry (bootstrapped three_tasks) three_tasks) =
        Ret ((Entry 1, entry, 0), wc) /\
      Entry 1 = Entry b /\ heap wc !! b = Some cb /\
      heap w' !! b =
        Some (set_switch_counter
                (if decide (Null = Entry 1) then switch_counter cb - 1
                 else max_events sample_flags) cb) /\
      (forall x, x <> b -> heap w' !! x = heap wc !! x) /\
      current_entry w' = entry /\
      (forall x, Null <> Entry x -> budgets wc !! x = budgets three_tasks !! x) /\
      (forall a ca, Null = Entry a -> heap three_tasks !! a = Some ca ->
         budgets wc !! a =
         Some (if decide (switch_counter ca < 0) then max_events sample_flags
               else switch_counter ca)).
Proof.
  eexists. split; [vm_compute; reflexivity|]. split; [reflexivity|].
  apply commit_budget_accounting; [vm_compute; reflexivity|reflexivity].
Defined.

(** A is not switchable (registration zero-fills the record): a call for A
    returns A and changes nothing but the cursor. *)
Lemma unswitchable_short_circuit_witness :
  heap three_tasks !! 1%positive = Some (sample_task 5) /\
  switchable (sample_task 5) = 0 /\
  exists w',
    rec_sched_get_active_thread SAMPLE_MAX_TID sample_flags (Entry 1)
      three_tasks = Ret ((Entry 1, 0), w') /\
    heap w' = heap three_tasks /\ tasklist w' = tasklist three_tasks /\
    tid_to_entry w' = tid_to_entry three_tasks /\
    num_active_threads w' = num_active_threads three_tasks /\
    nonblock_script w' = nonblock_script three_tasks /\
    waitpid_script w' = waitpid_script three_tasks /\
    trace w' = trace three_tasks /\
    current_entry w' = bootstrapped three_tasks.
Proof.
  split; [reflexivity|]. split; [reflexivity|].
  apply (unswitchable_short_circuit SAMPLE_MAX_TID sample_flags 1
           (sample_task 5) three_tasks); reflexivity.
Defined.

(** Registering task 8 as a child of task 9, which is not registered. *)
Lemma register_unknown_parent_null_access_witness :
  0 < 8 < SAMPLE_MAX_TID /\ 9 <> 0 /\
  get_task SAMPLE_MAX_TID 9 three_tasks = Ret (Null, three_tasks) /\
  rec_sched_register_thread SAMPLE_MAX_TID sample_fd sample_flags 9 8
    three_tasks = Undef NullAccess.
Proof.
  assert (H1 : 0 < 8 < SAMPLE_MAX_TID) by (unfold SAMPLE_MAX_TID; lia).
  assert (H2 : 9 <> 0) by lia.
  assert (H3 : get_task SAMPLE_MAX_TID 9 three_tasks = Ret (Null, three_tasks))
    by reflexivity.
  split; [exact H1|]. split; [exact H2|]. split; [exact H3|].
  exact (register_unknown_parent_null_access SAMPLE_MAX_TID sample_fd
           sample_flags 9 8 three_tasks H1 H2 H3).
Defined.

(** A is current, its budget is -1 and it is not switchable: the call returns
    A and leaves the state as it is.  The cursor is still on A, not on the
    entry B linked after it, and the budget of A is still -1, not 10. *)
Lemma unswitchable_task_keeps_exceeded_budget :
  switch_counter <$> heap a_exceeded_unswitchable !! 1%positive = Some (-1) /\
  current_entry a_exceeded_unswitchable = Entry 1 /\
  loop_next (tasklist a_exceeded_unswitchable) 1 = Some 2%positive /\
  rec_sched_get_active_thread SAMPLE_MAX_TID sample_flags (Entry 1)
    a_exceeded_unswitchable =
  Ret ((Entry 1, 0), a_exceeded_unswitchable).
Proof. repeat split; vm_compute; reflexivity. Qed.

(** The same with A switchable: B is returned and both budgets are 10. *)
Lemma budget_exceeded_advance_witness :
  let ca := set_switchable 1 (set_switch_counter (-1) (sample_task 5)) in
  heap a_exceeded !! 1%positive = Some ca /\
  switchable ca <> 0 /\ switch_counter ca < 0 /\
  bootstrapped a_exceeded = Entry 1 /\
  loop_next (tasklist a_exceeded) 1 = Some 2%positive /\
  tasklist a_exceeded = [1; 2; 3]%positive /\
  heap a_exceeded !! 2%positive = Some (sample_task 6) /\
  exec_state (sample_task 6) <> PROCESSING_SYSCALL /\
  exists w',
    rec_sched_get_active_thread SAMPLE_MAX_TID sample_flags (Entry 1)
      a_exceeded = Ret ((Entry 2, 0), w') /\
    current_entry w' = Entry 2 /\
    switch_counter <$> heap w' !! 1%positive = Some 10 /\
    switch_counter <$> heap w' !! 2%positive = Some 10.
Proof.
  intros ca.
  assert (H1 : heap a_exceeded !! 1%positive = Some ca) by reflexivity.
  assert (H2 : switchable ca <> 0) by (vm_compute; discriminate).
  assert (H3 : switch_counter ca < 0) by reflexivity.
  assert (H4 : bootstrapped a_exceeded = Entry 1) by reflexivity.
  assert (H5 : loop_next (tasklist a_exceeded) 1 = Some 2%positive)
    by reflexivity.
  assert (H6 : tasklist a_exceeded = [1; 2; 3]%positive) by reflexivity.
  assert (H7 : heap a_exceeded !! 2%positive = Some (sample_task 6))
    by reflexivity.
  assert (H8 : exec_state (sample_task 6) <> PROCESSING_SYSCALL)
    by discriminate.
  repeat (split; [assumption|]).
  exact (proj2 (budget_exceeded_advance SAMPLE_MAX_TID sample_flags 1 ca 1 2
                  a_exceeded H1 H2 H3 H4 H5)
           2%positive 3%positive (sample_task 6) H6 eq_refl
           ltac:(discriminate) H7 H8).
Defined.

(** A, B and C are inside system calls, no poll reports a change and the
    blocking wait reports task 9, which is not registered: the call ends in
    a null access, not in an abort. *)
Lemma unknown_wait_id_null_access :
  waitpid_script (all_blocked 9 1407) = [mkWait 9 1407 0] /\
  0 <= 9 < SAMPLE_MAX_TID /\
  tid_to_entry (all_blocked 9 1407) !! 9 = None /\
  rec_sched_get_active_thread SAMPLE_MAX_TID sample_flags Null
    (all_blocked 9 1407) = Undef NullAccess.
Proof. repeat split; vm_compute; (reflexivity || discriminate). Qed.

(** The phases of that call. *)
Lemma fallback_lookup_is_unchecked_witness :
  let w := all_blocked 9 1407 in
  exists e1 w1 e2 by_w w2 w3,
    unswitchable Null w = Ret (false, w) /\
    prefer_next Null (bootstrapped w) (max_events sample_flags)
      (with_current_entry (bootstrapped w) w) = Ret (e1, w1) /\
    scan_once e1 w1 = Ret ((Null, e2, by_w), w2) /\
    wait_for_any w2 = Ret ((9, 1407), w3) /\
    0 <= 9 < SAMPLE_MAX_TID /\
    tid_to_entry w3 !! 9 = None /\
    rec_sched_get_active_thread SAMPLE_MAX_TID sample_flags Null w =
    Undef NullAccess.
Proof.
  intros w. do 6 eexists.
  assert (H1 : unswitchable Null w = Ret (false, w)) by reflexivity.
  split; [exact H1|].
  match goal with |- ?A /\ ?B /\ ?C /\ ?D /\ ?E =>
    assert (H2 : A) by (vm_compute; reflexivity);
    assert (H3 : B) by (vm_compute; reflexivity);
    assert (H4 : C) by (vm_compute; reflexivity);
    assert (H5 : D) by (unfold SAMPLE_MAX_TID; lia)
  end.
  split; [exact H2|]. split; [exact H3|]. split; [exact H4|].
  split; [exact H5|].
  assert (H6 : forall x y : Prop, x -> (x -> y) -> x /\ y) by tauto.
  apply H6; [vm_compute; reflexivity|].
  exact (proj1 (fallback_lookup_is_unchecked SAMPLE_MAX_TID sample_flags Null
                  w _ _ _ _ _ _ _ _ H1 H2 H3 H4 H5)).
Defined.

(** Two switchable tasks, none inside a system call, [max_events = 10]: the
    first two calls both return task A, whose budget goes from 10 to 9; B
    has not been returned when A is returned for the second time. *)
Lemma same_task_returned_twice :
  tasklist two_ready = [1; 2]%positive /\
  (forall a, a ∈ tasklist two_ready ->
     exists c, heap two_ready !! a = Some c /\
               exec_state c = RUNNABLE /\ switchable c = 1) /\
  exists w',
    repeat_select SAMPLE_MAX_TID sample_flags 2 Null two_ready =
      Ret ([Entry 1; Entry 1], w') /\
    switch_counter <$> heap w' !! 1%positive = Some 9 /\
    switch_counter <$> heap w' !! 2%positive = Some 0.
Proof.
  split; [reflexivity|]. split.
  - intros a Ha. change (a ∈ [1; 2]%positive) in Ha.
    apply elem_of_cons in Ha as [->|Ha]; [by eexists|].
    apply elem_of_cons in Ha as [->|Ha]; [by eexists|].
    by apply elem_of_nil in Ha.
  - eexists. split; [vm_compute; reflexivity|]. by split.
Qed.

(** Two revolutions over two tasks with [max_events = 1]: twelve calls
    return A, A, A, B, B, B, A, A, A, B, B, B. *)
Lemma turns_rotate_in_queue_order_witness :
  let fl := mkFlags 1 1000 in
  tasklist two_ready = [] ++ 1%positive :: [2%positive] /\
  (2 <= length (tasklist two_ready))%nat /\
  NoDup (tasklist two_ready) /\ all_ready two_ready /\
  bootstrapped two_ready = Entry 1 /\
  exists w',
    repeat_select SAMPLE_MAX_TID fl
      (2 * (length (tasklist two_ready) * turn_length (max_events fl))) Null
      two_ready =
    Ret (concat
           (replicate 2
              (flat_map
                 (fun a => replicate (turn_length (max_events fl)) (Entry a))
                 (1%positive :: [2%positive] ++ []))), w').
Proof.
  intros fl.
  assert (H0 : tasklist two_ready = [] ++ 1%positive :: [2%positive])
    by reflexivity.
  assert (H1 : (2 <= length (tasklist two_ready))%nat) by (simpl; lia).
  assert (H2 : NoDup (tasklist two_ready)).
  { apply (bool_decide_unpack _). vm_compute. reflexivity. }
  assert (H3 : all_ready two_ready).
  { intros a Ha. change (a ∈ [1; 2]%positive) in Ha.
    apply elem_of_cons in Ha as [->|Ha].
    - eexists. split; [reflexivity|]. split; discriminate.
    - apply elem_of_cons in Ha as [->|Ha].
      + eexists. split; [reflexivity|]. split; discriminate.
      + by apply elem_of_nil in Ha. }
  assert (H4 : bootstrapped two_ready = Entry 1) by reflexivity.
  repeat (split; [assumption|]).
  exact (turns_rotate_in_queue_order SAMPLE_MAX_TID fl two_ready
           [] 1%positive [2%positive] 2 H0 H1 H2 H3 H4).
Defined.

(** The sample bound is an [int]. *)
Lemma sample_max_tid_is_int : SAMPLE_MAX_TID <= INT_MAX.
Proof. unfold SAMPLE_MAX_TID, INT_MAX. lia. Defined.

(** A single registered task, selected. *)
Lemma one_task_consistent :
  consistent SAMPLE_MAX_TID (with_current_entry (Entry 1) one_task).
Proof.
  apply consistent_with_cursor.
  - apply (calls_consistent SAMPLE_MAX_TID sample_fd sample_max_tid_is_int
             [CallRegister sample_flags 0 5] [] []); vm_compute; reflexivity.
  - apply elem_of_cons. by left.
Defined.

(** Three registered tasks. *)
Lemma three_tasks_consistent : consistent SAMPLE_MAX_TID three_tasks.
Proof.
  apply (calls_consistent SAMPLE_MAX_TID sample_fd sample_max_tid_is_int
           [CallRegister sample_flags 0 5; CallRegister sample_flags 0 6;
            CallRegister sample_flags 0 7] [] []); vm_compute; reflexivity.
Defined.

(** Deregistering the only task, which the cursor is on. *)
Lemma deregister_cursor_task_witness :
  let w := with_current_entry (Entry 1) one_task in
  SAMPLE_MAX_TID <= INT_MAX /\ consistent SAMPLE_MAX_TID w /\
  current_entry w = Entry 1 /\
  heap w !! 1%positive = Some (sample_task 5) /\
  exists nxt w',
    loop_next (tasklist w) 1 = Some nxt /\
    rec_sched_deregister_thread SAMPLE_MAX_TID (Entry 1) w = Ret (Null, w') /\
    (nxt <> 1%positive ->
     current_entry w' = Entry nxt /\ nxt ∈ tasklist w') /\
    (tasklist w = [1%positive] ->
     current_entry w' = Null /\ tasklist w' = [] /\
     forall fl fl' child, 0 < child < SAMPLE_MAX_TID ->
       exists b cb w'',
         (rec_sched_register_thread SAMPLE_MAX_TID sample_fd fl 0 child ;;
          rec_sched_get_active_thread SAMPLE_MAX_TID fl' Null)%sched w' =
           Ret ((Entry b, 0), w'') /\
         tasklist w'' = [b] /\ heap w'' !! b = Some cb /\ tid cb = child /\
         current_entry w'' = Entry b).
Proof.
  intros w.
  split; [exact sample_max_tid_is_int|].
  split; [exact one_task_consistent|].
  split; [reflexivity|]. split; [reflexivity|].
  exact (deregister_cursor_task SAMPLE_MAX_TID sample_fd sample_max_tid_is_int
           w 1 (sample_task 5) one_task_consistent eq_refl eq_refl).
Defined.

(** Registering task 5 twice in a row: both calls return, and then two
    allocated records carry the id 5, the queue holds two entries, the index
    one, and the count is 2. *)
Lemma duplicate_registration_shares_id :
  do_calls SAMPLE_MAX_TID sample_fd
    [CallRegister sample_flags 0 5; CallRegister sample_flags 0 5]
    (initial_world [] []) = Ret (tt, twice_registered) /\
  ~ unique_tids twice_registered /\
  ~ counts_agree twice_registered.
Proof.
  split; [vm_compute; reflexivity|]. split.
  - intros H.
    specialize (H 1%positive 2%positive (sample_task 5) (sample_task 5)
                  eq_refl eq_refl eq_refl).
    discriminate.
  - intros (n & Hn & Hl & Hs). vm_compute in Hl, Hs. congruence.
Qed.

(** Register 5, register 6 as a child of 5, deregister 5, register 7,
    observed after the third call. *)
Lemma orderly_calls_keep_ids_unique_and_counts_equal_witness :
  let cs := [CallRegister sample_flags 0 5; CallRegister sample_flags 5 6;
             CallDeregister 5; CallRegister sample_flags 0 7] in
  let pre := [CallRegister sample_flags 0 5; CallRegister sample_flags 5 6;
              CallDeregister 5] in
  SAMPLE_MAX_TID <= INT_MAX /\
  orderly SAMPLE_MAX_TID ∅ cs = true /\ pre `prefix_of` cs /\
  exists w',
    do_calls SAMPLE_MAX_TID sample_fd pre (initial_world [] []) =
      Ret (tt, w') /\
    unique_tids w' /\ counts_agree w'.
Proof.
  intros cs pre.
  assert (H1 : orderly SAMPLE_MAX_TID ∅ cs = true) by (vm_compute; reflexivity).
  assert (H2 : pre `prefix_of` cs) by (by exists [CallRegister sample_flags 0 7]).
  split; [exact sample_max_tid_is_int|]. split; [exact H1|]. split; [exact H2|].
  exact (orderly_calls_keep_ids_unique_and_counts_equal SAMPLE_MAX_TID
           sample_fd sample_max_tid_is_int [] [] cs pre H1 H2).
Defined.

(** Tearing down A, B and C. *)
Lemma exit_all_leaves_initial_state_witness :
  consistent SAMPLE_MAX_TID three_tasks /\
  exists w',
    rec_sched_exit_all SAMPLE_MAX_TID three_tasks = Ret (tt, w') /\
    tasklist w' = [] /\ heap w' = ∅ /\ tid_to_entry w' = ∅ /\
    current_entry w' = Null /\ num_active_threads w' = 0 /\
    rec_sched_get_num_threads w' = Ret (0, w') /\
    trace w' =
      trace three_tasks ++
      flat_map (teardown_events three_tasks) (tasklist three_tasks) /\
    nonblock_script w' = nonblock_script three_tasks /\
    waitpid_script w' = waitpid_script three_tasks.
Proof.
  split; [exact three_tasks_consistent|].
  exact (exit_all_leaves_initial_state SAMPLE_MAX_TID three_tasks
           three_tasks_consistent).
Defined.

(** The renaming that moves every entry by ten addresses. *)
Lemma moved_by_ten_inj : Inj (=) (=) (Pos.add 10).
Proof. intros x y H. lia. Defined.

(** [all_blocked_elsewhere] holds the scheduler state of
    [all_blocked 6 1407] ten addresses on. *)
Lemma all_blocked_elsewhere_same :
  same_up_to_addresses (Pos.add 10) (all_blocked 6 1407) all_blocked_elsewhere.
Proof.
  pose proof moved_by_ten_inj as Hinj.
  split; [reflexivity|]. split; [|split; [|by split]].
  - intros a.
    assert (H : heap all_blocked_elsewhere =
                kmap (Pos.add 10) (heap (all_blocked 6 1407)))
      by (vm_compute; reflexivity).
    rewrite H. apply (lookup_kmap (Pos.add 10)).
  - intros t.
    assert (H : tid_to_entry all_blocked_elsewhere =
                Pos.add 10 <$> tid_to_entry (all_blocked 6 1407))
      by (vm_compute; reflexivity).
    rewrite H. apply lookup_fmap.
Defined.

(** Two runs over A, B and C, all inside system calls.  The second one has
    the entries at the addresses 11, 12 and 13 instead of 1, 2 and 3,
    another past and other answers of the backend to come, but gets the
    same answers to the three polls and to the blocking wait: it returns
    the entry of B at its address 12. *)
Lemma select_next_deterministic_witness :
  let ren := Pos.add 10 in
  let w1 := all_blocked 6 1407 in
  let w2 := all_blocked_elsewhere in
  exists w1',
    Inj (=) (=) ren /\
    same_up_to_addresses ren w1 w2 /\
    rec_sched_get_active_thread SAMPLE_MAX_TID sample_flags Null w1 =
      Ret ((Entry 2, 1), w1') /\
    nonblock_script w1 = [None; None; None] ++ nonblock_script w1' /\
    waitpid_script w1 = [mkWait 6 1407 0] ++ waitpid_script w1' /\
    nonblock_script w2 = [None; None; None] ++ [Some 1] /\
    waitpid_script w2 = [mkWait 6 1407 0] ++ [mkWait 7 0 0] /\
    exists w2' asked,
      rec_sched_get_active_thread SAMPLE_MAX_TID sample_flags
        (rename ren Null) w2 = Ret ((rename ren (Entry 2), 1), w2') /\
      same_up_to_addresses ren w1' w2' /\
      nonblock_script w2' = [Some 1] /\ waitpid_script w2' = [mkWait 7 0 0] /\
      trace w1' = trace w1 ++ asked /\ trace w2' = trace w2 ++ asked.
Proof.
  intros ren w1 w2. eexists.
  split; [exact moved_by_ten_inj|].
  split; [exact all_blocked_elsewhere_same|].
  match goal with |- ?A /\ ?B /\ ?C /\ ?D /\ ?E /\ _ =>
    assert (H2 : A) by (vm_compute; reflexivity);
    assert (H3 : B) by reflexivity;
    assert (H4 : C) by reflexivity;
    assert (H5 : D) by reflexivity;
    assert (H6 : E) by reflexivity
  end.
  repeat (split; [assumption|]).
  exact (select_next_deterministic SAMPLE_MAX_TID ren moved_by_ten_inj
           sample_flags Null w1 w2 (Entry 2) 1 _ _ _ _ _
           all_blocked_elsewhere_same H2 H3 H4 H5 H6).
Defined.

(** ** The further properties at sample inputs *)

(** [orphaned_record] is the state that registering task 5 twice and
    deregistering it through its first record leads to. *)
Example orphaned_record_run :
  (do_calls SAMPLE_MAX_TID sample_fd
     [CallRegister sample_flags 0 5; CallRegister sample_flags 0 5] ;;
   rec_sched_deregister_thread SAMPLE_MAX_TID (Entry 1))%sched
    (initial_world [] []) =
  Ret (Null, orphaned_record).
Proof. vm_compute. reflexivity. Qed.

(** A, B and C inside system calls. *)
Lemma all_blocked_consistent t st :
  consistent SAMPLE_MAX_TID (all_blocked t st).
Proof.
  unfold all_blocked. apply consistent_with_scripts.
  repeat apply consistent_poke; try done. exact three_tasks_consistent.
Defined.

(** Registering task 8 as a child of task 5 beside A, B and C. *)
Lemma register_then_lookup_witness :
  0 < 8 < SAMPLE_MAX_TID /\
  num_active_threads three_tasks <> INT_MAX /\
  (5 = 0 \/
   (0 <= 5 < SAMPLE_MAX_TID /\
    exists pa pc, tid_to_entry three_tasks !! 5 = Some pa /\
                  heap three_tasks !! pa = Some pc)) /\
  exists a c w',
    rec_sched_register_thread SAMPLE_MAX_TID sample_fd sample_flags 5 8
      three_tasks = Ret (tt, w') /\
    get_task SAMPLE_MAX_TID 8 w' = Ret (Entry a, w') /\
    heap three_tasks !! a = None /\ heap w' !! a = Some c /\
    exec_state c = RUNNABLE /\ status c = 0 /\
    tid c = 8 /\ rec_tid c = 8 /\
    child_mem_fd c = sample_fd 8 /\
    desched_fd c = -1 /\ desched_fd_child c = -1 /\
    switchable c = 0 /\ switch_counter c = 0 /\
    tasklist w' = tasklist three_tasks ++ [a] /\
    rec_sched_get_num_threads w' =
      Ret (num_active_threads three_tasks + 1, w') /\
    current_entry w' = current_entry three_tasks /\
    (forall t, t <> 8 -> tid_to_entry w' !! t = tid_to_entry three_tasks !! t) /\
    (forall x, x <> a -> heap w' !! x = heap three_tasks !! x).
Proof.
  assert (H1 : 0 < 8 < SAMPLE_MAX_TID) by (unfold SAMPLE_MAX_TID; lia).
  assert (H2 : num_active_threads three_tasks <> INT_MAX) by discriminate.
  assert (H3 : 5 = 0 \/
               (0 <= 5 < SAMPLE_MAX_TID /\
                exists pa pc, tid_to_entry three_tasks !! 5 = Some pa /\
                              heap three_tasks !! pa = Some pc)).
  { right. split; [unfold SAMPLE_MAX_TID; lia|].
    exists 1%positive, (sample_task 5). by split. }
  repeat (split; [assumption|]).
  exact (register_then_lookup SAMPLE_MAX_TID sample_fd sample_flags 5 8
           three_tasks H1 H2 H3).
Defined.

(** Registering task 8 as a child of A, whose record carries the bounds
    4096 and 8192. *)
Lemma register_syscallbuf_bounds_witness :
  let w := parent_with_syscallbuf in
  0 < 8 < SAMPLE_MAX_TID /\
  num_active_threads w <> INT_MAX /\
  (5 = 0 \/
   (0 <= 5 < SAMPLE_MAX_TID /\
    exists pa pc, tid_to_entry w !! 5 = Some pa /\ heap w !! pa = Some pc)) /\
  exists a c w',
    rec_sched_register_thread SAMPLE_MAX_TID sample_fd sample_flags 5 8 w =
      Ret (tt, w') /\
    tid_to_entry w' !! 8 = Some a /\ heap w' !! a = Some c /\
    (5 = 0 ->
     syscallbuf_lib_start c = 0 /\ syscallbuf_lib_end c = 0) /\
    (5 <> 0 -> forall pa pc,
       tid_to_entry w !! 5 = Some pa -> heap w !! pa = Some pc ->
       syscallbuf_lib_start c = syscallbuf_lib_start pc /\
       syscallbuf_lib_end c = syscallbuf_lib_end pc /\
       heap w' !! pa = Some pc).
Proof.
  intros w.
  assert (H1 : 0 < 8 < SAMPLE_MAX_TID) by (unfold SAMPLE_MAX_TID; lia).
  assert (H2 : num_active_threads w <> INT_MAX) by discriminate.
  assert (H3 : 5 = 0 \/
               (0 <= 5 < SAMPLE_MAX_TID /\
                exists pa pc, tid_to_entry w !! 5 = Some pa /\
                              heap w !! pa = Some pc)).
  { right. split; [unfold SAMPLE_MAX_TID; lia|].
    exists 1%positive. eexists. split; reflexivity. }
  repeat (split; [assumption|]).
  exact (register_syscallbuf_bounds SAMPLE_MAX_TID sample_fd sample_flags 5 8
           w H1 H2 H3).
Defined.

(** Registering the id 0. *)
Lemma register_rejects_child_out_of_range_witness :
  ~ (0 < 0 < SAMPLE_MAX_TID) /\
  rec_sched_register_thread SAMPLE_MAX_TID sample_fd sample_flags 0 0
    three_tasks = Abort AssertionFailed.
Proof.
  assert (H1 : ~ (0 < 0 < SAMPLE_MAX_TID)) by lia.
  split; [assumption|].
  exact (register_rejects_child_out_of_range SAMPLE_MAX_TID sample_fd
           sample_flags 0 0 three_tasks H1).
Defined.

(** Registering task 8 as a child of the id 40000. *)
Lemma register_parent_out_of_range_witness :
  0 < 8 < SAMPLE_MAX_TID /\ ~ (0 <= 40000 < SAMPLE_MAX_TID) /\
  rec_sched_register_thread SAMPLE_MAX_TID sample_fd sample_flags 40000 8
    three_tasks = Undef OutOfBounds.
Proof.
  assert (H1 : 0 < 8 < SAMPLE_MAX_TID) by (unfold SAMPLE_MAX_TID; lia).
  assert (H2 : ~ (0 <= 40000 < SAMPLE_MAX_TID))
    by (unfold SAMPLE_MAX_TID; lia).
  repeat (split; [assumption|]).
  exact (register_parent_out_of_range SAMPLE_MAX_TID sample_fd sample_flags
           40000 8 three_tasks H1 H2).
Defined.

(** Registering 5, then 6 as a child of 5, then 7, from the initial
    state. *)
Lemma registration_order_is_queue_order_witness :
  let regs := [(0, 5); (5, 6); (0, 7)] in
  let w := initial_world [] [] in
  SAMPLE_MAX_TID <= INT_MAX /\ consistent SAMPLE_MAX_TID w /\
  orderly SAMPLE_MAX_TID (dom (tid_to_entry w))
    (register_calls sample_flags regs) = true /\
  exists w' new,
    do_calls SAMPLE_MAX_TID sample_fd (register_calls sample_flags regs) w =
      Ret (tt, w') /\
    tasklist w' = tasklist w ++ new /\
    Forall2 (fun a pc => exists ls le,
               heap w' !! a = Some (new_context sample_fd pc.2 ls le))
      new regs /\
    current_entry w' = current_entry w /\
    (forall x c, heap w !! x = Some c -> heap w' !! x = Some c).
Proof.
  intros regs w.
  assert (H1 : consistent SAMPLE_MAX_TID w)
    by apply initial_world_consistent.
  assert (H2 : orderly SAMPLE_MAX_TID (dom (tid_to_entry w))
                 (register_calls sample_flags regs) = true)
    by (vm_compute; reflexivity).
  split; [exact sample_max_tid_is_int|].
  repeat (split; [assumption|]).
  exact (registration_order_is_queue_order SAMPLE_MAX_TID sample_fd
           sample_max_tid_is_int sample_flags regs w H1 H2).
Defined.

(** Deregistering B out of A, B and C. *)
Lemma deregister_then_lookup_witness :
  let w := three_tasks in
  let c := sample_task 6 in
  consistent SAMPLE_MAX_TID w /\ heap w !! 2%positive = Some c /\
  exists w',
    rec_sched_deregister_thread SAMPLE_MAX_TID (Entry 2) w = Ret (Null, w') /\
    get_task SAMPLE_MAX_TID (tid c) w' = Ret (Null, w') /\
    heap w' !! 2%positive = None /\ (2%positive ∉ tasklist w') /\
    rec_sched_get_num_threads w' = Ret (num_active_threads w - 1, w') /\
    trace w' = trace w ++ release_events 2 c /\
    (forall t, t <> tid c -> tid_to_entry w' !! t = tid_to_entry w !! t) /\
    (forall x, x <> 2%positive -> heap w' !! x = heap w !! x).
Proof.
  intros w c.
  assert (H1 : heap w !! 2%positive = Some c) by reflexivity.
  split; [exact three_tasks_consistent|]. split; [assumption|].
  exact (deregister_then_lookup SAMPLE_MAX_TID 2 c w three_tasks_consistent
           H1).
Defined.

(** Registering task 8 as a child of A and deregistering it again. *)
Lemma register_deregister_round_trip_witness :
  let w := three_tasks in
  SAMPLE_MAX_TID <= INT_MAX /\ consistent SAMPLE_MAX_TID w /\
  0 < 8 < SAMPLE_MAX_TID /\ tid_to_entry w !! 8 = None /\
  (5 = 0 \/ is_Some (tid_to_entry w !! 5)) /\
  exists w',
    (rec_sched_register_thread SAMPLE_MAX_TID sample_fd sample_flags 5 8 ;;
     ctx <- get_task SAMPLE_MAX_TID 8 ;;
     rec_sched_deregister_thread SAMPLE_MAX_TID ctx)%sched w =
      Ret (Null, w') /\
    same_scheduler_state w w' /\
    nonblock_script w' = nonblock_script w /\
    waitpid_script w' = waitpid_script w.
Proof.
  intros w.
  assert (H1 : 0 < 8 < SAMPLE_MAX_TID) by (unfold SAMPLE_MAX_TID; lia).
  assert (H2 : tid_to_entry w !! 8 = None) by reflexivity.
  assert (H3 : 5 = 0 \/ is_Some (tid_to_entry w !! 5))
    by (right; by eexists).
  split; [exact sample_max_tid_is_int|].
  split; [exact three_tasks_consistent|].
  repeat (split; [assumption|]).
  exact (register_deregister_round_trip SAMPLE_MAX_TID sample_fd
           sample_max_tid_is_int sample_flags 5 8 w three_tasks_consistent
           H1 H2 H3).
Defined.

(** A, B and C with the cursor on A. *)
Lemma three_tasks_cursor_consistent :
  consistent SAMPLE_MAX_TID (with_current_entry (Entry 1) three_tasks).
Proof.
  apply consistent_with_cursor; [exact three_tasks_consistent|].
  apply elem_of_cons. by left.
Defined.

(** Deregistering B while the cursor is on A. *)
Lemma deregister_keeps_order_and_other_cursor_witness :
  let w := with_current_entry (Entry 1) three_tasks in
  let c := sample_task 6 in
  consistent SAMPLE_MAX_TID w /\ heap w !! 2%positive = Some c /\
  exists w',
    rec_sched_deregister_thread SAMPLE_MAX_TID (Entry 2) w = Ret (Null, w') /\
    tasklist w' = filter (fun x => x <> 2%positive) (tasklist w) /\
    length (tasklist w) = S (length (tasklist w')) /\
    (current_entry w <> Entry 2 -> current_entry w' = current_entry w).
Proof.
  intros w c.
  assert (H1 : heap w !! 2%positive = Some c) by reflexivity.
  split; [exact three_tasks_cursor_consistent|]. split; [assumption|].
  exact (deregister_keeps_order_and_other_cursor SAMPLE_MAX_TID 2 c w
           three_tasks_cursor_consistent H1).
Defined.

(** Deregistering the record that a duplicate registration and a
    deregistration have left without an index entry. *)
Lemma deregister_unindexed_record_null_access_witness :
  let w := orphaned_record in
  let c := sample_task 5 in
  heap w !! 1%positive = Some c /\ 0 <= tid c < SAMPLE_MAX_TID /\
  tid_to_entry w !! tid c = None /\
  rec_sched_deregister_thread SAMPLE_MAX_TID (Entry 1) w = Undef NullAccess.
Proof.
  intros w c.
  assert (H1 : heap w !! 1%positive = Some c) by reflexivity.
  assert (H2 : 0 <= tid c < SAMPLE_MAX_TID)
    by (unfold SAMPLE_MAX_TID; simpl; lia).
  assert (H3 : tid_to_entry w !! tid c = None) by reflexivity.
  repeat (split; [assumption|]).
  exact (deregister_unindexed_record_null_access SAMPLE_MAX_TID 1 c w
           H1 H2 H3).
Defined.


(** The cursor is on C; C and A are inside system calls and their polls
    report no change; B is returned after these two polls. *)
Lemma scan_skips_blocked_to_first_ready_witness :
  let w := blocked_then_ready in
  let cr := sample_task 6 in
  within_budget Null w /\
  tasklist w = [1; 2]%positive ++ [3%positive] /\
  [3%positive] ++ [1; 2]%positive = [3; 1]%positive ++ 2%positive :: [] /\
  NoDup (tasklist w) /\
  bootstrapped w = Entry (hd 2%positive [3; 1]%positive) /\
  Forall (in_syscall w) [3; 1]%positive /\
  nonblock_script w = replicate (length [3; 1]%positive) None ++ [] /\
  heap w !! 2%positive = Some cr /\ exec_state cr <> PROCESSING_SYSCALL /\
  exists w',
    rec_sched_get_active_thread SAMPLE_MAX_TID sample_flags Null w =
      Ret ((Entry 2, 0), w') /\
    current_entry w' = Entry 2 /\
    heap w' =
      <[2%positive :=
          set_switch_counter (noted_budget sample_flags Null (Entry 2) cr) cr]>
        (heap w) /\
    trace w' = trace w ++ flat_map (idle_poll w) [3; 1]%positive /\
    nonblock_script w' = [] /\ waitpid_script w' = waitpid_script w.
Proof.
  intros w cr.
  assert (H1 : within_budget Null w) by (by left).
  assert (H2 : tasklist w = [1; 2]%positive ++ [3%positive]) by reflexivity.
  assert (H3 : [3%positive] ++ [1; 2]%positive =
               [3; 1]%positive ++ 2%positive :: []) by reflexivity.
  assert (H4 : NoDup (tasklist w)).
  { apply (bool_decide_unpack _). vm_compute. reflexivity. }
  assert (H5 : bootstrapped w = Entry (hd 2%positive [3; 1]%positive))
    by reflexivity.
  assert (H6 : Forall (in_syscall w) [3; 1]%positive).
  { repeat constructor; eexists; split; reflexivity. }
  assert (H7 : nonblock_script w =
               replicate (length [3; 1]%positive) None ++ []) by reflexivity.
  assert (H8 : heap w !! 2%positive = Some cr) by reflexivity.
  assert (H9 : exec_state cr <> PROCESSING_SYSCALL) by discriminate.
  repeat (split; [assumption|]).
  exact (scan_skips_blocked_to_first_ready SAMPLE_MAX_TID sample_flags Null
           [1; 2]%positive [3%positive] [3; 1]%positive 2%positive [] cr []
           w H1 H2 H3 H4 H5 H6 H7 H8 H9).
Defined.





(** A call before any task is registered. *)
Lemma select_on_empty_queue_witness :
  let w := initial_world [] [] in
  tasklist w = [] /\ current_entry w = Null /\
  rec_sched_get_active_thread SAMPLE_MAX_TID sample_flags Null w =
  Undef WildAccess.
Proof.
  intros w.
  exact (conj eq_refl (conj eq_refl
           (select_on_empty_queue SAMPLE_MAX_TID sample_flags w
              eq_refl eq_refl))).
Defined.

(** Task 5 alone with the budget -1: it is returned with the budget 9. *)
Lemma lone_task_budget_reset_then_decremented_witness :
  let w := lone_exceeded in
  let c := set_switchable 1 (set_switch_counter (-1) (sample_task 5)) in
  tasklist w = [1%positive] /\ heap w !! 1%positive = Some c /\
  (current_entry w = Null \/ current_entry w = Entry 1) /\
  switchable c <> 0 /\ switch_counter c < 0 /\
  exec_state c <> PROCESSING_SYSCALL /\
  max_events sample_flags <> INT_MIN /\
  exists w',
    rec_sched_get_active_thread SAMPLE_MAX_TID sample_flags (Entry 1) w =
      Ret ((Entry 1, 0), w') /\
    current_entry w' = Entry 1 /\
    heap w' =
      <[1%positive := set_switch_counter (max_events sample_flags - 1) c]>
        (heap w) /\
    trace w' = trace w /\ nonblock_script w' = nonblock_script w /\
    waitpid_script w' = waitpid_script w.
Proof.
  intros w c.
  assert (H1 : tasklist w = [1%positive]) by reflexivity.
  assert (H2 : heap w !! 1%positive = Some c) by reflexivity.
  assert (H3 : current_entry w = Null \/ current_entry w = Entry 1)
    by (by left).
  assert (H4 : switchable c <> 0) by discriminate.
  assert (H5 : switch_counter c < 0) by reflexivity.
  assert (H6 : exec_state c <> PROCESSING_SYSCALL) by discriminate.
  assert (H7 : max_events sample_flags <> INT_MIN) by discriminate.
  repeat (split; [assumption|]).
  exact (lone_task_budget_reset_then_decremented SAMPLE_MAX_TID sample_flags
           1 c w H1 H2 H3 H4 H5 H6 H7).
Defined.

(** The call of [interrupted_wait]: three polls, two waits, B returned. *)
Lemma select_changes_only_status_and_budget_witness :
  let w := interrupted_wait in
  exists w',
    rec_sched_get_active_thread SAMPLE_MAX_TID sample_flags Null w =
      Ret ((Entry 2, 1), w') /\
    tasklist w' = tasklist w /\ tid_to_entry w' = tid_to_entry w /\
    num_active_threads w' = num_active_threads w /\
    dom (heap w') = dom (heap w) /\
    selection_frame <$> heap w' = selection_frame <$> heap w.
Proof.
  intros w. eexists.
  match goal with |- ?A /\ _ =>
    assert (H1 : A) by (vm_compute; reflexivity) end.
  split; [exact H1|].
  exact (select_changes_only_status_and_budget SAMPLE_MAX_TID sample_flags
           Null w (Entry 2) 1 _ H1).
Defined.

(** The call of [all_blocked 6 1407]: three polls, one wait, B returned. *)
Lemma select_keeps_state_well_formed_witness :
  let w := all_blocked 6 1407 in
  exists w',
    consistent SAMPLE_MAX_TID w /\
    rec_sched_get_active_thread SAMPLE_MAX_TID sample_flags Null w =
      Ret ((Entry 2, 1), w') /\
    consistent SAMPLE_MAX_TID w'.
Proof.
  intros w. eexists.
  match goal with |- _ /\ ?A /\ _ =>
    assert (H1 : A) by (vm_compute; reflexivity) end.
  split; [exact (all_blocked_consistent 6 1407)|]. split; [exact H1|].
  exact (select_keeps_state_well_formed SAMPLE_MAX_TID sample_flags Null w
           (Entry 2) 1 _ (all_blocked_consistent 6 1407) H1).
Defined.

(** The first call on A, B and C. *)
Lemma select_returns_allocated_task_under_cursor_witness :
  let w := three_tasks in
  exists w',
    rec_sched_get_active_thread SAMPLE_MAX_TID sample_flags Null w =
      Ret ((Entry 1, 0), w') /\
    (0 = 0 \/ 0 = 1) /\
    exists b c',
      Entry 1 = Entry b /\ heap w' !! b = Some c' /\
      (current_entry w' = Entry b \/
       Null = Entry 1 /\ 0 = 0 /\ switchable c' = 0 /\
       current_entry w' = bootstrapped w).
Proof.
  intros w. eexists.
  match goal with |- ?A /\ _ =>
    assert (H1 : A) by (vm_compute; reflexivity) end.
  split; [exact H1|].
  exact (select_returns_allocated_task_under_cursor SAMPLE_MAX_TID
           sample_flags Null w (Entry 1) 0 _ H1).
Defined.

(** The call of [blocked_then_ready]: two polls without a change, then B,
    which is not inside a system call. *)
Lemma by_waitpid_zero_means_no_status_change_witness :
  let w := blocked_then_ready in
  exists w',
    rec_sched_get_active_thread SAMPLE_MAX_TID sample_flags Null w =
      Ret ((Entry 2, 0), w') /\
    statuses w' = statuses w /\ waitpid_script w' = waitpid_script w /\
    exists b c,
      Entry 2 = Entry b /\ heap w !! b = Some c /\
      (exec_state c <> PROCESSING_SYSCALL \/
       Null = Entry 2 /\ switchable c = 0).
Proof.
  intros w. eexists.
  match goal with |- ?A /\ _ =>
    assert (H1 : A) by (vm_compute; reflexivity) end.
  split; [exact H1|].
  exact (by_waitpid_zero_means_no_status_change SAMPLE_MAX_TID sample_flags
           Null w (Entry 2) _ H1).
Defined.

(** The call of [blocked_then_change]: the poll of B reports 1407. *)
Lemma by_waitpid_one_records_reported_status_witness :
  let w := blocked_then_change in
  exists w',
    rec_sched_get_active_thread SAMPLE_MAX_TID sample_flags Null w =
      Ret ((Entry 2, 1), w') /\
    exists b c tr,
      Entry 2 = Entry b /\ heap w' !! b = Some c /\
      current_entry w' = Entry b /\
      (trace w' = tr ++ [EvWaitpidNonblock (tid c) (Some (status c))] \/
       exists answer,
         trace w' = tr ++ [EvWaitpid answer] /\
         wait_status answer = status c /\ wait_ret answer <> -1 /\
         tid_to_entry w' !! wait_ret answer = Some b).
Proof.
  intros w. eexists.
  match goal with |- ?A /\ _ =>
    assert (H1 : A) by (vm_compute; reflexivity) end.
  split; [exact H1|].
  exact (by_waitpid_one_records_reported_status SAMPLE_MAX_TID sample_flags
           Null w (Entry 2) _ H1).
Defined.

(** The call of [all_blocked 6 1407] consumes three answers to polls. *)
Lemma select_polls_each_task_at_most_once_witness :
  let w := all_blocked 6 1407 in
  exists w',
    consistent SAMPLE_MAX_TID w /\
    rec_sched_get_active_thread SAMPLE_MAX_TID sample_flags Null w =
      Ret ((Entry 2, 1), w') /\
    exists p,
      nonblock_script w = p ++ nonblock_script w' /\
      (length p <= length (tasklist w))%nat.
Proof.
  intros w. eexists.
  match goal with |- _ /\ ?A /\ _ =>
    assert (H1 : A) by (vm_compute; reflexivity) end.
  split; [exact (all_blocked_consistent 6 1407)|]. split; [exact H1|].
  exact (select_polls_each_task_at_most_once SAMPLE_MAX_TID sample_flags Null
           w (Entry 2) 1 _ (all_blocked_consistent 6 1407) H1).
Defined.

(** A, B and C inside system calls and a wait that reports B. *)
Lemma select_has_no_undefined_behaviour_witness :
  let w := all_blocked 6 1407 in
  consistent SAMPLE_MAX_TID w /\ tasklist w <> [] /\
  (Null = Null \/ (exists a, Null = Entry a /\ is_Some (heap w !! a))) /\
  max_events sample_flags <> INT_MIN /\
  waits_name_registered w /\
  defined (rec_sched_get_active_thread SAMPLE_MAX_TID sample_flags Null) w /\
  rec_sched_get_active_thread SAMPLE_MAX_TID sample_flags Null w <> OutOfFuel.
Proof.
  intros w.
  assert (H1 : tasklist w <> []) by discriminate.
  assert (H2 : Null = Null \/
               (exists a, Null = Entry a /\ is_Some (heap w !! a)))
    by (by left).
  assert (H3 : max_events sample_flags <> INT_MIN) by discriminate.
  assert (H4 : waits_name_registered w).
  { unfold waits_name_registered.
    change (waitpid_script w) with [mkWait 6 1407 0].
    apply Forall_singleton. right. by eexists. }
  split; [exact (all_blocked_consistent 6 1407)|].
  repeat (split; [assumption|]).
  exact (select_has_no_undefined_behaviour SAMPLE_MAX_TID sample_flags Null w
           (all_blocked_consistent 6 1407) H1 H2 H3 H4).
Defined.

(** A is not switchable: three calls in a row return A. *)
Lemma unswitchable_context_is_returned_for_ever_witness :
  let w := three_tasks in
  let c := sample_task 5 in
  heap w !! 1%positive = Some c /\ switchable c = 0 /\
  exists w',
    repeat_select SAMPLE_MAX_TID sample_flags 3 (Entry 1) w =
      Ret (replicate 3 (Entry 1), w') /\
    heap w' = heap w /\ tasklist w' = tasklist w /\
    trace w' = trace w /\ nonblock_script w' = nonblock_script w /\
    waitpid_script w' = waitpid_script w.
Proof.
  intros w c.
  exact (conj eq_refl (conj eq_refl
           (unswitchable_context_is_returned_for_ever SAMPLE_MAX_TID
              sample_flags 1 c 3 w eq_refl eq_refl))).
Defined.


(** Registering 5, then 6 as a child of 5, then 7 into the initial state:
    the first call returns task 5. *)
Lemma first_registered_is_selected_first_witness :
  let regs := [(5, 6); (0, 7)] in
  let w := initial_world [] [] in
  SAMPLE_MAX_TID <= INT_MAX /\ consistent SAMPLE_MAX_TID w /\
  tasklist w = [] /\
  orderly SAMPLE_MAX_TID (dom (tid_to_entry w))
    (register_calls sample_flags ((0, 5) :: regs)) = true /\
  exists b cb w',
    (do_calls SAMPLE_MAX_TID sample_fd
       (register_calls sample_flags ((0, 5) :: regs)) ;;
     rec_sched_get_active_thread SAMPLE_MAX_TID sample_flags Null)%sched w =
      Ret ((Entry b, 0), w') /\
    hd_error (tasklist w') = Some b /\ current_entry w' = Entry b /\
    heap w' !! b = Some cb /\ tid cb = 5 /\
    switch_counter cb = max_events sample_flags /\
    nonblock_script w' = nonblock_script w /\
    waitpid_script w' = waitpid_script w.
Proof.
  intros regs w.
  assert (H1 : consistent SAMPLE_MAX_TID w)
    by apply initial_world_consistent.
  assert (H2 : tasklist w = []) by reflexivity.
  assert (H3 : orderly SAMPLE_MAX_TID (dom (tid_to_entry w))
                 (register_calls sample_flags ((0, 5) :: regs)) = true)
    by (vm_compute; reflexivity).
  split; [exact sample_max_tid_is_int|].
  repeat (split; [assumption|]).
  exact (first_registered_is_selected_first SAMPLE_MAX_TID sample_fd
           sample_max_tid_is_int sample_flags sample_flags 0 5 regs w
           H1 H2 H3).
Defined.

(** A, B and C with the cursor on A: A is deregistered and the next call
    returns B. *)
Lemma deregister_hands_turn_to_successor_witness :
  let w := with_current_entry (Entry 1) three_tasks in
  let c := sample_task 5 in
  let cn := sample_task 6 in
  consistent SAMPLE_MAX_TID w /\ current_entry w = Entry 1 /\
  heap w !! 1%positive = Some c /\
  loop_next (tasklist w) 1 = Some 2%positive /\ 2%positive <> 1%positive /\
  heap w !! 2%positive = Some cn /\ exec_state cn <> PROCESSING_SYSCALL /\
  exists w',
    (rec_sched_deregister_thread SAMPLE_MAX_TID (Entry 1) ;;
     rec_sched_get_active_thread SAMPLE_MAX_TID sample_flags Null)%sched w =
      Ret ((Entry 2, 0), w') /\
    current_entry w' = Entry 2 /\
    heap w' !! 2%positive =
      Some (set_switch_counter (max_events sample_flags) cn) /\
    heap w' !! 1%positive = None /\
    nonblock_script w' = nonblock_script w /\
    waitpid_script w' = waitpid_script w.
Proof.
  intros w c cn.
  assert (H1 : current_entry w = Entry 1) by reflexivity.
  assert (H2 : heap w !! 1%positive = Some c) by reflexivity.
  assert (H3 : loop_next (tasklist w) 1 = Some 2%positive) by reflexivity.
  assert (H4 : 2%positive <> 1%positive) by discriminate.
  assert (H5 : heap w !! 2%positive = Some cn) by reflexivity.
  assert (H6 : exec_state cn <> PROCESSING_SYSCALL) by discriminate.
  split; [exact three_tasks_cursor_consistent|].
  repeat (split; [assumption|]).
  exact (deregister_hands_turn_to_successor SAMPLE_MAX_TID sample_flags 1 c
           2 cn w three_tasks_cursor_consistent H1 H2 H3 H4 H5 H6).
Defined.
